(** * ApexQuant simulated exchange: ledger, matcher, limit queue, orchestrator

    A shallow embedding of the C++ simulation core
    ([simulation_types.h], [simulation_account.cpp], [order_matcher.cpp],
    [limit_queue.cpp], [simulated_exchange.cpp]) and the properties of it
    that the specification states.

    Modelling conventions.
    - [double] is modelled by the exact rationals [Q]; [std::round] is
      rounding half away from zero.  Binary rounding error, far below a
      cent, is outside this model; it decides an outcome only for an
      amount on a half cent and for a price on an end of the price-limit
      band, and the statements on [round_to_cent] and on the band of the
      matcher are to be read away from these points.  The at-limit test
      of the limit queue compares a difference of two prices with 0.01,
      which at a price one cent from the limit is decided by binary
      rounding alone: that test is computed in IEEE 754 binary64
      ([Module Double]).
    - [int64_t] is modelled by [Z].  Signed overflow is undefined in C++
      and the code bounds volumes before it adds them; integer division
      and remainder are the truncating [Z.quot] and [Z.rem].
    - [std::unordered_map<std::string, V>] is a [gmap string V].
    - The wall clock read by [submit_order] and [cancel_order] is an
      explicit argument [now_ms]; the Mersenne-twister draws of the
      matcher are an arbitrary sequence [nat -> Q] with a read position.
    - Mutexes are not modelled: every operation is a function from state
      to state. *)

From Stdlib Require Import ZArith QArith Qround Qabs Ascii String Lia Lqa.
From Stdlib Require Import SpecFloat.
From stdpp Require Import base option list gmap strings pretty.

Open Scope Z_scope.

(** ** Numbers *)

(** [a < b] on doubles. *)
Definition Qltb (a b : Q) : bool := negb (Qle_bool b a).

(** [std::max(a, b)]: returns [b] when [a < b], else [a]. *)
Definition std_max (a b : Q) : Q := if Qltb a b then b else a.

(** [std::min(a, b)]: returns [b] when [b < a], else [a]. *)
Definition std_min (a b : Q) : Q := if Qltb b a then b else a.

(** [std::max] and [std::min] on [int64_t]. *)
Definition std_maxZ (a b : Z) : Z := if a <? b then b else a.

(** [std::round]: nearest integer, halfway cases away from zero. *)
Definition std_round (x : Q) : Z :=
  if Qle_bool 0 x then Qfloor (x + (1 # 2)) else - Qfloor (- x + (1 # 2)).

(** [round_to_cent(value) = std::round(value * 100.0) / 100.0], the same
    body in [SimulationAccount] and [OrderMatcher].  A decimal amount on
    a half cent (1.005) is not a double: the machine rounds the double
    next to it, which may lie on either side of the half cent (1.005
    becomes 1.00), where this definition rounds the decimal itself
    (1.01). *)
Definition round_to_cent (value : Q) : Q :=
  (inject_Z (std_round (value * 100)) / 100)%Q.

(** IEEE 754 binary64, the [double] of the machine, with the operations
    of the Standard Library's [SpecFloat] (round to nearest, ties to
    even).  A rational stands for the double nearest to it, which is the
    double itself when the rational is the exact value of one. *)
Module Double.

Definition prec : Z := 53.
Definition emax : Z := 1024.

Definition double : Type := spec_float.

Definition of_Z (z : Z) : double := binary_normalize prec emax z 0 false.

Definition add : double -> double -> double := SFadd prec emax.
Definition sub : double -> double -> double := SFsub prec emax.
Definition mul : double -> double -> double := SFmul prec emax.
Definition div : double -> double -> double := SFdiv prec emax.

(** [std::abs] *)
Definition abs : double -> double := SFabs.

(** [a < b]: false when either side is not a number. *)
Definition ltb : double -> double -> bool := SFltb.

(** The double of a decimal literal or of a stored value: numerator and
    denominator, exact below [2^53] and up to a power of two, divided
    with one rounding. *)
Definition of_Q (q : Q) : double := div (of_Z (Qnum q)) (of_Z (Zpos (Qden q))).

(** [std::round]: nearest integer, halfway cases away from zero.  A
    finite double [m * 2^e] with [e >= 0] is an integer already. *)
Definition round (x : double) : double :=
  match x with
  | S754_finite s m e =>
      if 0 <=? e then x
      else
        let d := 2 ^ (- e) in
        let q := Zpos m / d in
        let r := Zpos m mod d in
        let n := if d <=? 2 * r then q + 1 else q in
        binary_normalize prec emax (if s then - n else n) 0 s
  | _ => x
  end.

End Double.

(** ** simulation_types.h *)

Inductive OrderSide := BUY | SELL.
Inductive OrderType := MARKET | LIMIT.
Inductive OrderStatus := PENDING | PARTIAL_FILLED | FILLED | CANCELLED | REJECTED.

#[global] Instance OrderSide_eq_dec : EqDecision OrderSide.
Proof. solve_decision. Defined.
#[global] Instance OrderType_eq_dec : EqDecision OrderType.
Proof. solve_decision. Defined.
#[global] Instance OrderStatus_eq_dec : EqDecision OrderStatus.
Proof. solve_decision. Defined.

Record SimulatedOrder := {
  ord_order_id : string;
  ord_symbol : string;
  ord_side : OrderSide;
  ord_type : OrderType;
  ord_price : Q;
  ord_volume : Z;
  ord_filled_volume : Z;
  ord_status : OrderStatus;
  ord_submit_time : Z;
  ord_cancel_time : Z;
  ord_filled_time : Z;
  ord_commission_rate : Q;
  ord_slippage_rate : Q
}.

Record Position := {
  pos_symbol : string;
  pos_volume : Z;
  pos_available_volume : Z;
  pos_frozen_volume : Z;
  pos_avg_cost : Q;
  pos_current_price : Q;
  pos_market_value : Q;
  pos_unrealized_pnl : Q;
  pos_buy_date : Z
}.

(** [Position(sym, vol, cost, date)]. *)
Definition Position_new (sym : string) (vol : Z) (cost : Q) (date : Z) : Position :=
  {| pos_symbol := sym; pos_volume := vol; pos_available_volume := 0;
     pos_frozen_volume := 0; pos_avg_cost := cost; pos_current_price := cost;
     pos_market_value := (inject_Z vol * cost)%Q; pos_unrealized_pnl := 0%Q;
     pos_buy_date := date |}.

Record TradeRecord := {
  trade_trade_id : string;
  trade_order_id : string;
  trade_symbol : string;
  trade_side : OrderSide;
  trade_price : Q;
  trade_volume : Z;
  trade_commission : Q;
  trade_trade_time : Z;
  trade_realized_pnl : Q
}.

Record MatchResult := {
  mr_success : bool;
  mr_filled_price : Q;
  mr_filled_volume : Z;
  mr_reject_reason : string
}.

(** [MatchResult(price, volume)]. *)
Definition MatchResult_fill (price : Q) (volume : Z) : MatchResult :=
  {| mr_success := true; mr_filled_price := price; mr_filled_volume := volume;
     mr_reject_reason := "" |}.

(** [MatchResult(reason)]. *)
Definition MatchResult_fail (reason : string) : MatchResult :=
  {| mr_success := false; mr_filled_price := 0%Q; mr_filled_volume := 0;
     mr_reject_reason := reason |}.

(** Modelled from the spec: the field [last_close] of [Tick] (prior-day
    close), which the declaration of [Tick] in [data_structures.h] lacks
    while the matcher, the limit queue and the tests read
    [tick.last_close] as a [double].  The other fields are those of
    [data_structures.h] that the simulation reads. *)
Record Tick := {
  tick_symbol : string;
  tick_timestamp : Z;
  tick_last_price : Q;
  tick_bid_price : Q;
  tick_ask_price : Q;
  tick_volume : Z;
  tick_last_close : Q
}.

(** ** simulation_account.cpp *)

Record SimulationAccount := {
  account_id_ : string;
  initial_capital_ : Q;
  available_cash_ : Q;
  withdrawable_cash_ : Q;
  frozen_cash_ : Q;
  today_sell_amount_ : Q;
  realized_pnl_ : Q;
  positions_ : gmap string Position
}.

Module Account.

(** The constructor throws [std::invalid_argument] when
    [initial_capital <= 0]: [None]. *)
Definition new (account_id : string) (initial_capital : Q) : option SimulationAccount :=
  if Qle_bool initial_capital 0 then None
  else Some {| account_id_ := account_id; initial_capital_ := initial_capital;
               available_cash_ := initial_capital;
               withdrawable_cash_ := initial_capital;
               frozen_cash_ := 0%Q; today_sell_amount_ := 0%Q;
               realized_pnl_ := 0%Q; positions_ := ∅ |}.

Definition set_cash (a : SimulationAccount) (avail frozen : Q) : SimulationAccount :=
  {| account_id_ := account_id_ a; initial_capital_ := initial_capital_ a;
     available_cash_ := avail; withdrawable_cash_ := withdrawable_cash_ a;
     frozen_cash_ := frozen; today_sell_amount_ := today_sell_amount_ a;
     realized_pnl_ := realized_pnl_ a; positions_ := positions_ a |}.

Definition set_positions (a : SimulationAccount) (ps : gmap string Position)
  : SimulationAccount :=
  {| account_id_ := account_id_ a; initial_capital_ := initial_capital_ a;
     available_cash_ := available_cash_ a;
     withdrawable_cash_ := withdrawable_cash_ a;
     frozen_cash_ := frozen_cash_ a; today_sell_amount_ := today_sell_amount_ a;
     realized_pnl_ := realized_pnl_ a; positions_ := ps |}.

Definition freeze_cash (amount : Q) (a : SimulationAccount)
  : bool * SimulationAccount :=
  if Qltb amount 0 then (false, a)
  else
    let amount := round_to_cent amount in
    if Qltb (available_cash_ a) amount then (false, a)
    else (true, set_cash a (available_cash_ a - amount)%Q
                           (frozen_cash_ a + amount)%Q).

Definition unfreeze_cash (amount : Q) (a : SimulationAccount) : SimulationAccount :=
  if Qltb amount 0 then a
  else
    let amount := round_to_cent amount in
    let amount := std_min amount (frozen_cash_ a) in
    set_cash a (available_cash_ a + amount)%Q (frozen_cash_ a - amount)%Q.

Definition add_position (symbol : string) (volume : Z) (price : Q) (buy_date : Z)
    (a : SimulationAccount) : bool * SimulationAccount :=
  if String.eqb symbol "" then (false, a)
  else if (volume <=? 0) || Qle_bool price 0 then (false, a)
  else if 1000000000 <? volume then (false, a)
  else if Qltb 1000000 price then (false, a)
  else
    let price := round_to_cent price in
    let cost := round_to_cent (inject_Z volume * price) in
    match positions_ a !! symbol with
    | None =>
        let pos := Position_new symbol volume price buy_date in
        (true, set_positions a (<[symbol := pos]> (positions_ a)))
    | Some pos =>
        let total_cost := (inject_Z (pos_volume pos) * pos_avg_cost pos + cost)%Q in
        let volume' := pos_volume pos + volume in
        let avg_cost' := round_to_cent (total_cost / inject_Z volume') in
        let market_value' := round_to_cent (inject_Z volume' * pos_current_price pos) in
        let pos' :=
          {| pos_symbol := pos_symbol pos; pos_volume := volume';
             pos_available_volume := pos_available_volume pos;
             pos_frozen_volume := pos_frozen_volume pos;
             pos_avg_cost := avg_cost';
             pos_current_price := pos_current_price pos;
             pos_market_value := market_value';
             pos_unrealized_pnl :=
               round_to_cent (market_value' - inject_Z volume' * avg_cost');
             pos_buy_date := pos_buy_date pos |} in
        (true, set_positions a (<[symbol := pos']> (positions_ a)))
    end.

(** [reduce_position] returns the success flag, the value written to the
    [realized_pnl] out-parameter (unchanged on failure) and the account. *)
Definition reduce_position (symbol : string) (volume : Z) (sell_price : Q)
    (realized_pnl : Q) (a : SimulationAccount) : bool * Q * SimulationAccount :=
  if (volume <=? 0) || Qle_bool sell_price 0 then (false, realized_pnl, a)
  else
    match positions_ a !! symbol with
    | None => (false, realized_pnl, a)
    | Some pos =>
        if pos_volume pos <? volume then (false, realized_pnl, a)
        else
          let sell_price := round_to_cent sell_price in
          let cost := round_to_cent (inject_Z volume * pos_avg_cost pos) in
          let revenue := round_to_cent (inject_Z volume * sell_price) in
          let realized_pnl := round_to_cent (revenue - cost) in
          let volume' := pos_volume pos - volume in
          let ps' :=
            if volume' =? 0 then delete symbol (positions_ a)
            else
              let market_value' :=
                round_to_cent (inject_Z volume' * pos_current_price pos) in
              <[symbol :=
                 {| pos_symbol := pos_symbol pos; pos_volume := volume';
                    pos_available_volume :=
                      std_maxZ 0 (pos_available_volume pos - volume);
                    pos_frozen_volume := pos_frozen_volume pos;
                    pos_avg_cost := pos_avg_cost pos;
                    pos_current_price := pos_current_price pos;
                    pos_market_value := market_value';
                    pos_unrealized_pnl :=
                      round_to_cent
                        (market_value' - inject_Z volume' * pos_avg_cost pos);
                    pos_buy_date := pos_buy_date pos |}]> (positions_ a) in
          (true, realized_pnl,
           {| account_id_ := account_id_ a;
              initial_capital_ := initial_capital_ a;
              available_cash_ := (available_cash_ a + revenue)%Q;
              withdrawable_cash_ := withdrawable_cash_ a;
              frozen_cash_ := frozen_cash_ a;
              today_sell_amount_ := (today_sell_amount_ a + revenue)%Q;
              realized_pnl_ := (realized_pnl_ a + realized_pnl)%Q;
              positions_ := ps' |})
    end.

Definition update_position_price (symbol : string) (current_price : Q)
    (a : SimulationAccount) : SimulationAccount :=
  match positions_ a !! symbol with
  | None => a
  | Some pos =>
      let current_price' := round_to_cent current_price in
      let market_value' := round_to_cent (inject_Z (pos_volume pos) * current_price') in
      set_positions a
        (<[symbol :=
            {| pos_symbol := pos_symbol pos; pos_volume := pos_volume pos;
               pos_available_volume := pos_available_volume pos;
               pos_frozen_volume := pos_frozen_volume pos;
               pos_avg_cost := pos_avg_cost pos;
               pos_current_price := current_price';
               pos_market_value := market_value';
               pos_unrealized_pnl :=
                 round_to_cent
                   (market_value' - inject_Z (pos_volume pos) * pos_avg_cost pos);
               pos_buy_date := pos_buy_date pos |}]> (positions_ a))
  end.

(** The loop body shared by [update_available_volume] and
    [daily_settlement]: positions bought before [current_date] become
    sellable up to what is not frozen. *)
Definition unlock (current_date : Z) (pos : Position) : Position :=
  if pos_buy_date pos <? current_date then
    {| pos_symbol := pos_symbol pos; pos_volume := pos_volume pos;
       pos_available_volume := pos_volume pos - pos_frozen_volume pos;
       pos_frozen_volume := pos_frozen_volume pos;
       pos_avg_cost := pos_avg_cost pos;
       pos_current_price := pos_current_price pos;
       pos_market_value := pos_market_value pos;
       pos_unrealized_pnl := pos_unrealized_pnl pos;
       pos_buy_date := pos_buy_date pos |}
  else pos.

Definition update_available_volume (current_date : Z) (a : SimulationAccount)
  : SimulationAccount :=
  set_positions a (unlock current_date <$> positions_ a).

Definition daily_settlement (current_date : Z) (a : SimulationAccount)
  : SimulationAccount :=
  {| account_id_ := account_id_ a; initial_capital_ := initial_capital_ a;
     available_cash_ := available_cash_ a;
     withdrawable_cash_ := available_cash_ a;
     frozen_cash_ := frozen_cash_ a;
     today_sell_amount_ := 0%Q;
     realized_pnl_ := realized_pnl_ a;
     positions_ := unlock current_date <$> positions_ a |}.

Definition can_sell (symbol : string) (volume : Z) (current_date : Z)
    (a : SimulationAccount) : bool :=
  match positions_ a !! symbol with
  | None => false
  | Some pos =>
      if pos_buy_date pos =? current_date then volume <=? pos_available_volume pos
      else volume <=? pos_volume pos - pos_frozen_volume pos
  end.

Definition set_frozen_volume (pos : Position) (frozen : Z) : Position :=
  {| pos_symbol := pos_symbol pos; pos_volume := pos_volume pos;
     pos_available_volume := pos_available_volume pos;
     pos_frozen_volume := frozen;
     pos_avg_cost := pos_avg_cost pos;
     pos_current_price := pos_current_price pos;
     pos_market_value := pos_market_value pos;
     pos_unrealized_pnl := pos_unrealized_pnl pos;
     pos_buy_date := pos_buy_date pos |}.

Definition freeze_position (symbol : string) (volume : Z) (a : SimulationAccount)
  : bool * SimulationAccount :=
  if volume <=? 0 then (false, a)
  else
    match positions_ a !! symbol with
    | None => (false, a)
    | Some pos =>
        let available := pos_volume pos - pos_frozen_volume pos in
        if available <? volume then (false, a)
        else
          (true,
           set_positions a
             (<[symbol := set_frozen_volume pos (pos_frozen_volume pos + volume)]>
                (positions_ a)))
    end.

Definition unfreeze_position (symbol : string) (volume : Z) (a : SimulationAccount)
  : SimulationAccount :=
  if volume <=? 0 then a
  else
    match positions_ a !! symbol with
    | None => a
    | Some pos =>
        set_positions a
          (<[symbol :=
              set_frozen_volume pos (std_maxZ 0 (pos_frozen_volume pos - volume))]>
             (positions_ a))
    end.

(** [get_total_assets]: the loop adds the market values in the iteration
    order of the map. *)
Definition get_total_assets (a : SimulationAccount) : Q :=
  let market_value :=
    map_fold (fun _ pos acc => (acc + pos_market_value pos)%Q) 0%Q (positions_ a) in
  (available_cash_ a + frozen_cash_ a + market_value)%Q.

End Account.

(** ** order_matcher.cpp

    The matcher with [validate_order_volume] and
    [calculate_total_commission], the implementation of the two methods
    that [order_matcher.h] declares. *)

Record OrderMatcher := {
  default_slippage_rate_ : Q;
  default_commission_rate_ : Q;
  stamp_tax_rate_ : Q;
  (** [rng_] and [dist_]: the values that successive calls [dist_(rng_)]
      return, and how many have been drawn. *)
  rng_draws_ : nat -> Q;
  rng_pos_ : nat
}.

Module Matcher.

(** [OrderMatcher()] with the default arguments of the header; the seed
    is the clock, so the draws are arbitrary. *)
Definition new (draws : nat -> Q) : OrderMatcher :=
  {| default_slippage_rate_ := 0.0001%Q; default_commission_rate_ := 0.00025%Q;
     stamp_tax_rate_ := 0.001%Q; rng_draws_ := draws; rng_pos_ := 0%nat |}.

(** [dist_(rng_)]. *)
Definition dist (m : OrderMatcher) : Q * OrderMatcher :=
  (rng_draws_ m (rng_pos_ m),
   {| default_slippage_rate_ := default_slippage_rate_ m;
      default_commission_rate_ := default_commission_rate_ m;
      stamp_tax_rate_ := stamp_tax_rate_ m;
      rng_draws_ := rng_draws_ m; rng_pos_ := S (rng_pos_ m) |}).

(** [s.find(sub) != std::string::npos]. *)
Definition contains (sub s : string) : bool :=
  match String.index 0 sub s with Some _ => true | None => false end.

(** [s.substr(0, n) == lit] guarded by [s.length() >= n]. *)
Definition starts_with (n : nat) (lit s : string) : bool :=
  (n <=? String.length s)%nat && String.eqb (String.substring 0 n s) lit.

(** [symbol.length() >= 1 && symbol[0] == c]. *)
Definition first_char_is (c : Ascii.ascii) (s : string) : bool :=
  match s with
  | String c' _ => Ascii.eqb c' c
  | EmptyString => false
  end.

Definition get_limit_pct (symbol : string) : Q :=
  if contains "ST" symbol || contains "st" symbol then 0.05%Q
  else if starts_with 3 "688" symbol then 0.20%Q
  else if starts_with 3 "300" symbol then 0.20%Q
  else if first_char_is "8"%char symbol || first_char_is "4"%char symbol then 0.30%Q
  else 0.10%Q.

Definition check_limit_price (symbol : string) (price last_close : Q) : bool :=
  if Qle_bool last_close 0 then true
  else
    let limit_pct := get_limit_pct symbol in
    let limit_up := (last_close * (1 + limit_pct))%Q in
    let limit_down := (last_close * (1 - limit_pct))%Q in
    Qle_bool limit_down price && Qle_bool price limit_up.

Definition calculate_slippage (side : OrderSide) (base_price : Q) (volume : Z)
    (slippage_rate : Q) (m : OrderMatcher) : Q * OrderMatcher :=
  let '(u, m) := dist m in
  let random_slippage := (slippage_rate * u)%Q in
  let '(random_slippage, m) :=
    if 10000 <? volume then
      let slippage_rate := (slippage_rate * 1.5)%Q in
      let '(u, m) := dist m in
      ((slippage_rate * u)%Q, m)
    else (random_slippage, m) in
  let actual_slippage :=
    match side with
    | BUY => Qabs random_slippage
    | SELL => (- Qabs random_slippage)%Q
    end in
  let filled_price := (base_price * (1 + actual_slippage))%Q in
  (round_to_cent filled_price, m).

Definition check_liquidity (volume : Z) (tick : Tick) (side : OrderSide) : bool :=
  if tick_volume tick <=? 0 then true
  else
    let max_volume := Z.quot (tick_volume tick) 10 in
    volume <=? max_volume.

Definition validate_order_volume (volume : Z) (side : OrderSide)
    (available_volume : Z) : bool * string :=
  if volume <=? 0 then (false, "Order volume must be positive")
  else if 1000000 <? volume then
    (false, "Order volume exceeds maximum (1,000,000 shares)")
  else if bool_decide (side = BUY) && negb (Z.rem volume 100 =? 0) then
    (false, "Buy volume must be multiple of 100 (lot size)")
  else if bool_decide (side = SELL) && (0 <? available_volume)
          && (available_volume <? volume) then
    (false, "Sell volume exceeds available volume")
  else (true, "OK").

Definition try_match_order (order : SimulatedOrder) (current_tick : Tick)
    (check_price_limit : bool) (m : OrderMatcher) : MatchResult * OrderMatcher :=
  let '(is_valid, error_msg) :=
    validate_order_volume (ord_volume order) (ord_side order) 0 in
  if negb is_valid then (MatchResult_fail error_msg, m)
  else
    let base :=
      match ord_type order, ord_side order with
      | MARKET, BUY => inr (tick_ask_price current_tick)
      | MARKET, SELL => inr (tick_bid_price current_tick)
      | LIMIT, BUY =>
          if Qltb (ord_price order) (tick_ask_price current_tick)
          then inl "Buy limit price too low"
          else inr (ord_price order)
      | LIMIT, SELL =>
          if Qltb (tick_bid_price current_tick) (ord_price order)
          then inl "Sell limit price too high"
          else inr (ord_price order)
      end in
    match base with
    | inl reason => (MatchResult_fail reason, m)
    | inr base_price =>
        if check_price_limit && Qltb 0 (tick_last_close current_tick)
           && negb (check_limit_price (ord_symbol order) base_price
                      (tick_last_close current_tick))
        then
          match ord_side order with
          | BUY => (MatchResult_fail "Price at limit up - queuing", m)
          | SELL => (MatchResult_fail "Price at limit down - queuing", m)
          end
        else if negb (check_liquidity (ord_volume order) current_tick (ord_side order))
        then (MatchResult_fail "Insufficient liquidity", m)
        else
          let slippage_rate :=
            if Qltb 0 (ord_slippage_rate order) then ord_slippage_rate order
            else default_slippage_rate_ m in
          let '(filled_price, m) :=
            calculate_slippage (ord_side order) base_price (ord_volume order)
              slippage_rate m in
          (MatchResult_fill filled_price (ord_volume order), m)
    end.

Definition is_shanghai_stock (symbol : string) : bool :=
  if first_char_is "6"%char symbol then true
  else if starts_with 4 "sh.6" symbol then true
  else false.

Definition calculate_total_commission (side : OrderSide) (symbol : string)
    (price : Q) (volume : Z) (commission_rate : Q) (m : OrderMatcher) : Q :=
  let amount := (price * inject_Z volume)%Q in
  let commission := std_max (amount * commission_rate)%Q 5%Q in
  let total_fee := (0 + commission)%Q in
  let total_fee :=
    match side with
    | SELL => (total_fee + amount * stamp_tax_rate_ m)%Q
    | BUY => total_fee
    end in
  let total_fee :=
    if is_shanghai_stock symbol then (total_fee + inject_Z volume * 0.00002)%Q
    else total_fee in
  round_to_cent total_fee.

End Matcher.

(** The copy of [order_matcher.cpp] under [cpp/src/simulation]: an older
    state of the same file, before [validate_order_volume] and
    [calculate_total_commission] were added.  Its [try_match_order]
    checks only that the volume is positive and names the price-limit
    reasons without the "- queuing" suffix; the helpers are the same. *)
Module LegacyMatcher.

Definition try_match_order (order : SimulatedOrder) (current_tick : Tick)
    (check_price_limit : bool) (m : OrderMatcher) : MatchResult * OrderMatcher :=
  if ord_volume order <=? 0 then
    (MatchResult_fail "Order volume must be positive", m)
  else
    let base :=
      match ord_type order, ord_side order with
      | MARKET, BUY => inr (tick_ask_price current_tick)
      | MARKET, SELL => inr (tick_bid_price current_tick)
      | LIMIT, BUY =>
          if Qltb (ord_price order) (tick_ask_price current_tick)
          then inl "Buy limit price too low"
          else inr (ord_price order)
      | LIMIT, SELL =>
          if Qltb (tick_bid_price current_tick) (ord_price order)
          then inl "Sell limit price too high"
          else inr (ord_price order)
      end in
    match base with
    | inl reason => (MatchResult_fail reason, m)
    | inr base_price =>
        if check_price_limit && Qltb 0 (tick_last_close current_tick)
           && negb (Matcher.check_limit_price (ord_symbol order) base_price
                      (tick_last_close current_tick))
        then
          match ord_side order with
          | BUY => (MatchResult_fail "Price at limit up", m)
          | SELL => (MatchResult_fail "Price at limit down", m)
          end
        else if negb (Matcher.check_liquidity (ord_volume order) current_tick
                        (ord_side order))
        then (MatchResult_fail "Insufficient liquidity", m)
        else
          let slippage_rate :=
            if Qltb 0 (ord_slippage_rate order) then ord_slippage_rate order
            else default_slippage_rate_ m in
          let '(filled_price, m) :=
            Matcher.calculate_slippage (ord_side order) base_price
              (ord_volume order) slippage_rate m in
          (MatchResult_fill filled_price (ord_volume order), m)
    end.

End LegacyMatcher.

(** ** limit_queue.cpp *)

Inductive LimitStatus := NORMAL | LIMIT_UP | LIMIT_DOWN.

Record LimitQueue := {
  limit_up_queues_ : gmap string (list SimulatedOrder);
  limit_down_queues_ : gmap string (list SimulatedOrder)
}.

Module Queue.

Definition new : LimitQueue :=
  {| limit_up_queues_ := ∅; limit_down_queues_ := ∅ |}.

(** [queues[symbol].push_back(order)]: [operator[]] creates the empty
    vector of a symbol that has none. *)
Definition push_back (order : SimulatedOrder)
    (queues : gmap string (list SimulatedOrder)) : gmap string (list SimulatedOrder) :=
  <[ord_symbol order := default [] (queues !! ord_symbol order) ++ [order]]> queues.

Definition add_to_limit_up_queue (order : SimulatedOrder) (q : LimitQueue) : LimitQueue :=
  {| limit_up_queues_ := push_back order (limit_up_queues_ q);
     limit_down_queues_ := limit_down_queues_ q |}.

Definition add_to_limit_down_queue (order : SimulatedOrder) (q : LimitQueue) : LimitQueue :=
  {| limit_up_queues_ := limit_up_queues_ q;
     limit_down_queues_ := push_back order (limit_down_queues_ q) |}.

Definition get_limit_pct (symbol : string) : Q :=
  if Matcher.contains "ST" symbol || Matcher.contains "st" symbol then 0.05%Q
  else if Matcher.starts_with 3 "688" symbol then 0.20%Q
  else if Matcher.starts_with 3 "300" symbol then 0.20%Q
  else if Matcher.first_char_is "8"%char symbol
          || Matcher.first_char_is "4"%char symbol then 0.30%Q
  else 0.10%Q.

(** The limit prices in exact arithmetic.  The machine's values are
    those of [calculate_limit_up_price_double] and
    [calculate_limit_down_price_double] below; the two differ by a cent
    where the exact product lies on a half cent and the double product
    next to it (a close of 4.35 at 10%: 3.915 and 3.92 here, 3.91 on the
    machine). *)
Definition calculate_limit_up_price (symbol : string) (last_close : Q) : Q :=
  let limit_pct := get_limit_pct symbol in
  let limit_up := (last_close * (1 + limit_pct))%Q in
  (inject_Z (std_round (limit_up * 100)) / 100)%Q.

Definition calculate_limit_down_price (symbol : string) (last_close : Q) : Q :=
  let limit_pct := get_limit_pct symbol in
  let limit_down := (last_close * (1 - limit_pct))%Q in
  (inject_Z (std_round (limit_down * 100)) / 100)%Q.

(** [calculate_limit_up_price] and [calculate_limit_down_price] as the
    machine computes them, every operation rounded to binary64: the
    values that the at-limit tests compare the price with. *)
Definition calculate_limit_up_price_double (symbol : string)
    (last_close : Double.double) : Double.double :=
  let limit_pct := Double.of_Q (get_limit_pct symbol) in
  let limit_up := Double.mul last_close (Double.add (Double.of_Z 1) limit_pct) in
  Double.div (Double.round (Double.mul limit_up (Double.of_Z 100))) (Double.of_Z 100).

Definition calculate_limit_down_price_double (symbol : string)
    (last_close : Double.double) : Double.double :=
  let limit_pct := Double.of_Q (get_limit_pct symbol) in
  let limit_down := Double.mul last_close (Double.sub (Double.of_Z 1) limit_pct) in
  Double.div (Double.round (Double.mul limit_down (Double.of_Z 100))) (Double.of_Z 100).

(** [is_at_limit_up]: the guard on [last_close], then
    [std::abs(price - limit_up) < 0.01] on doubles. *)
Definition is_at_limit_up (symbol : string) (price last_close : Q) : bool :=
  if Qle_bool last_close 0 then false
  else
    let limit_up :=
      calculate_limit_up_price_double symbol (Double.of_Q last_close) in
    Double.ltb (Double.abs (Double.sub (Double.of_Q price) limit_up))
      (Double.of_Q 0.01).

Definition is_at_limit_down (symbol : string) (price last_close : Q) : bool :=
  if Qle_bool last_close 0 then false
  else
    let limit_down :=
      calculate_limit_down_price_double symbol (Double.of_Q last_close) in
    Double.ltb (Double.abs (Double.sub (Double.of_Q price) limit_down))
      (Double.of_Q 0.01).

(** The body shared by the two drain methods, on the map of one side and
    with that side's "still at the limit" flag: the orders returned and
    the map left behind. *)
Definition try_fill (symbol : string) (still_at_limit : bool)
    (queues : gmap string (list SimulatedOrder))
  : list SimulatedOrder * gmap string (list SimulatedOrder) :=
  match queues !! symbol with
  | None => ([], queues)
  | Some queue =>
      if bool_decide (queue = []) then ([], queues)
      else if negb still_at_limit then (queue, delete symbol queues)
      else
        let can_fill := Nat.max 1 (length queue / 10) in
        (take can_fill queue, <[symbol := drop can_fill queue]> queues)
  end.

Definition try_fill_limit_up_orders (symbol : string) (tick : Tick) (q : LimitQueue)
  : list SimulatedOrder * LimitQueue :=
  let still_at_limit :=
    is_at_limit_up symbol (tick_last_price tick) (tick_last_close tick) in
  let '(filled_orders, queues) := try_fill symbol still_at_limit (limit_up_queues_ q) in
  (filled_orders,
   {| limit_up_queues_ := queues; limit_down_queues_ := limit_down_queues_ q |}).

Definition try_fill_limit_down_orders (symbol : string) (tick : Tick) (q : LimitQueue)
  : list SimulatedOrder * LimitQueue :=
  let still_at_limit :=
    is_at_limit_down symbol (tick_last_price tick) (tick_last_close tick) in
  let '(filled_orders, queues) := try_fill symbol still_at_limit (limit_down_queues_ q) in
  (filled_orders,
   {| limit_up_queues_ := limit_up_queues_ q; limit_down_queues_ := queues |}).

(** [std::find_if] by order id followed by [erase]: the vector without
    the first order of that id, [None] when it holds none. *)
Fixpoint erase_first (order_id : string) (queue : list SimulatedOrder)
  : option (list SimulatedOrder) :=
  match queue with
  | [] => None
  | order :: queue' =>
      if String.eqb (ord_order_id order) order_id then Some queue'
      else cons order <$> erase_first order_id queue'
  end.

(** One loop of [remove_from_queue] over the entries of a map, in its
    iteration order: the first vector that holds the id loses it. *)
Fixpoint remove_from (order_id : string)
    (entries : list (string * list SimulatedOrder))
    (queues : gmap string (list SimulatedOrder))
  : option (gmap string (list SimulatedOrder)) :=
  match entries with
  | [] => None
  | (symbol, queue) :: entries' =>
      match erase_first order_id queue with
      | Some queue' => Some (<[symbol := queue']> queues)
      | None => remove_from order_id entries' queues
      end
  end.

Definition remove_from_queue (order_id : string) (q : LimitQueue)
  : bool * LimitQueue :=
  match remove_from order_id (map_to_list (limit_up_queues_ q)) (limit_up_queues_ q) with
  | Some queues =>
      (true, {| limit_up_queues_ := queues;
                limit_down_queues_ := limit_down_queues_ q |})
  | None =>
      match remove_from order_id (map_to_list (limit_down_queues_ q))
              (limit_down_queues_ q) with
      | Some queues =>
          (true, {| limit_up_queues_ := limit_up_queues_ q;
                    limit_down_queues_ := queues |})
      | None => (false, q)
      end
  end.

Definition check_limit_status (symbol : string) (current_price last_close : Q)
  : LimitStatus :=
  if Qle_bool last_close 0 then NORMAL
  else if is_at_limit_up symbol current_price last_close then LIMIT_UP
  else if is_at_limit_down symbol current_price last_close then LIMIT_DOWN
  else NORMAL.

Definition clear_all_queues (q : LimitQueue) : LimitQueue :=
  {| limit_up_queues_ := ∅; limit_down_queues_ := ∅ |}.

(** The vector that [find] reaches, empty when the symbol has none. *)
Definition limit_up_queue (symbol : string) (q : LimitQueue) : list SimulatedOrder :=
  default [] (limit_up_queues_ q !! symbol).

Definition limit_down_queue (symbol : string) (q : LimitQueue) : list SimulatedOrder :=
  default [] (limit_down_queues_ q !! symbol).

Definition get_limit_up_queue_size (symbol : string) (q : LimitQueue) : nat :=
  length (limit_up_queue symbol q).

Definition get_limit_down_queue_size (symbol : string) (q : LimitQueue) : nat :=
  length (limit_down_queue symbol q).

End Queue.

(** ** simulated_exchange.cpp *)

Record SimulatedExchange := {
  account_ : SimulationAccount;
  matcher_ : OrderMatcher;
  orders_ : gmap string SimulatedOrder;
  trade_history_ : list TradeRecord;
  current_time_ : Z;
  order_counter_ : Z
}.

Module Exchange.

(** The constructor; [None] when the account constructor throws. *)
Definition new (account_id : string) (initial_capital : Q) (draws : nat -> Q)
  : option SimulatedExchange :=
  a ← Account.new account_id initial_capital;
  Some {| account_ := a; matcher_ := Matcher.new draws; orders_ := ∅;
          trade_history_ := []; current_time_ := 0; order_counter_ := 0 |}.

Definition set_account (ex : SimulatedExchange) (a : SimulationAccount)
  : SimulatedExchange :=
  {| account_ := a; matcher_ := matcher_ ex; orders_ := orders_ ex;
     trade_history_ := trade_history_ ex; current_time_ := current_time_ ex;
     order_counter_ := order_counter_ ex |}.

Definition set_matcher (ex : SimulatedExchange) (m : OrderMatcher)
  : SimulatedExchange :=
  {| account_ := account_ ex; matcher_ := m; orders_ := orders_ ex;
     trade_history_ := trade_history_ ex; current_time_ := current_time_ ex;
     order_counter_ := order_counter_ ex |}.

(** [orders_[id] = order], and the write through a reference into the
    registry. *)
Definition store_order (ex : SimulatedExchange) (id : string) (order : SimulatedOrder)
  : SimulatedExchange :=
  {| account_ := account_ ex; matcher_ := matcher_ ex;
     orders_ := <[id := order]> (orders_ ex);
     trade_history_ := trade_history_ ex; current_time_ := current_time_ ex;
     order_counter_ := order_counter_ ex |}.

Definition with_status (order : SimulatedOrder) (st : OrderStatus) : SimulatedOrder :=
  {| ord_order_id := ord_order_id order; ord_symbol := ord_symbol order;
     ord_side := ord_side order; ord_type := ord_type order;
     ord_price := ord_price order; ord_volume := ord_volume order;
     ord_filled_volume := ord_filled_volume order; ord_status := st;
     ord_submit_time := ord_submit_time order;
     ord_cancel_time := ord_cancel_time order;
     ord_filled_time := ord_filled_time order;
     ord_commission_rate := ord_commission_rate order;
     ord_slippage_rate := ord_slippage_rate order |}.

(** [24 * 3600 * 1000] *)
Definition ms_per_day : Z := 24 * 3600 * 1000.

(** The cash that [submit_order] freezes for a BUY and that
    [cancel_order], [process_fill] and [process_reject] recompute. *)
Definition freeze_amount (order : SimulatedOrder) : Q :=
  let estimate_price :=
    match ord_type order with LIMIT => ord_price order | MARKET => 1000000%Q end in
  (inject_Z (ord_volume order) * estimate_price * 1.003)%Q.

(** [generate_order_id]: the counter is bumped, then
    [ORDER_<ms>_<symbol>_<counter>]. *)
Definition generate_order_id (symbol : string) (ms : Z) (ex : SimulatedExchange)
  : string * SimulatedExchange :=
  let counter := order_counter_ ex + 1 in
  ("ORDER_" +:+ pretty ms +:+ "_" +:+ symbol +:+ "_" +:+ pretty counter,
   {| account_ := account_ ex; matcher_ := matcher_ ex; orders_ := orders_ ex;
      trade_history_ := trade_history_ ex; current_time_ := current_time_ ex;
      order_counter_ := counter |}).

(** [submit_order]; [id_ms] and [now_ms] are the two clock readings. *)
Definition submit_order (order : SimulatedOrder) (id_ms now_ms : Z)
    (ex : SimulatedExchange) : string * SimulatedExchange :=
  let '(id, ex) := generate_order_id (ord_symbol order) id_ms ex in
  let order :=
    {| ord_order_id := id; ord_symbol := ord_symbol order;
       ord_side := ord_side order; ord_type := ord_type order;
       ord_price := ord_price order; ord_volume := ord_volume order;
       ord_filled_volume := 0; ord_status := PENDING;
       ord_submit_time := now_ms;
       ord_cancel_time := ord_cancel_time order;
       ord_filled_time := ord_filled_time order;
       ord_commission_rate := ord_commission_rate order;
       ord_slippage_rate := ord_slippage_rate order |} in
  if ord_volume order <=? 0 then (id, store_order ex id (with_status order REJECTED))
  else if bool_decide (ord_type order = LIMIT) && Qle_bool (ord_price order) 0 then
    (id, store_order ex id (with_status order REJECTED))
  else
    match ord_side order with
    | BUY =>
        let '(ok, a) := Account.freeze_cash (freeze_amount order) (account_ ex) in
        if negb ok then (id, store_order ex id (with_status order REJECTED))
        else (id, store_order (set_account ex a) id order)
    | SELL =>
        let current_date := Z.quot (current_time_ ex) ms_per_day in
        if negb (Account.can_sell (ord_symbol order) (ord_volume order)
                   current_date (account_ ex))
        then (id, store_order ex id (with_status order REJECTED))
        else
          let '(ok, a) :=
            Account.freeze_position (ord_symbol order) (ord_volume order)
              (account_ ex) in
          if negb ok then (id, store_order ex id (with_status order REJECTED))
          else (id, store_order (set_account ex a) id order)
    end.

Definition calculate_commission (side : OrderSide) (filled_price : Q)
    (filled_volume : Z) : Q :=
  let turnover := (filled_price * inject_Z filled_volume)%Q in
  let commission := (turnover * 0.00025)%Q in
  let commission := std_max commission 5%Q in
  let commission :=
    match side with
    | SELL => (commission + turnover * 0.001)%Q
    | BUY => commission
    end in
  (inject_Z (std_round (commission * 100)) / 100)%Q.

(** [process_reject] on the order stored under [id]. *)
Definition process_reject (id : string) (order : SimulatedOrder) (reason : string)
    (ex : SimulatedExchange) : SimulatedExchange :=
  let a :=
    match ord_side order with
    | BUY => Account.unfreeze_cash (freeze_amount order) (account_ ex)
    | SELL =>
        Account.unfreeze_position (ord_symbol order) (ord_volume order) (account_ ex)
    end in
  store_order (set_account ex a) id (with_status order REJECTED).

(** The tail of [process_fill]: the order becomes FILLED and the trade
    record is appended. *)
Definition commit_fill (id : string) (order : SimulatedOrder)
    (match_result : MatchResult) (commission realized_pnl : Q)
    (ex : SimulatedExchange) : SimulatedExchange :=
  let order' :=
    {| ord_order_id := ord_order_id order; ord_symbol := ord_symbol order;
       ord_side := ord_side order; ord_type := ord_type order;
       ord_price := ord_price order; ord_volume := ord_volume order;
       ord_filled_volume := mr_filled_volume match_result;
       ord_status := FILLED;
       ord_submit_time := ord_submit_time order;
       ord_cancel_time := ord_cancel_time order;
       ord_filled_time := current_time_ ex;
       ord_commission_rate := ord_commission_rate order;
       ord_slippage_rate := ord_slippage_rate order |} in
  let trade :=
    {| trade_trade_id :=
         "TRADE_" +:+ pretty (current_time_ ex) +:+ "_"
           +:+ pretty (Z.of_nat (length (trade_history_ ex)) + 1);
       trade_order_id := ord_order_id order;
       trade_symbol := ord_symbol order;
       trade_side := ord_side order;
       trade_price := mr_filled_price match_result;
       trade_volume := mr_filled_volume match_result;
       trade_commission := commission;
       trade_trade_time := current_time_ ex;
       trade_realized_pnl := realized_pnl |} in
  {| account_ := account_ ex; matcher_ := matcher_ ex;
     orders_ := <[id := order']> (orders_ ex);
     trade_history_ := trade_history_ ex ++ [trade];
     current_time_ := current_time_ ex; order_counter_ := order_counter_ ex |}.

(** [process_fill] on the order stored under [id]. *)
Definition process_fill (id : string) (order : SimulatedOrder)
    (match_result : MatchResult) (current_date : Z) (ex : SimulatedExchange)
  : SimulatedExchange :=
  let commission :=
    calculate_commission (ord_side order) (mr_filled_price match_result)
      (mr_filled_volume match_result) in
  match ord_side order with
  | BUY =>
      let actual_cost :=
        (inject_Z (mr_filled_volume match_result) * mr_filled_price match_result
         + commission)%Q in
      let a := Account.unfreeze_cash (freeze_amount order) (account_ ex) in
      let '(ok, a) := Account.freeze_cash actual_cost a in
      if negb ok then
        process_reject id order "Insufficient cash after fill" (set_account ex a)
      else
        let a := Account.unfreeze_cash actual_cost a in
        let '(_, a) :=
          Account.add_position (ord_symbol order) (mr_filled_volume match_result)
            (mr_filled_price match_result) current_date a in
        commit_fill id order match_result commission 0%Q (set_account ex a)
  | SELL =>
      let '(ok, realized_pnl, a) :=
        Account.reduce_position (ord_symbol order) (mr_filled_volume match_result)
          (mr_filled_price match_result) 0%Q (account_ ex) in
      if negb ok then
        process_reject id order "Failed to reduce position" (set_account ex a)
      else
        let '(_, a) := Account.freeze_cash commission a in
        let a := Account.unfreeze_cash commission a in
        let a :=
          Account.unfreeze_position (ord_symbol order)
            (mr_filled_volume match_result) a in
        commit_fill id order match_result commission realized_pnl (set_account ex a)
  end.

(** One turn of the loop of [on_tick], on the registry entry [id]. *)
Definition on_tick_order (tick : Tick) (current_date : Z) (ex : SimulatedExchange)
    (id : string) : SimulatedExchange :=
  match orders_ ex !! id with
  | None => ex
  | Some order =>
      if negb (bool_decide (ord_status order = PENDING)) then ex
      else if negb (String.eqb (ord_symbol order) (tick_symbol tick)) then ex
      else
        let '(result, m) := Matcher.try_match_order order tick true (matcher_ ex) in
        let ex := set_matcher ex m in
        if mr_success result then process_fill id order result current_date ex
        else if negb (Matcher.contains "limit" (mr_reject_reason result))
                && negb (Matcher.contains "price" (mr_reject_reason result))
        then process_reject id order (mr_reject_reason result) ex
        else ex
  end.

(** [on_tick]: the loop visits every entry of the registry once, in the
    iteration order of the hash map, here the order of [map_to_list]. *)
Definition on_tick (tick : Tick) (ex : SimulatedExchange) : SimulatedExchange :=
  let current_time := tick_timestamp tick in
  let current_date := Z.quot current_time ms_per_day in
  let a :=
    Account.update_position_price (tick_symbol tick) (tick_last_price tick)
      (account_ ex) in
  let ex :=
    {| account_ := a; matcher_ := matcher_ ex; orders_ := orders_ ex;
       trade_history_ := trade_history_ ex; current_time_ := current_time;
       order_counter_ := order_counter_ ex |} in
  foldl (on_tick_order tick current_date) ex (map_to_list (orders_ ex)).*1.

Definition cancel_order (order_id : string) (now_ms : Z) (ex : SimulatedExchange)
  : bool * SimulatedExchange :=
  match orders_ ex !! order_id with
  | None => (false, ex)
  | Some order =>
      if negb (bool_decide (ord_status order = PENDING)) then (false, ex)
      else
        let a :=
          match ord_side order with
          | BUY => Account.unfreeze_cash (freeze_amount order) (account_ ex)
          | SELL =>
              Account.unfreeze_position (ord_symbol order) (ord_volume order)
                (account_ ex)
          end in
        let order' :=
          {| ord_order_id := ord_order_id order; ord_symbol := ord_symbol order;
             ord_side := ord_side order; ord_type := ord_type order;
             ord_price := ord_price order; ord_volume := ord_volume order;
             ord_filled_volume := ord_filled_volume order;
             ord_status := CANCELLED;
             ord_submit_time := ord_submit_time order;
             ord_cancel_time := now_ms;
             ord_filled_time := ord_filled_time order;
             ord_commission_rate := ord_commission_rate order;
             ord_slippage_rate := ord_slippage_rate order |} in
        (true, store_order (set_account ex a) order_id order')
  end.

Definition update_daily (current_date : Z) (ex : SimulatedExchange) : SimulatedExchange :=
  set_account ex (Account.update_available_volume current_date (account_ ex)).

Definition get_trade_history (ex : SimulatedExchange) : list TradeRecord :=
  trade_history_ ex.

(** [get_pending_orders()]: the PENDING orders, in the iteration order
    of the registry. *)
Definition get_pending_orders (ex : SimulatedExchange) : list SimulatedOrder :=
  filter (fun order => ord_status order = PENDING) (map_to_list (orders_ ex)).*2.

(** [get_pending_orders(symbol)]. *)
Definition get_pending_orders_of (symbol : string) (ex : SimulatedExchange)
  : list SimulatedOrder :=
  filter (fun order => ord_status order = PENDING /\ ord_symbol order = symbol)
    (map_to_list (orders_ ex)).*2.

End Exchange.

(** The exchange built with the copy of [order_matcher.cpp] under
    [cpp/src/simulation]: [on_tick] is the same loop, the call of
    [matcher_.try_match_order] reaching [LegacyMatcher.try_match_order].
    Every other method is that of [Exchange]. *)
Module LegacyExchange.

Definition on_tick_order (tick : Tick) (current_date : Z) (ex : SimulatedExchange)
    (id : string) : SimulatedExchange :=
  match orders_ ex !! id with
  | None => ex
  | Some order =>
      if negb (bool_decide (ord_status order = PENDING)) then ex
      else if negb (String.eqb (ord_symbol order) (tick_symbol tick)) then ex
      else
        let '(result, m) :=
          LegacyMatcher.try_match_order order tick true (matcher_ ex) in
        let ex := Exchange.set_matcher ex m in
        if mr_success result
        then Exchange.process_fill id order result current_date ex
        else if negb (Matcher.contains "limit" (mr_reject_reason result))
                && negb (Matcher.contains "price" (mr_reject_reason result))
        then Exchange.process_reject id order (mr_reject_reason result) ex
        else ex
  end.

Definition on_tick (tick : Tick) (ex : SimulatedExchange) : SimulatedExchange :=
  let current_time := tick_timestamp tick in
  let current_date := Z.quot current_time Exchange.ms_per_day in
  let a :=
    Account.update_position_price (tick_symbol tick) (tick_last_price tick)
      (account_ ex) in
  let ex :=
    {| account_ := a; matcher_ := matcher_ ex; orders_ := orders_ ex;
       trade_history_ := trade_history_ ex; current_time_ := current_time;
       order_counter_ := order_counter_ ex |} in
  foldl (on_tick_order tick current_date) ex (map_to_list (orders_ ex)).*1.

End LegacyExchange.

(** * Runs of the exchange, invariants and sample inputs *)

(** ** Position invariants *)

(** What every ledger operation keeps of a position: the frozen and the
    sellable volume each lie between zero and the volume held. *)
Definition pos_ok (p : Position) : Prop :=
  0 <= pos_frozen_volume p <= pos_volume p
  /\ 0 <= pos_available_volume p <= pos_volume p.

(** The position invariant as the specification words it. *)
Definition pos_non_negativity (p : Position) : Prop :=
  0 <= pos_frozen_volume p <= pos_volume p
  /\ 0 <= pos_available_volume p <= pos_volume p - pos_frozen_volume p.

Definition positions_ok (a : SimulationAccount) : Prop :=
  map_Forall (fun _ p => pos_ok p) (positions_ a).

Definition positions_non_negativity (a : SimulationAccount) : Prop :=
  map_Forall (fun _ p => pos_non_negativity p) (positions_ a).

(** ** Runs of public operations *)

(** The mutating public operations of [SimulatedExchange]. *)
Inductive Op :=
| OpSubmitOrder (order : SimulatedOrder) (id_ms now_ms : Z)
| OpOnTick (tick : Tick)
| OpCancelOrder (order_id : string) (now_ms : Z)
| OpUpdateDaily (current_date : Z).

Definition step (ex : SimulatedExchange) (op : Op) : SimulatedExchange :=
  match op with
  | OpSubmitOrder order id_ms now_ms => (Exchange.submit_order order id_ms now_ms ex).2
  | OpOnTick tick => Exchange.on_tick tick ex
  | OpCancelOrder order_id now_ms => (Exchange.cancel_order order_id now_ms ex).2
  | OpUpdateDaily current_date => Exchange.update_daily current_date ex
  end.

Definition run (ex : SimulatedExchange) (ops : list Op) : SimulatedExchange :=
  foldl step ex ops.

(** The states an exchange can be in: a freshly constructed one, and
    whatever a public operation makes of a reachable state. *)
Inductive reachable : SimulatedExchange -> Prop :=
| reachable_new account_id initial_capital draws ex :
    Exchange.new account_id initial_capital draws = Some ex -> reachable ex
| reachable_step ex op : reachable ex -> reachable (step ex op).

(** ** Invariants of the trade history and the registry *)

Definition fee_floor (ex : SimulatedExchange) : Prop :=
  Forall (fun tr => (5 <= trade_commission tr)%Q) (trade_history_ ex).

Definition lot_rule (ex : SimulatedExchange) : Prop :=
  map_Forall
    (fun _ o => ord_status o = FILLED -> ord_side o = BUY ->
                Z.rem (ord_filled_volume o) 100 = 0) (orders_ ex)
  /\ Forall (fun tr => trade_side tr = BUY -> Z.rem (trade_volume tr) 100 = 0)
       (trade_history_ ex).

(** ** Sample inputs *)

(** Concrete orders and ticks for the worked examples. *)
Definition sample_order (symbol : string) (side : OrderSide) (type : OrderType)
    (price : Q) (volume : Z) : SimulatedOrder :=
  {| ord_order_id := ""; ord_symbol := symbol; ord_side := side; ord_type := type;
     ord_price := price; ord_volume := volume; ord_filled_volume := 0;
     ord_status := PENDING; ord_submit_time := 0; ord_cancel_time := 0;
     ord_filled_time := 0; ord_commission_rate := 0.00025%Q;
     ord_slippage_rate := 0.0001%Q |}.

Definition sample_tick (symbol : string) (timestamp : Z) (last bid ask : Q)
    (volume : Z) (last_close : Q) : Tick :=
  {| tick_symbol := symbol; tick_timestamp := timestamp; tick_last_price := last;
     tick_bid_price := bid; tick_ask_price := ask; tick_volume := volume;
     tick_last_close := last_close |}.

(** A tick that carries no prices: every number zero. *)
Definition zero_tick : Tick := sample_tick "" 0 0%Q 0%Q 0%Q 0 0%Q.

(** Scenario S4 of the specification: two BUY orders parked at the upper
    limit 11.00 of "600000" (last close 10.00), the 100-lot first. *)
Definition s4_queue : LimitQueue :=
  Queue.add_to_limit_up_queue (sample_order "600000" BUY LIMIT 11%Q 200)
    (Queue.add_to_limit_up_queue (sample_order "600000" BUY LIMIT 11%Q 100) Queue.new).

(** The worked run: an account of 100000 buys 1000 shares of "000001" at
    the limit 10.00, the shares unlock at the next daily update, and a
    SELL of 150 of them is submitted and filled.  Every slippage draw is
    zero. *)
Definition demo_exchange : SimulatedExchange :=
  {| account_ :=
       {| account_id_ := "demo"; initial_capital_ := 100000%Q;
          available_cash_ := 100000%Q; withdrawable_cash_ := 100000%Q;
          frozen_cash_ := 0%Q; today_sell_amount_ := 0%Q; realized_pnl_ := 0%Q;
          positions_ := ∅ |};
     matcher_ := Matcher.new (fun _ => 0%Q);
     orders_ := ∅; trade_history_ := []; current_time_ := 0;
     order_counter_ := 0 |}.

Definition demo_tick : Tick :=
  sample_tick "000001" 0 10%Q 10%Q 10%Q 1000000 10%Q.

Definition demo_buy : list Op :=
  [ OpSubmitOrder (sample_order "000001" BUY LIMIT 10%Q 1000) 5 5;
    OpOnTick demo_tick ].

Definition demo_sell_150_submitted : list Op :=
  demo_buy ++
  [ OpUpdateDaily 1;
    OpSubmitOrder (sample_order "000001" SELL LIMIT 10%Q 150) 6 6 ].

Definition demo_sell_150_filled : list Op :=
  demo_sell_150_submitted ++ [ OpOnTick demo_tick ].

(** A BUY at the limit price 11.50 of "600000" while the previous close
    is 10.00: above the upper limit 11.00. *)
Definition limit_up_order : SimulatedOrder :=
  sample_order "600000" BUY LIMIT 11.5%Q 100.

Definition limit_up_tick : Tick :=
  sample_tick "600000" 0 11%Q 11%Q 11%Q 1000000 10%Q.

(** An order that names its own commission rate, one in a thousand. *)
Definition high_rate_order : SimulatedOrder :=
  {| ord_order_id := ""; ord_symbol := "000001"; ord_side := BUY;
     ord_type := LIMIT; ord_price := 10%Q; ord_volume := 1000;
     ord_filled_volume := 0; ord_status := PENDING; ord_submit_time := 0;
     ord_cancel_time := 0; ord_filled_time := 0;
     ord_commission_rate := 0.001%Q; ord_slippage_rate := 0.0001%Q |}.

(** ** Further invariants, repeated calls and sample inputs *)

(** Both cash buckets are non-negative. *)
Definition cash_ok (a : SimulationAccount) : Prop :=
  (0 <= available_cash_ a)%Q /\ (0 <= frozen_cash_ a)%Q.

(** From [a] to [a'] the cash in the two buckets together has not shrunk
    and non-negative buckets have stayed so. *)
Definition cash_grows (a a' : SimulationAccount) : Prop :=
  (cash_ok a -> cash_ok a')
  /\ (available_cash_ a + frozen_cash_ a <= available_cash_ a' + frozen_cash_ a')%Q.

(** [try_fill_limit_up_orders] called once per tick of a list, the
    returned orders collected in call order. *)
Definition drain_limit_up (symbol : string) (ticks : list Tick) (q : LimitQueue)
  : list SimulatedOrder * LimitQueue :=
  foldl (fun acc tick =>
           let r := Queue.try_fill_limit_up_orders symbol tick acc.2 in
           (acc.1 ++ r.1, r.2))
    ([], q) ticks.

Definition drain_limit_down (symbol : string) (ticks : list Tick) (q : LimitQueue)
  : list SimulatedOrder * LimitQueue :=
  foldl (fun acc tick =>
           let r := Queue.try_fill_limit_down_orders symbol tick acc.2 in
           (acc.1 ++ r.1, r.2))
    ([], q) ticks.

(** A held position of 1000 unlocked shares of "000001" at a cost of
    10.00, bought on day 0, and the account of the worked run holding
    it. *)
Definition demo_position : Position :=
  {| pos_symbol := "000001"; pos_volume := 1000; pos_available_volume := 1000;
     pos_frozen_volume := 0; pos_avg_cost := 10%Q; pos_current_price := 10%Q;
     pos_market_value := 10000%Q; pos_unrealized_pnl := 0%Q; pos_buy_date := 0 |}.

Definition demo_holder : SimulationAccount :=
  Account.set_positions (account_ demo_exchange) {[ "000001" := demo_position ]}.

(** The characters of a string, none of which is an underscore. *)
Fixpoint underscore_free (s : string) : Prop :=
  match s with
  | EmptyString => True
  | String c s' => c <> "_"%char /\ underscore_free s'
  end.

(** The order and the trade record that [commit_fill] writes. *)
Definition filled_order (order : SimulatedOrder) (match_result : MatchResult)
    (now : Z) : SimulatedOrder :=
  {| ord_order_id := ord_order_id order; ord_symbol := ord_symbol order;
     ord_side := ord_side order; ord_type := ord_type order;
     ord_price := ord_price order; ord_volume := ord_volume order;
     ord_filled_volume := mr_filled_volume match_result;
     ord_status := FILLED;
     ord_submit_time := ord_submit_time order;
     ord_cancel_time := ord_cancel_time order;
     ord_filled_time := now;
     ord_commission_rate := ord_commission_rate order;
     ord_slippage_rate := ord_slippage_rate order |}.

(** The order that [cancel_order] writes. *)
Definition cancelled_order (order : SimulatedOrder) (now_ms : Z) : SimulatedOrder :=
  {| ord_order_id := ord_order_id order; ord_symbol := ord_symbol order;
     ord_side := ord_side order; ord_type := ord_type order;
     ord_price := ord_price order; ord_volume := ord_volume order;
     ord_filled_volume := ord_filled_volume order;
     ord_status := CANCELLED;
     ord_submit_time := ord_submit_time order;
     ord_cancel_time := now_ms;
     ord_filled_time := ord_filled_time order;
     ord_commission_rate := ord_commission_rate order;
     ord_slippage_rate := ord_slippage_rate order |}.

(** The id that [generate_order_id] would give next ends in the counter
    [k]. *)
Definition id_counter_is (id : string) (k : Z) : Prop :=
  exists prefix, id = prefix +:+ "_" +:+ pretty k.

(** Every id of the registry ends in a counter value already used. *)
Definition ids_ok (ex : SimulatedExchange) : Prop :=
  Z.of_nat (size (orders_ ex)) = order_counter_ ex
  /\ map_Forall
       (fun id order =>
          ord_order_id order = id
          /\ exists k, id_counter_is id k /\ 1 <= k <= order_counter_ ex)
       (orders_ ex).

(** A stored order is never partially filled: its filled volume is its
    volume when it is FILLED and zero otherwise; unless it was rejected,
    its volume is positive and so is the price of a LIMIT order. *)
Definition order_ok (o : SimulatedOrder) : Prop :=
  ord_status o <> PARTIAL_FILLED
  /\ (ord_status o = FILLED -> ord_filled_volume o = ord_volume o)
  /\ (ord_status o <> FILLED -> ord_filled_volume o = 0)
  /\ (ord_status o <> REJECTED ->
      0 < ord_volume o /\ (ord_type o = LIMIT -> (0 < ord_price o)%Q)).

(** The trade record [tr] is the fill of the order [o]. *)
Definition trade_of (tr : TradeRecord) (o : SimulatedOrder) : Prop :=
  ord_status o = FILLED
  /\ trade_symbol tr = ord_symbol o /\ trade_side tr = ord_side o
  /\ trade_volume tr = ord_volume o
  /\ trade_trade_time tr = ord_filled_time o.

(** Trades and FILLED orders correspond one to one. *)
Definition trades_ok (ex : SimulatedExchange) : Prop :=
  Forall (fun tr => exists o, orders_ ex !! trade_order_id tr = Some o /\ trade_of tr o)
    (trade_history_ ex)
  /\ NoDup (trade_order_id <$> trade_history_ ex)
  /\ map_Forall
       (fun id o =>
          ord_status o = FILLED -> id ∈ trade_order_id <$> trade_history_ ex)
       (orders_ ex).

Definition registry_inv (ex : SimulatedExchange) : Prop :=
  ids_ok ex /\ map_Forall (fun _ o => order_ok o) (orders_ ex) /\ trades_ok ex.

(** The reasons of the matcher on which [on_tick] leaves an order
    PENDING: they contain "limit" or "price". *)
Definition waiting_reasons : list string :=
  [ "Buy limit price too low"; "Sell limit price too high";
    "Price at limit up - queuing"; "Price at limit down - queuing" ].

(** A position stored under [symbol] carries that symbol and a positive
    volume; its average cost and current price are whole cents; its
    market value and unrealized profit are the rounded products of its
    volume with them. *)
Definition position_valued (symbol : string) (pos : Position) : Prop :=
  pos_symbol pos = symbol
  /\ 0 < pos_volume pos
  /\ round_to_cent (pos_avg_cost pos) == pos_avg_cost pos
  /\ round_to_cent (pos_current_price pos) == pos_current_price pos
  /\ pos_market_value pos
     == round_to_cent (inject_Z (pos_volume pos) * pos_current_price pos)
  /\ pos_unrealized_pnl pos
     == round_to_cent
          (pos_market_value pos - inject_Z (pos_volume pos) * pos_avg_cost pos).

Definition positions_valued (a : SimulationAccount) : Prop :=
  map_Forall position_valued (positions_ a).

(** The ledger operation from [a] to [a'] keeps the positions valued. *)
Definition keeps_valued (a a' : SimulationAccount) : Prop :=
  positions_valued a -> positions_valued a'.

(** * Properties *)

Example get_limit_pct_examples :
  Matcher.get_limit_pct "600000" = 0.10%Q /\ Matcher.get_limit_pct "688001" = 0.20%Q
  /\ Matcher.get_limit_pct "ST600" = 0.05%Q /\ Matcher.get_limit_pct "830001" = 0.30%Q.
Proof. repeat split; reflexivity. Qed.

(** ** Arithmetic of the money helpers *)

Lemma Qltb_true a b : Qltb a b = true <-> (a < b)%Q.
Proof.
  unfold Qltb. rewrite negb_true_iff. split.
  - intros H. apply Qnot_le_lt. intros Hle.
    apply Qle_bool_iff in Hle. congruence.
  - intros H. destruct (Qle_bool b a) eqn:E; [|reflexivity].
    apply Qle_bool_iff in E. lra.
Qed.

Lemma Qltb_false a b : Qltb a b = false <-> (b <= a)%Q.
Proof.
  unfold Qltb. rewrite negb_false_iff. apply Qle_bool_iff.
Qed.

Lemma Qle_bool_false a b : Qle_bool a b = false <-> (b < a)%Q.
Proof.
  split.
  - intros H. apply Qnot_le_lt. intros Hle. apply Qle_bool_iff in Hle. congruence.
  - intros H. destruct (Qle_bool a b) eqn:E; [|reflexivity].
    apply Qle_bool_iff in E. lra.
Qed.

Lemma std_min_le_r a b : (std_min a b <= b)%Q.
Proof.
  unfold std_min. destruct (Qltb b a) eqn:E; [lra|].
  apply Qltb_false in E. exact E.
Qed.

Lemma std_max_ge_r a b : (b <= std_max a b)%Q.
Proof.
  unfold std_max. destruct (Qltb a b) eqn:E; [lra|].
  apply Qltb_false in E. exact E.
Qed.

Lemma std_maxZ_spec a b : std_maxZ a b = Z.max a b.
Proof. unfold std_maxZ. destruct (Z.ltb_spec a b); lia. Qed.

(** Rounding to cents never takes an amount of five yuan or more below
    five yuan. *)
Lemma round_to_cent_ge_5 x : (5 <= x)%Q -> (5 <= round_to_cent x)%Q.
Proof.
  intros Hx. unfold round_to_cent, std_round.
  assert (H0 : (0 <= x * 100)%Q) by lra.
  apply Qle_bool_iff in H0. rewrite H0.
  assert (Hz : 500 <= Qfloor (x * 100 + (1 # 2))).
  { change 500 with (Qfloor (inject_Z 500)) at 1.
    apply Qfloor_resp_le.
    change (inject_Z 500) with (500 # 1)%Q. lra. }
  apply Qle_shift_div_l; [reflexivity|].
  rewrite Zle_Qle in Hz.
  eapply Qle_trans; [|exact Hz].
  unfold Qle; simpl; lia.
Qed.

Example round_to_cent_examples :
  round_to_cent 5.002%Q == 5%Q /\ round_to_cent 6.002%Q == 6%Q
  /\ round_to_cent 0.125%Q == 0.13%Q /\ round_to_cent (-0.125)%Q == (-0.13)%Q.
Proof. repeat split; reflexivity. Qed.

(** ** The ledger *)

Lemma pos_non_negativity_ok p : pos_non_negativity p -> pos_ok p.
Proof. unfold pos_non_negativity, pos_ok. lia. Qed.

Section LedgerFrames.
  Implicit Types (a : SimulationAccount) (symbol : string) (volume d : Z).

Lemma freeze_cash_frame amount a :
    let a' := (Account.freeze_cash amount a).2 in
    withdrawable_cash_ a' = withdrawable_cash_ a /\ positions_ a' = positions_ a.
  Proof. unfold Account.freeze_cash. repeat case_match; simpl; auto. Qed.

Lemma unfreeze_cash_frame amount a :
    let a' := Account.unfreeze_cash amount a in
    withdrawable_cash_ a' = withdrawable_cash_ a /\ positions_ a' = positions_ a.
  Proof. unfold Account.unfreeze_cash. repeat case_match; simpl; auto. Qed.

Lemma add_position_withdrawable symbol volume price d a :
    withdrawable_cash_ (Account.add_position symbol volume price d a).2
    = withdrawable_cash_ a.
  Proof. unfold Account.add_position. repeat case_match; reflexivity. Qed.

Lemma reduce_position_withdrawable symbol volume price pnl a :
    withdrawable_cash_ (Account.reduce_position symbol volume price pnl a).2
    = withdrawable_cash_ a.
  Proof. unfold Account.reduce_position. repeat case_match; reflexivity. Qed.

Lemma freeze_position_withdrawable symbol volume a :
    withdrawable_cash_ (Account.freeze_position symbol volume a).2
    = withdrawable_cash_ a.
  Proof. unfold Account.freeze_position. repeat case_match; reflexivity. Qed.

Lemma unfreeze_position_withdrawable symbol volume a :
    withdrawable_cash_ (Account.unfreeze_position symbol volume a)
    = withdrawable_cash_ a.
  Proof. unfold Account.unfreeze_position. repeat case_match; reflexivity. Qed.

Lemma update_position_price_withdrawable symbol price a :
    withdrawable_cash_ (Account.update_position_price symbol price a)
    = withdrawable_cash_ a.
  Proof. unfold Account.update_position_price. repeat case_match; reflexivity. Qed.

Lemma update_available_volume_withdrawable d a :
    withdrawable_cash_ (Account.update_available_volume d a) = withdrawable_cash_ a.
  Proof. reflexivity. Qed.
End LedgerFrames.

Section LedgerPositions.
  Implicit Types (a : SimulationAccount) (symbol : string) (volume d : Z).

Lemma unlock_ok d p : pos_ok p -> pos_ok (Account.unlock d p).
  Proof.
    unfold Account.unlock, pos_ok. case_match; simpl; lia.
  Qed.

Lemma freeze_cash_ok amount a :
    positions_ok a -> positions_ok (Account.freeze_cash amount a).2.
  Proof.
    unfold positions_ok. destruct (freeze_cash_frame amount a) as [_ ->]. auto.
  Qed.

Lemma unfreeze_cash_ok amount a :
    positions_ok a -> positions_ok (Account.unfreeze_cash amount a).
  Proof.
    unfold positions_ok. destruct (unfreeze_cash_frame amount a) as [_ ->]. auto.
  Qed.

Lemma add_position_ok symbol volume price d a :
    positions_ok a -> positions_ok (Account.add_position symbol volume price d a).2.
  Proof.
    unfold positions_ok, Account.add_position. intros Hok.
    destruct (String.eqb symbol ""); [exact Hok|].
    destruct (_ || _) eqn:Hguard; [exact Hok|].
    apply orb_false_iff in Hguard as [Hvol _]. apply Z.leb_gt in Hvol.
    repeat case_match; simpl; try exact Hok.
    - apply map_Forall_insert_2; [|exact Hok].
      match goal with H : _ !! _ = Some _ |- _ => apply Hok in H as [? ?] end.
      unfold pos_ok; simpl; lia.
    - apply map_Forall_insert_2; [|exact Hok].
      unfold pos_ok; simpl; lia.
  Qed.

Lemma freeze_position_ok symbol volume a :
    positions_ok a -> positions_ok (Account.freeze_position symbol volume a).2.
  Proof.
    unfold positions_ok, Account.freeze_position. intros Hok.
    destruct (Z.leb_spec volume 0); [exact Hok|].
    destruct (positions_ a !! symbol) as [pos|] eqn:Hpos; [|exact Hok].
    destruct (Z.ltb_spec (pos_volume pos - pos_frozen_volume pos) volume);
      [exact Hok|].
    simpl. apply map_Forall_insert_2; [|exact Hok].
    apply Hok in Hpos as [? ?]. unfold pos_ok; simpl; lia.
  Qed.

Lemma unfreeze_position_ok symbol volume a :
    positions_ok a -> positions_ok (Account.unfreeze_position symbol volume a).
  Proof.
    unfold positions_ok, Account.unfreeze_position. intros Hok.
    destruct (Z.leb_spec volume 0); [exact Hok|].
    destruct (positions_ a !! symbol) as [pos|] eqn:Hpos; [|exact Hok].
    simpl. apply map_Forall_insert_2; [|exact Hok].
    apply Hok in Hpos as [? ?]. unfold pos_ok; simpl.
    rewrite std_maxZ_spec. lia.
  Qed.

Lemma update_position_price_ok symbol price a :
    positions_ok a -> positions_ok (Account.update_position_price symbol price a).
  Proof.
    unfold positions_ok, Account.update_position_price. intros Hok.
    destruct (positions_ a !! symbol) as [pos|] eqn:Hpos; [|exact Hok].
    simpl. apply map_Forall_insert_2; [|exact Hok].
    apply Hok in Hpos. exact Hpos.
  Qed.

Lemma update_available_volume_ok d a :
    positions_ok a -> positions_ok (Account.update_available_volume d a).
  Proof.
    unfold positions_ok. simpl. intros Hok.
    apply map_Forall_fmap. eapply map_Forall_impl; [exact Hok|].
    intros ? p. apply unlock_ok.
  Qed.

Lemma daily_settlement_ok d a :
    positions_ok a -> positions_ok (Account.daily_settlement d a).
  Proof.
    unfold positions_ok. simpl. intros Hok.
    apply map_Forall_fmap. eapply map_Forall_impl; [exact Hok|].
    intros ? p. apply unlock_ok.
  Qed.

  (** [reduce_position] lowers the volume and leaves the frozen volume to
      the caller; [process_fill] releases the same volume right after. *)
Lemma reduce_then_unfreeze_ok symbol volume price pnl a :
    positions_ok a ->
    positions_ok
      (Account.unfreeze_position symbol volume
         (Account.reduce_position symbol volume price pnl a).2).
  Proof.
    intros Hok. unfold Account.reduce_position.
    destruct (_ || _) eqn:Hguard; [apply unfreeze_position_ok, Hok|].
    apply orb_false_iff in Hguard as [Hvol _]. apply Z.leb_gt in Hvol.
    destruct (positions_ a !! symbol) as [pos|] eqn:Hpos;
      [|apply unfreeze_position_ok, Hok].
    destruct (Z.ltb_spec (pos_volume pos) volume);
      [apply unfreeze_position_ok, Hok|].
    pose proof (Hok _ _ Hpos) as [? ?].
    unfold positions_ok, Account.unfreeze_position.
    destruct (Z.leb_spec volume 0); [lia|].
    simpl. destruct (Z.eqb_spec (pos_volume pos - volume) 0).
    - rewrite lookup_delete_eq. simpl. apply map_Forall_delete, Hok.
    - rewrite lookup_insert_eq. simpl.
      rewrite insert_insert_eq.
      apply map_Forall_insert_2; [|exact Hok].
      unfold pos_ok; simpl. rewrite !std_maxZ_spec. lia.
  Qed.
End LedgerPositions.

Lemma unlock_fields d p :
  pos_volume (Account.unlock d p) = pos_volume p
  /\ pos_frozen_volume (Account.unlock d p) = pos_frozen_volume p
  /\ pos_buy_date (Account.unlock d p) = pos_buy_date p.
Proof. unfold Account.unlock. case_match; auto. Qed.

Lemma unlock_available d p :
  pos_buy_date p < d ->
  pos_available_volume (Account.unlock d p) = pos_volume p - pos_frozen_volume p.
Proof.
  intros Hlt. unfold Account.unlock.
  destruct (Z.ltb_spec (pos_buy_date p) d); [reflexivity|lia].
Qed.

(** C6.  For every date [d], right after [daily_settlement(d)]:
    [withdrawable_cash] equals [available_cash], [today_sell_amount] is
    zero, [frozen_cash] is what it was, and every position bought
    strictly before [d] has [available_volume = volume - frozen_volume].
    The positions are those held before, with the volume, the frozen
    volume and the buy date they had. *)
Theorem daily_settlement_spec (d : Z) (a : SimulationAccount) :
  let a' := Account.daily_settlement d a in
  withdrawable_cash_ a' = available_cash_ a'
  /\ available_cash_ a' = available_cash_ a
  /\ today_sell_amount_ a' = 0%Q
  /\ frozen_cash_ a' = frozen_cash_ a
  /\ (forall symbol p, positions_ a' !! symbol = Some p -> pos_buy_date p < d ->
        pos_available_volume p = pos_volume p - pos_frozen_volume p)
  /\ (forall symbol p, positions_ a !! symbol = Some p ->
        exists p', positions_ a' !! symbol = Some p'
          /\ pos_volume p' = pos_volume p
          /\ pos_frozen_volume p' = pos_frozen_volume p
          /\ pos_buy_date p' = pos_buy_date p).
Proof.
  simpl. repeat split.
  - intros symbol p Hp Hlt.
    rewrite lookup_fmap in Hp.
    destruct (positions_ a !! symbol) as [p0|]; simpl in Hp; [|discriminate].
    injection Hp as <-.
    destruct (unlock_fields d p0) as (Hv & Hf & Hd).
    rewrite Hd in Hlt. rewrite Hv, Hf. apply unlock_available, Hlt.
  - intros symbol p Hp. exists (Account.unlock d p).
    rewrite lookup_fmap, Hp. simpl. split; [reflexivity|apply unlock_fields].
Qed.

(** ** The limit queue *)

Section LimitQueueDrain.
  Implicit Types (symbol : string) (q : LimitQueue)
    (queues : gmap string (list SimulatedOrder)).

Lemma is_at_limit_up_true symbol price last_close :
    Queue.is_at_limit_up symbol price last_close = true
    <-> (0 < last_close)%Q
        /\ Double.ltb
             (Double.abs
                (Double.sub (Double.of_Q price)
                   (Queue.calculate_limit_up_price_double symbol
                      (Double.of_Q last_close))))
             (Double.of_Q 0.01) = true.
  Proof.
    unfold Queue.is_at_limit_up.
    destruct (Qle_bool last_close 0) eqn:E.
    - apply Qle_bool_iff in E. split; [discriminate|]. intros [H _]. lra.
    - apply Qle_bool_false in E. cbv zeta. tauto.
  Qed.

Lemma is_at_limit_down_true symbol price last_close :
    Queue.is_at_limit_down symbol price last_close = true
    <-> (0 < last_close)%Q
        /\ Double.ltb
             (Double.abs
                (Double.sub (Double.of_Q price)
                   (Queue.calculate_limit_down_price_double symbol
                      (Double.of_Q last_close))))
             (Double.of_Q 0.01) = true.
  Proof.
    unfold Queue.is_at_limit_down.
    destruct (Qle_bool last_close 0) eqn:E.
    - apply Qle_bool_iff in E. split; [discriminate|]. intros [H _]. lra.
    - apply Qle_bool_false in E. cbv zeta. tauto.
  Qed.

  (** The shared drain body on a symbol whose vector is not empty. *)
Lemma try_fill_nonempty symbol still queues :
    let queue := default [] (queues !! symbol) in
    let k := Nat.max 1 (length queue / 10) in
    queue <> [] ->
    let r := Queue.try_fill symbol still queues in
    if still then
      r.1 = take k queue /\ default [] (r.2 !! symbol) = drop k queue
      /\ length r.1 = k /\ length (default [] (r.2 !! symbol)) = (length queue - k)%nat
    else
      r.1 = queue /\ default [] (r.2 !! symbol) = [].
  Proof.
    cbv zeta. unfold Queue.try_fill.
    destruct (queues !! symbol) as [queue|]; cbn -[Nat.div]; [|congruence].
    intros Hne. rewrite bool_decide_eq_false_2 by exact Hne.
    assert (Hk : (Nat.max 1 (length queue / 10) <= length queue)%nat).
    { destruct queue as [|o queue]; [congruence|]. cbn [length].
      apply Nat.max_lub; [lia|].
      apply Nat.Div0.div_le_upper_bound; lia. }
    generalize dependent (Nat.max 1 (length queue / 10)). intros k Hk.
    destruct still; cbn -[Nat.div].
    - rewrite lookup_insert_eq. cbn -[Nat.div].
      rewrite length_take, length_drop. repeat split; lia.
    - rewrite lookup_delete_eq. auto.
  Qed.

  (** Draining never touches the vector of another symbol. *)
Lemma try_fill_other symbol symbol' still queues :
    symbol <> symbol' ->
    (Queue.try_fill symbol still queues).2 !! symbol' = queues !! symbol'.
  Proof.
    intros Hne. unfold Queue.try_fill.
    repeat case_match; simpl; try reflexivity.
    - apply lookup_delete_ne, Hne.
    - apply lookup_insert_ne, Hne.
  Qed.

  (** Orders enter a queue at the back. *)
Lemma push_back_lookup order queues :
    default [] (Queue.push_back order queues !! ord_symbol order)
    = default [] (queues !! ord_symbol order) ++ [order].
  Proof. unfold Queue.push_back. rewrite lookup_insert_eq. reflexivity. Qed.
End LimitQueueDrain.

Example s4_still_at_limit :
  let tick := sample_tick "600000" 1 11%Q 11%Q 11%Q 1000000 10%Q in
  let r := Queue.try_fill_limit_up_orders "600000" tick s4_queue in
  r.1 = [sample_order "600000" BUY LIMIT 11%Q 100]
  /\ Queue.limit_up_queue "600000" r.2 = [sample_order "600000" BUY LIMIT 11%Q 200].
Proof. vm_compute. split; reflexivity. Qed.

Example s4_price_opened :
  let tick := sample_tick "600000" 2 10.5%Q 10.5%Q 10.5%Q 1000000 10%Q in
  let r := Queue.try_fill_limit_up_orders "600000" tick s4_queue in
  r.1 = [sample_order "600000" BUY LIMIT 11%Q 100;
         sample_order "600000" BUY LIMIT 11%Q 200]
  /\ Queue.get_limit_up_queue_size "600000" r.2 = 0%nat.
Proof. vm_compute. split; reflexivity. Qed.

(** A price one cent under the limit, as the doubles decide it.  At a
    close of 10.00 the limit is 11.00 and [|10.99 - 11.00|] comes out
    just under 0.01: the tick is at the limit and one of the two orders
    of S4 is released.  At a close of 1.00 the limit is 1.10 and
    [|1.09 - 1.10|] comes out just over 0.01: the price has left the
    limit and both orders are released. *)
Example s4_one_cent_under_limit :
  let tick := sample_tick "600000" 1 10.99%Q 10.99%Q 10.99%Q 1000000 10%Q in
  let tick' := sample_tick "600000" 1 1.09%Q 1.09%Q 1.09%Q 1000000 1%Q in
  Queue.is_at_limit_up "600000" 10.99%Q 10%Q = true
  /\ length (Queue.try_fill_limit_up_orders "600000" tick s4_queue).1 = 1%nat
  /\ Queue.is_at_limit_up "600000" 1.09%Q 1%Q = false
  /\ length (Queue.try_fill_limit_up_orders "600000" tick' s4_queue).1 = 2%nat.
Proof. vm_compute. repeat split; reflexivity. Qed.

(** The limit-down price of a close of 4.35: the double product
    [4.35 * 0.9 * 100] falls just under 391.5 and rounds to 391. *)
Example limit_down_price_of_4_35 :
  Queue.calculate_limit_down_price_double "600000" (Double.of_Q 4.35%Q)
  = Double.of_Q 3.91%Q
  /\ Queue.calculate_limit_up_price_double "600000" (Double.of_Q 4.35%Q)
     = Double.of_Q 4.79%Q.
Proof. vm_compute. split; reflexivity. Qed.

(** C7, as the claim words it, fails when the tick carries no previous
    close.  With the two orders of S4 queued and the all-zero tick (last
    price 0, last close 0) the last price is within 0.01 of the rounded
    limit price 0.00, in exact arithmetic and in doubles alike, yet
    [is_at_limit_up] answers false on [last_close <= 0] and the drain
    hands out both orders, not [max(1, 2/10) = 1]. *)
Lemma drain_without_last_close_counterexample :
  let symbol := "600000" in
  let tick := zero_tick in
  let n := Queue.get_limit_up_queue_size symbol s4_queue in
  n = 2%nat
  /\ (Qabs (tick_last_price tick
            - Queue.calculate_limit_up_price symbol (tick_last_close tick)) < 0.01)%Q
  /\ Double.ltb
       (Double.abs
          (Double.sub (Double.of_Q (tick_last_price tick))
             (Queue.calculate_limit_up_price_double symbol
                (Double.of_Q (tick_last_close tick)))))
       (Double.of_Q 0.01) = true
  /\ length (Queue.try_fill_limit_up_orders symbol tick s4_queue).1 = 2%nat
  /\ length (Queue.try_fill_limit_up_orders symbol tick s4_queue).1
     <> Nat.max 1 (n / 10).
Proof. vm_compute. repeat split; congruence. Qed.

(** C7, amended.  On a symbol whose limit-up (limit-down) queue holds
    [n > 0] orders, a drain with a tick that has a previous close
    [last_close > 0] and a last price within 0.01 of the rounded limit
    price returns the first [max(1, n/10)] orders of the FIFO and leaves
    the other [n - max(1, n/10)] queued in their order; with any other
    tick (the price has left the limit, or [last_close <= 0]) it returns
    all [n] orders in queue order and leaves the queue empty.  The limit
    price, its rounding to cents and the test [|price - limit| < 0.01]
    are the double-precision operations of the code, so that a price one
    cent from the limit is at the limit or not as the doubles decide.
    Orders enter a queue at the back, so queue order is insertion
    order. *)
Theorem drain_limit_queue (symbol : string) (tick : Tick) (q : LimitQueue) :
  let within_a_cent (price limit : Double.double) :=
    Double.ltb (Double.abs (Double.sub price limit)) (Double.of_Q 0.01) = true in
  let at_up :=
    (0 < tick_last_close tick)%Q
    /\ within_a_cent (Double.of_Q (tick_last_price tick))
         (Queue.calculate_limit_up_price_double symbol
            (Double.of_Q (tick_last_close tick))) in
  let at_down :=
    (0 < tick_last_close tick)%Q
    /\ within_a_cent (Double.of_Q (tick_last_price tick))
         (Queue.calculate_limit_down_price_double symbol
            (Double.of_Q (tick_last_close tick))) in
  let up := Queue.limit_up_queue symbol q in
  let down := Queue.limit_down_queue symbol q in
  let ru := Queue.try_fill_limit_up_orders symbol tick q in
  let rd := Queue.try_fill_limit_down_orders symbol tick q in
  let k (n : nat) := Nat.max 1 (n / 10) in
  (up <> [] ->
     (at_up ->
        ru.1 = take (k (length up)) up
        /\ Queue.limit_up_queue symbol ru.2 = drop (k (length up)) up
        /\ length ru.1 = k (length up)
        /\ Queue.get_limit_up_queue_size symbol ru.2
           = (length up - k (length up))%nat)
     /\ (~ at_up ->
        ru.1 = up /\ Queue.get_limit_up_queue_size symbol ru.2 = 0%nat))
  /\ (down <> [] ->
     (at_down ->
        rd.1 = take (k (length down)) down
        /\ Queue.limit_down_queue symbol rd.2 = drop (k (length down)) down
        /\ length rd.1 = k (length down)
        /\ Queue.get_limit_down_queue_size symbol rd.2
           = (length down - k (length down))%nat)
     /\ (~ at_down ->
        rd.1 = down /\ Queue.get_limit_down_queue_size symbol rd.2 = 0%nat))
  /\ (forall order,
        Queue.limit_up_queue (ord_symbol order)
          (Queue.add_to_limit_up_queue order q)
        = Queue.limit_up_queue (ord_symbol order) q ++ [order]
        /\ Queue.limit_down_queue (ord_symbol order)
             (Queue.add_to_limit_down_queue order q)
           = Queue.limit_down_queue (ord_symbol order) q ++ [order]).
Proof.
  cbv zeta.
  rewrite <- is_at_limit_up_true, <- is_at_limit_down_true.
  unfold Queue.try_fill_limit_up_orders, Queue.try_fill_limit_down_orders,
    Queue.get_limit_up_queue_size, Queue.get_limit_down_queue_size,
    Queue.limit_up_queue, Queue.limit_down_queue.
  split; [|split].
  - intros Hne.
    pose proof (try_fill_nonempty symbol
      (Queue.is_at_limit_up symbol (tick_last_price tick) (tick_last_close tick))
      (limit_up_queues_ q) Hne) as H.
    cbv zeta in H.
    destruct (Queue.try_fill symbol _ (limit_up_queues_ q)) as [out queues].
    cbn [fst snd limit_up_queues_] in *.
    split; intros Hat.
    + rewrite Hat in H. exact H.
    + apply not_true_is_false in Hat. rewrite Hat in H.
      destruct H as [-> ->]. auto.
  - intros Hne.
    pose proof (try_fill_nonempty symbol
      (Queue.is_at_limit_down symbol (tick_last_price tick) (tick_last_close tick))
      (limit_down_queues_ q) Hne) as H.
    cbv zeta in H.
    destruct (Queue.try_fill symbol _ (limit_down_queues_ q)) as [out queues].
    cbn [fst snd limit_down_queues_] in *.
    split; intros Hat.
    + rewrite Hat in H. exact H.
    + apply not_true_is_false in Hat. rewrite Hat in H.
      destruct H as [-> ->]. auto.
  - intros order. split; apply push_back_lookup.
Qed.

(** ** The matcher *)

Section MatcherFacts.
  Implicit Types (order : SimulatedOrder) (tick : Tick) (m : OrderMatcher).

(** A successful match fills the whole order, and only an order whose
    volume passed [validate_order_volume]. *)
Lemma try_match_order_success order tick check m :
  mr_success (Matcher.try_match_order order tick check m).1 = true ->
  mr_filled_volume (Matcher.try_match_order order tick check m).1 = ord_volume order
  /\ 0 < ord_volume order <= 1000000
  /\ (ord_side order = BUY -> Z.rem (ord_volume order) 100 = 0).
Proof.
  unfold Matcher.try_match_order, Matcher.validate_order_volume.
  destruct (Z.leb_spec (ord_volume order) 0); [discriminate|].
  destruct (Z.ltb_spec 1000000 (ord_volume order)); [discriminate|].
  destruct (ord_side order) eqn:Hside; cbn [bool_decide decide_rel andb negb].
  - rewrite bool_decide_eq_true_2 by reflexivity. cbn [andb].
    destruct (Z.eqb_spec (Z.rem (ord_volume order) 100) 0); cbn [negb];
      [|discriminate].
    rewrite bool_decide_eq_false_2 by discriminate. cbn [andb negb].
    intros Hok. repeat split; try lia; try assumption.
    revert Hok. repeat case_match; simpl; try discriminate; reflexivity.
  - rewrite bool_decide_eq_false_2 by discriminate. cbn [andb].
    rewrite bool_decide_eq_true_2 by reflexivity.
    change (0 <? 0) with false. cbn [andb negb].
    intros Hok. repeat split; try lia; try discriminate.
    revert Hok. repeat case_match; simpl; try discriminate; reflexivity.
Qed.

(** The reasons with which the matcher declines an order. *)
Lemma try_match_order_failure order tick check m :
  mr_success (Matcher.try_match_order order tick check m).1 = false ->
  (Matcher.try_match_order order tick check m).2 = m
  /\ mr_reject_reason (Matcher.try_match_order order tick check m).1 ∈
       [ "Order volume must be positive";
         "Order volume exceeds maximum (1,000,000 shares)";
         "Buy volume must be multiple of 100 (lot size)";
         "Sell volume exceeds available volume";
         "Buy limit price too low";
         "Sell limit price too high";
         "Price at limit up - queuing";
         "Price at limit down - queuing";
         "Insufficient liquidity" ].
Proof.
  unfold Matcher.try_match_order, Matcher.validate_order_volume.
  repeat case_match; simpl; try discriminate; intros _;
    (split; [reflexivity|]); set_solver.
Qed.

(** Whether and why the matcher declines does not depend on its random
    state. *)
Lemma try_match_order_failure_indep order tick check m m' :
  mr_success (Matcher.try_match_order order tick check m).1 = false ->
  (Matcher.try_match_order order tick check m').1
  = (Matcher.try_match_order order tick check m).1.
Proof.
  unfold Matcher.try_match_order.
  destruct (Matcher.validate_order_volume _ _ _) as [[] msg]; cbn [negb];
    [|reflexivity].
  destruct (match ord_type order with MARKET => _ | LIMIT => _ end);
    [reflexivity|].
  destruct (_ && _ && _); [destruct (ord_side order); reflexivity|].
  destruct (negb _); [reflexivity|].
  destruct (Matcher.calculate_slippage _ _ _ _ m). discriminate.
Qed.
End MatcherFacts.

(** The lot rule lives in [validate_order_volume]: the matcher declines a
    BUY of 150 shares, and the older copy of the file, which lacks the
    call, would fill it. *)
Example buy_150_matchers :
  let order := sample_order "600000" BUY LIMIT 10%Q 150 in
  let tick := sample_tick "600000" 0 10%Q 10%Q 10%Q 1000000 10%Q in
  (Matcher.try_match_order order tick true (Matcher.new (fun _ => 0%Q))).1
  = MatchResult_fail "Buy volume must be multiple of 100 (lot size)"
  /\ mr_success
       (LegacyMatcher.try_match_order order tick true (Matcher.new (fun _ => 0%Q))).1
     = true.
Proof. split; vm_compute; reflexivity. Qed.

(** ** The exchange: runs of public operations *)

Lemma reachable_run ex ops : reachable ex -> reachable (run ex ops).
Proof.
  revert ex. induction ops as [|op ops IH]; intros ex Hex; [exact Hex|].
  apply IH. apply reachable_step, Hex.
Qed.

(** What every step of a left fold preserves holds of its result: the
    induction behind each invariant of the matching loop. *)
Lemma foldl_preserves {A B} (P : A -> Prop) (f : A -> B -> A) (l : list B) (x : A) :
  (forall x b, P x -> P (f x b)) -> P x -> P (foldl f x l).
Proof.
  intros Hf. revert x. induction l as [|b l IH]; intros x Hx; [exact Hx|].
  simpl. apply IH, Hf, Hx.
Qed.

Lemma new_inv account_id initial_capital draws ex :
  Exchange.new account_id initial_capital draws = Some ex ->
  orders_ ex = ∅ /\ trade_history_ ex = [] /\ positions_ (account_ ex) = ∅
  /\ withdrawable_cash_ (account_ ex) = initial_capital
  /\ available_cash_ (account_ ex) = initial_capital
  /\ frozen_cash_ (account_ ex) = 0%Q.
Proof.
  unfold Exchange.new, Account.new.
  destruct (Qle_bool initial_capital 0); simpl; [discriminate|].
  intros [= <-]. simpl. auto 6.
Qed.

(** ** Fee floor *)

Lemma calculate_commission_buy price volume :
  (5 <= Exchange.calculate_commission BUY price volume)%Q.
Proof.
  unfold Exchange.calculate_commission.
  apply (round_to_cent_ge_5 (std_max _ 5)), std_max_ge_r.
Qed.

Lemma calculate_commission_sell price volume :
  (0 < price)%Q -> 0 < volume ->
  (5 <= Exchange.calculate_commission SELL price volume)%Q.
Proof.
  intros Hp Hv. unfold Exchange.calculate_commission.
  apply (round_to_cent_ge_5 (std_max _ 5 + _)).
  pose proof (std_max_ge_r (price * inject_Z volume * 0.00025) 5) as Hmax.
  assert (0 <= price * inject_Z volume)%Q.
  { apply Qmult_le_0_compat; [lra|].
    change 0%Q with (inject_Z 0). rewrite <- Zle_Qle. lia. }
  lra.
Qed.

Lemma reduce_position_success symbol volume price pnl a :
  (Account.reduce_position symbol volume price pnl a).1.1 = true ->
  0 < volume /\ (0 < price)%Q.
Proof.
  unfold Account.reduce_position.
  destruct (Z.leb_spec volume 0); [discriminate|].
  destruct (Qle_bool price 0) eqn:Hp; [discriminate|].
  apply Qle_bool_false in Hp. auto.
Qed.

Section FeeFloor.
  Implicit Types (ex : SimulatedExchange) (id : string) (order : SimulatedOrder).

Lemma process_reject_trades id order reason ex :
  trade_history_ (Exchange.process_reject id order reason ex) = trade_history_ ex.
Proof. reflexivity. Qed.

Lemma process_fill_fee_floor id order result d ex :
  fee_floor ex -> fee_floor (Exchange.process_fill id order result d ex).
Proof.
  unfold fee_floor, Exchange.process_fill. intros Hex.
  destruct (ord_side order).
  - destruct (Account.freeze_cash _ _) as [[] a]; cbn [negb]; [|exact Hex].
    destruct (Account.add_position _ _ _ _ _) as [? a'].
    cbn [Exchange.commit_fill trade_history_ Exchange.set_account].
    apply Forall_app. split; [exact Hex|].
    apply Forall_singleton. apply calculate_commission_buy.
  - destruct (Account.reduce_position _ _ _ _ _) as [[ok pnl] a] eqn:Hred.
    destruct ok; cbn [negb]; [|exact Hex].
    destruct (Account.freeze_cash _ _) as [? a'].
    cbn [Exchange.commit_fill trade_history_ Exchange.set_account].
    apply Forall_app. split; [exact Hex|].
    apply Forall_singleton. cbn [trade_commission].
    pose proof (reduce_position_success (ord_symbol order)
                  (mr_filled_volume result) (mr_filled_price result) 0%Q
                  (account_ ex)) as Hok.
    rewrite Hred in Hok. destruct (Hok eq_refl).
    apply calculate_commission_sell; assumption.
Qed.

Lemma on_tick_order_fee_floor tick d ex id :
  fee_floor ex -> fee_floor (Exchange.on_tick_order tick d ex id).
Proof.
  unfold Exchange.on_tick_order. intros Hex.
  destruct (orders_ ex !! id) as [order|]; [|exact Hex].
  repeat (case_match; try exact Hex).
  apply process_fill_fee_floor. exact Hex.
Qed.

Lemma step_fee_floor ex op : fee_floor ex -> fee_floor (step ex op).
Proof.
  intros Hex. destruct op as [order id_ms now_ms|tick|order_id now_ms|d]; simpl.
  - unfold Exchange.submit_order, Exchange.generate_order_id.
    repeat case_match; exact Hex.
  - unfold Exchange.on_tick. apply foldl_preserves; [|exact Hex].
    intros. apply on_tick_order_fee_floor. assumption.
  - unfold Exchange.cancel_order. repeat case_match; exact Hex.
  - exact Hex.
Qed.
End FeeFloor.

(** C8.  Every TradeRecord in the trade history of a reachable exchange
    has a commission of at least 5.00. *)
Theorem fee_floor_reachable (ex : SimulatedExchange) :
  reachable ex ->
  forall tr, tr ∈ Exchange.get_trade_history ex -> (5 <= trade_commission tr)%Q.
Proof.
  intros Hex. apply Forall_forall. change (fee_floor ex).
  induction Hex as [account_id initial_capital draws ex Hnew|ex op _ IH].
  - apply new_inv in Hnew as (_ & Htr & _). unfold fee_floor. rewrite Htr.
    constructor.
  - apply step_fee_floor, IH.
Qed.

(** ** Lot rule *)

Section LotRule.
  Implicit Types (ex : SimulatedExchange) (id : string) (order : SimulatedOrder).

Lemma store_order_lot_rule ex id order :
  ord_status order <> FILLED -> lot_rule ex ->
  lot_rule (Exchange.store_order ex id order).
Proof.
  intros Hst [Hord Htr]. split; [|exact Htr].
  apply map_Forall_insert_2; [|exact Hord]. intros Hf. contradiction.
Qed.

Lemma process_reject_lot_rule id order reason ex :
  lot_rule ex -> lot_rule (Exchange.process_reject id order reason ex).
Proof.
  intros Hex. unfold Exchange.process_reject.
  apply store_order_lot_rule; [discriminate|exact Hex].
Qed.

Lemma commit_fill_lot_rule id order result commission pnl ex :
  (ord_side order = BUY -> Z.rem (mr_filled_volume result) 100 = 0) ->
  lot_rule ex ->
  lot_rule (Exchange.commit_fill id order result commission pnl ex).
Proof.
  intros Hlot [Hord Htr]. split.
  - apply map_Forall_insert_2; [|exact Hord]. intros _. exact Hlot.
  - cbn [Exchange.commit_fill trade_history_].
    apply Forall_app. split; [exact Htr|].
    apply Forall_singleton. exact Hlot.
Qed.

Lemma process_fill_lot_rule id order result d ex :
  (ord_side order = BUY -> Z.rem (mr_filled_volume result) 100 = 0) ->
  lot_rule ex -> lot_rule (Exchange.process_fill id order result d ex).
Proof.
  intros Hlot Hex. unfold Exchange.process_fill.
  destruct (ord_side order) eqn:Hside.
  - destruct (Account.freeze_cash _ _) as [[] a]; cbn [negb].
    + destruct (Account.add_position _ _ _ _ _) as [? a'].
      apply commit_fill_lot_rule; [intros _; auto|exact Hex].
    + apply process_reject_lot_rule. exact Hex.
  - destruct (Account.reduce_position _ _ _ _ _) as [[[] pnl] a]; cbn [negb].
    + destruct (Account.freeze_cash _ _) as [? a'].
      apply commit_fill_lot_rule; [congruence|exact Hex].
    + apply process_reject_lot_rule. exact Hex.
Qed.

Lemma on_tick_order_lot_rule tick d ex id :
  lot_rule ex -> lot_rule (Exchange.on_tick_order tick d ex id).
Proof.
  unfold Exchange.on_tick_order. intros Hex.
  destruct (orders_ ex !! id) as [order|]; [|exact Hex].
  destruct (negb (bool_decide _)); [exact Hex|].
  destruct (negb (String.eqb _ _)); [exact Hex|].
  pose proof (try_match_order_success order tick true (matcher_ ex)) as Hok.
  destruct (Matcher.try_match_order order tick true (matcher_ ex)) as [result m].
  cbn [fst] in Hok.
  destruct (mr_success result).
  - destruct (Hok eq_refl) as (Hvol & _ & Hlot).
    apply process_fill_lot_rule; [|exact Hex].
    rewrite Hvol. exact Hlot.
  - destruct (_ && _); [|exact Hex].
    apply process_reject_lot_rule. exact Hex.
Qed.

Lemma step_lot_rule ex op : lot_rule ex -> lot_rule (step ex op).
Proof.
  intros Hex. destruct op as [order id_ms now_ms|tick|order_id now_ms|d]; simpl.
  - unfold Exchange.submit_order, Exchange.generate_order_id.
    repeat case_match; simpl;
      (apply store_order_lot_rule; [discriminate|exact Hex]).
  - unfold Exchange.on_tick. apply foldl_preserves; [|exact Hex].
    intros. apply on_tick_order_lot_rule. assumption.
  - unfold Exchange.cancel_order. repeat case_match; simpl; try exact Hex.
    all: apply store_order_lot_rule; [discriminate|exact Hex].
  - exact Hex.
Qed.

(** The loop turn on a pending BUY of 150 shares for the tick's symbol:
    the matcher declines it on the lot rule, the order is rejected and
    no trade is recorded. *)
Lemma on_tick_order_buy_150 tick d ex id order :
  orders_ ex !! id = Some order ->
  ord_side order = BUY -> ord_volume order = 150 ->
  let ex' := Exchange.on_tick_order tick d ex id in
  trade_history_ ex' = trade_history_ ex
  /\ (ord_status order = PENDING -> ord_symbol order = tick_symbol tick ->
      ord_status <$> orders_ ex' !! id = Some REJECTED).
Proof.
  intros Hid Hside Hvol. cbv zeta. unfold Exchange.on_tick_order. rewrite Hid.
  destruct (bool_decide_reflect (ord_status order = PENDING)) as [Hst|Hst];
    cbn [negb]; [|split; [reflexivity|contradiction]].
  destruct (String.eqb_spec (ord_symbol order) (tick_symbol tick)) as [Hsym|Hsym];
    cbn [negb]; [|split; [reflexivity|contradiction]].
  assert (Hmatch : Matcher.try_match_order order tick true (matcher_ ex)
                   = (MatchResult_fail "Buy volume must be multiple of 100 (lot size)",
                      matcher_ ex)).
  { unfold Matcher.try_match_order. rewrite Hvol, Hside. reflexivity. }
  rewrite Hmatch. cbn [mr_success MatchResult_fail mr_reject_reason].
  change (Matcher.contains "limit" _) with false.
  change (Matcher.contains "price" _) with false.
  cbn [negb andb]. unfold Exchange.process_reject.
  split; [reflexivity|]. intros _ _.
  cbn [Exchange.store_order orders_]. rewrite lookup_insert_eq. reflexivity.
Qed.
End LotRule.

(** ** The worked run *)

Lemma demo_exchange_new :
  Exchange.new "demo" 100000%Q (fun _ => 0%Q) = Some demo_exchange.
Proof. reflexivity. Qed.

Lemma demo_reachable ops : reachable (run demo_exchange ops).
Proof.
  apply reachable_run. eapply reachable_new. exact demo_exchange_new.
Qed.

Example demo_buy_filled :
  let ex := run demo_exchange demo_buy in
  (fun o => (ord_side o, ord_status o, ord_filled_volume o))
    <$> orders_ ex !! "ORDER_5_000001_1" = Some (BUY, FILLED, 1000)
  /\ (fun tr => (trade_side tr, trade_volume tr, trade_order_id tr))
       <$> trade_history_ ex = [(BUY, 1000, "ORDER_5_000001_1")].
Proof. vm_compute. split; reflexivity. Qed.

(** The lot rule on the exchange built with the matcher that calls
    [validate_order_volume] ([Matcher.try_match_order]).  In every
    reachable state of that build a BUY order with status FILLED has a
    [filled_volume] that is a multiple of 100, and so has every BUY
    TradeRecord: none is for 150 shares.  A pending BUY of 150 shares
    that the matching loop visits is rejected without a trade, whereas a
    SELL of 150 shares against an unlocked position of 1000 fills. *)
Theorem lot_rule_reachable (ex : SimulatedExchange) :
  reachable ex ->
  (forall id o, orders_ ex !! id = Some o ->
     ord_status o = FILLED -> ord_side o = BUY ->
     Z.rem (ord_filled_volume o) 100 = 0)
  /\ (forall tr, tr ∈ Exchange.get_trade_history ex -> trade_side tr = BUY ->
        Z.rem (trade_volume tr) 100 = 0 /\ trade_volume tr <> 150)
  /\ (forall tick d id o, orders_ ex !! id = Some o ->
        ord_side o = BUY -> ord_volume o = 150 ->
        let ex' := Exchange.on_tick_order tick d ex id in
        Exchange.get_trade_history ex' = Exchange.get_trade_history ex
        /\ (ord_status o = PENDING -> ord_symbol o = tick_symbol tick ->
            ord_status <$> orders_ ex' !! id = Some REJECTED))
  /\ (let sold := run demo_exchange demo_sell_150_filled in
      (fun o => (ord_side o, ord_volume o, ord_status o, ord_filled_volume o))
        <$> orders_ sold !! "ORDER_6_000001_2" = Some (SELL, 150, FILLED, 150)
      /\ (fun tr => (trade_side tr, trade_volume tr, trade_order_id tr))
           <$> Exchange.get_trade_history sold !! 1%nat
         = Some (SELL, 150, "ORDER_6_000001_2")).
Proof.
  intros Hex.
  assert (Hlot : lot_rule ex).
  { induction Hex as [account_id initial_capital draws ex Hnew|ex op _ IH].
    - apply new_inv in Hnew as (Hord & Htr & _). split.
      + rewrite Hord. apply map_Forall_empty.
      + rewrite Htr. constructor.
    - apply step_lot_rule, IH. }
  destruct Hlot as [Hord Htr].
  split; [|split; [|split]].
  - intros id o Hid. exact (Hord id o Hid).
  - intros tr Hin Hside. rewrite Forall_forall in Htr.
    specialize (Htr tr Hin Hside). split; [exact Htr|].
    intros Heq. rewrite Heq in Htr. discriminate.
  - intros tick d id o. apply on_tick_order_buy_150.
  - vm_compute. split; reflexivity.
Qed.

Lemma lot_rule_reachable_witness :
  (fun o => Z.rem (ord_filled_volume o) 100)
    <$> orders_ (run demo_exchange demo_buy) !! "ORDER_5_000001_1" = Some 0.
Proof.
  destruct (orders_ (run demo_exchange demo_buy) !! "ORDER_5_000001_1")
    as [o|] eqn:Hid; [|vm_compute in Hid; discriminate].
  simpl. f_equal.
  apply (proj1 (lot_rule_reachable (run demo_exchange demo_buy)
                  (demo_reachable demo_buy)) _ o Hid).
  - vm_compute in Hid. injection Hid as <-. reflexivity.
  - vm_compute in Hid. injection Hid as <-. reflexivity.
Defined.

(** A BUY of 150 shares of "000001" at the limit 10.00, submitted to an
    account of 100000 and met by a tick at 10.00. *)
Example buy_150_submitted :
  let ex := run demo_exchange
              [OpSubmitOrder (sample_order "000001" BUY LIMIT 10%Q 150) 5 5] in
  (fun o => (ord_side o, ord_volume o, ord_status o))
    <$> orders_ ex !! "ORDER_5_000001_1" = Some (BUY, 150, PENDING).
Proof. vm_compute. reflexivity. Qed.

(** C5, at a failing input.  The [try_match_order] of
    [cpp/src/simulation/order_matcher.cpp] tests only that the volume is
    positive.  On the exchange built with it, the pending BUY of 150
    shares is filled by the next tick: the order becomes FILLED with
    [filled_volume] 150, not a multiple of 100, and a TradeRecord for 150
    shares is appended.  The matcher that calls [validate_order_volume]
    first rejects the same order on the same tick, and no trade is
    recorded. *)
Theorem legacy_matcher_fills_buy_150 :
  let id := "ORDER_5_000001_1" in
  let ex := run demo_exchange
              [OpSubmitOrder (sample_order "000001" BUY LIMIT 10%Q 150) 5 5] in
  let legacy := LegacyExchange.on_tick demo_tick ex in
  let current := Exchange.on_tick demo_tick ex in
  (fun o => (ord_side o, ord_status o, ord_filled_volume o))
    <$> orders_ legacy !! id = Some (BUY, FILLED, 150)
  /\ (fun tr => (trade_side tr, trade_volume tr, trade_order_id tr))
       <$> trade_history_ legacy = [(BUY, 150, id)]
  /\ Z.rem 150 100 = 50
  /\ (fun o => (ord_side o, ord_status o, ord_filled_volume o))
       <$> orders_ current !! id = Some (BUY, REJECTED, 0)
  /\ trade_history_ current = [].
Proof. vm_compute. repeat split; reflexivity. Qed.

Lemma fee_floor_reachable_witness :
  match Exchange.get_trade_history (run demo_exchange demo_buy) with
  | [tr] => (5 <= trade_commission tr)%Q
  | _ => False
  end.
Proof.
  pose proof (fee_floor_reachable (run demo_exchange demo_buy)
                (demo_reachable demo_buy)) as Hfloor.
  destruct (Exchange.get_trade_history (run demo_exchange demo_buy))
    as [|tr [|tr' trs]] eqn:Htrades; try (vm_compute in Htrades; discriminate).
  apply Hfloor. apply list_elem_of_here.
Defined.

(** ** Position bounds *)

Section PositionBounds.
  Implicit Types (ex : SimulatedExchange) (id : string) (order : SimulatedOrder)
    (a : SimulationAccount).

Lemma unfreeze_position_positions symbol volume a b :
  positions_ a = positions_ b ->
  positions_ (Account.unfreeze_position symbol volume a)
  = positions_ (Account.unfreeze_position symbol volume b).
Proof.
  intros Heq. unfold Account.unfreeze_position. rewrite Heq.
  repeat case_match; simpl; congruence.
Qed.

Lemma reduce_position_failure symbol volume price pnl a :
  (Account.reduce_position symbol volume price pnl a).1.1 = false ->
  (Account.reduce_position symbol volume price pnl a).2 = a.
Proof.
  unfold Account.reduce_position. repeat case_match; simpl; congruence.
Qed.

Lemma process_reject_positions_ok id order reason ex :
  positions_ok (account_ ex) ->
  positions_ok (account_ (Exchange.process_reject id order reason ex)).
Proof.
  intros Hex. unfold Exchange.process_reject. cbn [Exchange.store_order account_
    Exchange.set_account].
  destruct (ord_side order);
    [apply unfreeze_cash_ok|apply unfreeze_position_ok]; exact Hex.
Qed.

Lemma process_fill_positions_ok id order result d ex :
  positions_ok (account_ ex) ->
  positions_ok (account_ (Exchange.process_fill id order result d ex)).
Proof.
  intros Hex. unfold Exchange.process_fill.
  destruct (ord_side order) eqn:Hside.
  - pose proof (freeze_cash_ok
        (inject_Z (mr_filled_volume result) * mr_filled_price result
         + Exchange.calculate_commission BUY (mr_filled_price result)
             (mr_filled_volume result))
        _ (unfreeze_cash_ok (Exchange.freeze_amount order) _ Hex)) as Hfrozen.
    destruct (Account.freeze_cash _ _) as [[] a]; cbn [negb snd] in *.
    + pose proof (add_position_ok (ord_symbol order) (mr_filled_volume result)
                    (mr_filled_price result) d _
                    (unfreeze_cash_ok
                       (inject_Z (mr_filled_volume result) * mr_filled_price result
                        + Exchange.calculate_commission BUY (mr_filled_price result)
                            (mr_filled_volume result)) _ Hfrozen)) as Hadd.
      destruct (Account.add_position _ _ _ _ _) as [? a']. exact Hadd.
    + apply process_reject_positions_ok. exact Hfrozen.
  - pose proof (reduce_then_unfreeze_ok (ord_symbol order)
                  (mr_filled_volume result) (mr_filled_price result) 0%Q _ Hex)
      as Hreduce.
    pose proof (reduce_position_failure (ord_symbol order)
                  (mr_filled_volume result) (mr_filled_price result) 0%Q
                  (account_ ex)) as Hfail.
    destruct (Account.reduce_position _ _ _ _ _) as [[[] pnl] a];
      cbn [negb fst snd] in *.
    + pose proof (freeze_cash_frame
                    (Exchange.calculate_commission SELL (mr_filled_price result)
                       (mr_filled_volume result)) a) as [_ Hfreeze].
      destruct (Account.freeze_cash _ a) as [? a']. cbn [snd] in Hfreeze.
      cbn [Exchange.commit_fill account_ Exchange.set_account].
      unfold positions_ok in *.
      erewrite unfreeze_position_positions; [exact Hreduce|].
      destruct (unfreeze_cash_frame
                  (Exchange.calculate_commission SELL (mr_filled_price result)
                     (mr_filled_volume result)) a') as [_ ->].
      exact Hfreeze.
    + rewrite (Hfail eq_refl). apply process_reject_positions_ok. exact Hex.
Qed.

Lemma on_tick_order_positions_ok tick d ex id :
  positions_ok (account_ ex) ->
  positions_ok (account_ (Exchange.on_tick_order tick d ex id)).
Proof.
  unfold Exchange.on_tick_order. intros Hex.
  destruct (orders_ ex !! id) as [order|]; [|exact Hex].
  destruct (negb (bool_decide _)); [exact Hex|].
  destruct (negb (String.eqb _ _)); [exact Hex|].
  destruct (Matcher.try_match_order order tick true (matcher_ ex)) as [result m].
  destruct (mr_success result).
  - apply process_fill_positions_ok. exact Hex.
  - destruct (_ && _); [|exact Hex].
    apply process_reject_positions_ok. exact Hex.
Qed.

Lemma step_positions_ok ex op :
  positions_ok (account_ ex) -> positions_ok (account_ (step ex op)).
Proof.
  intros Hex. destruct op as [order id_ms now_ms|tick|order_id now_ms|d]; simpl.
  - unfold Exchange.submit_order, Exchange.generate_order_id.
    repeat case_match; simpl in *; subst; try exact Hex.
    + match goal with H : Account.freeze_cash ?x ?a = _ |- _ =>
        pose proof (freeze_cash_ok x a Hex) as Hcash; rewrite H in Hcash end.
      exact Hcash.
    + match goal with H : Account.freeze_position ?s ?v ?a = _ |- _ =>
        pose proof (freeze_position_ok s v a Hex) as Hpos; rewrite H in Hpos end.
      exact Hpos.
  - unfold Exchange.on_tick.
    apply (foldl_preserves (fun ex => positions_ok (account_ ex))).
    + intros. apply on_tick_order_positions_ok. assumption.
    + apply update_position_price_ok. exact Hex.
  - unfold Exchange.cancel_order. repeat case_match; simpl; try exact Hex.
    + apply unfreeze_cash_ok. exact Hex.
    + apply unfreeze_position_ok. exact Hex.
  - apply update_available_volume_ok. exact Hex.
Qed.
End PositionBounds.

(** C4, as the claim words it, fails: [freeze_position] raises
    [frozen_volume] and leaves [available_volume] as it is.  After the
    1000 shares of the worked run are unlocked, submitting the SELL of
    150 leaves the position with volume 1000, frozen 150 and available
    1000, so [available_volume <= volume - frozen_volume] is false in a
    state reached through public operations only. *)
Lemma submit_sell_breaks_non_negativity :
  let ex := run demo_exchange demo_sell_150_submitted in
  reachable ex
  /\ (fun p => (pos_volume p, pos_frozen_volume p, pos_available_volume p))
       <$> positions_ (account_ ex) !! "000001" = Some (1000, 150, 1000)
  /\ ~ positions_non_negativity (account_ ex).
Proof.
  cbv zeta. split; [apply demo_reachable|]. split; [vm_compute; reflexivity|].
  intros Hinv.
  destruct (positions_ (account_ (run demo_exchange demo_sell_150_submitted))
              !! "000001") as [p|] eqn:Hp; [|vm_compute in Hp; discriminate].
  pose proof (Hinv _ _ Hp) as (_ & _ & Hav).
  vm_compute in Hp. injection Hp as <-. simpl in Hav. lia.
Qed.

(** C4, amended.  After every public operation of the exchange
    ([submit_order], [on_tick], [cancel_order], [update_daily]) every
    position of the account has [0 <= frozen_volume <= volume] and
    [0 <= available_volume <= volume].  Every ledger operation keeps
    these bounds as well, [reduce_position] together with the
    [unfreeze_position] of the same symbol and volume that [process_fill]
    issues after it. *)
Theorem position_bounds :
  (forall ex, reachable ex ->
     forall symbol p, positions_ (account_ ex) !! symbol = Some p ->
       0 <= pos_frozen_volume p <= pos_volume p
       /\ 0 <= pos_available_volume p <= pos_volume p)
  /\ (forall ex op, positions_ok (account_ ex) -> positions_ok (account_ (step ex op)))
  /\ (forall a, positions_ok a ->
        (forall amount, positions_ok (Account.freeze_cash amount a).2)
        /\ (forall amount, positions_ok (Account.unfreeze_cash amount a))
        /\ (forall symbol volume price d,
              positions_ok (Account.add_position symbol volume price d a).2)
        /\ (forall symbol volume,
              positions_ok (Account.freeze_position symbol volume a).2)
        /\ (forall symbol volume,
              positions_ok (Account.unfreeze_position symbol volume a))
        /\ (forall symbol price,
              positions_ok (Account.update_position_price symbol price a))
        /\ (forall d, positions_ok (Account.update_available_volume d a))
        /\ (forall d, positions_ok (Account.daily_settlement d a))
        /\ (forall symbol volume price pnl,
              positions_ok
                (Account.unfreeze_position symbol volume
                   (Account.reduce_position symbol volume price pnl a).2))).
Proof.
  split; [|split].
  - intros ex Hex.
    assert (Hok : positions_ok (account_ ex)).
    { induction Hex as [account_id initial_capital draws ex Hnew|ex op _ IH].
      - apply new_inv in Hnew as (_ & _ & Hpos & _).
        unfold positions_ok. rewrite Hpos. apply map_Forall_empty.
      - apply step_positions_ok, IH. }
    intros symbol p Hp. exact (Hok symbol p Hp).
  - intros ex op. apply step_positions_ok.
  - intros a Hok.
    split; [intros; apply freeze_cash_ok, Hok|].
    split; [intros; apply unfreeze_cash_ok, Hok|].
    split; [intros; apply add_position_ok, Hok|].
    split; [intros; apply freeze_position_ok, Hok|].
    split; [intros; apply unfreeze_position_ok, Hok|].
    split; [intros; apply update_position_price_ok, Hok|].
    split; [intros; apply update_available_volume_ok, Hok|].
    split; [intros; apply daily_settlement_ok, Hok|].
    intros; apply reduce_then_unfreeze_ok, Hok.
Qed.

Example demo_position_after_sale :
  (fun p => (pos_volume p, pos_frozen_volume p, pos_available_volume p))
    <$> positions_ (account_ (run demo_exchange demo_sell_150_filled)) !! "000001"
  = Some (850, 0, 850).
Proof. vm_compute. reflexivity. Qed.

(** [reduce_position] on its own lowers the volume under a frozen volume
    it does not touch: the bound [frozen_volume <= volume] is the
    caller's to restore. *)
Example reduce_position_alone :
  let held :=
    {| pos_symbol := "000001"; pos_volume := 1000; pos_available_volume := 1000;
       pos_frozen_volume := 1000; pos_avg_cost := 10%Q; pos_current_price := 10%Q;
       pos_market_value := 10000%Q; pos_unrealized_pnl := 0%Q; pos_buy_date := 0 |} in
  let a := Account.set_positions (account_ demo_exchange) {[ "000001" := held ]} in
  (fun p => (pos_volume p, pos_frozen_volume p))
    <$> positions_ (Account.reduce_position "000001" 500 10%Q 0%Q a).2 !! "000001"
  = Some (500, 1000).
Proof. vm_compute. reflexivity. Qed.

(** ** Withdrawable cash *)

Section WithdrawableFrame.
  Implicit Types (ex : SimulatedExchange) (id : string) (order : SimulatedOrder).

Lemma process_reject_withdrawable id order reason ex :
  withdrawable_cash_ (account_ (Exchange.process_reject id order reason ex))
  = withdrawable_cash_ (account_ ex).
Proof.
  unfold Exchange.process_reject. cbn [Exchange.store_order account_
    Exchange.set_account].
  destruct (ord_side order).
  - apply unfreeze_cash_frame.
  - apply unfreeze_position_withdrawable.
Qed.

Lemma process_fill_withdrawable id order result d ex :
  withdrawable_cash_ (account_ (Exchange.process_fill id order result d ex))
  = withdrawable_cash_ (account_ ex).
Proof.
  unfold Exchange.process_fill.
  destruct (ord_side order).
  - match goal with |- context [Account.freeze_cash ?x ?a] =>
      pose proof (proj1 (freeze_cash_frame x a)) as Hfreeze;
      destruct (Account.freeze_cash x a) as [[] a2] end;
    cbn [negb snd] in *.
    + match goal with |- context [Account.add_position ?s ?v ?p ?d ?a] =>
        pose proof (add_position_withdrawable s v p d a) as Hadd;
        destruct (Account.add_position s v p d a) as [? a4] end.
      cbn [snd Exchange.commit_fill account_ Exchange.set_account] in *.
      rewrite Hadd.
      rewrite (proj1 (unfreeze_cash_frame _ a2)), Hfreeze.
      apply unfreeze_cash_frame.
    + rewrite process_reject_withdrawable. cbn [account_ Exchange.set_account].
      rewrite Hfreeze. apply unfreeze_cash_frame.
  - match goal with |- context [Account.reduce_position ?s ?v ?p ?r ?a] =>
      pose proof (reduce_position_withdrawable s v p r a) as Hreduce;
      destruct (Account.reduce_position s v p r a) as [[[] pnl] a1] end;
    cbn [negb snd] in *.
    + match goal with |- context [Account.freeze_cash ?x ?a] =>
        pose proof (proj1 (freeze_cash_frame x a)) as Hfreeze;
        destruct (Account.freeze_cash x a) as [? a2] end.
      cbn [snd Exchange.commit_fill account_ Exchange.set_account] in *.
      rewrite unfreeze_position_withdrawable.
      rewrite (proj1 (unfreeze_cash_frame _ a2)), Hfreeze. exact Hreduce.
    + rewrite process_reject_withdrawable. exact Hreduce.
Qed.

Lemma on_tick_order_withdrawable tick d ex id :
  withdrawable_cash_ (account_ (Exchange.on_tick_order tick d ex id))
  = withdrawable_cash_ (account_ ex).
Proof.
  unfold Exchange.on_tick_order.
  destruct (orders_ ex !! id) as [order|]; [|reflexivity].
  destruct (negb (bool_decide _)); [reflexivity|].
  destruct (negb (String.eqb _ _)); [reflexivity|].
  destruct (Matcher.try_match_order order tick true (matcher_ ex)) as [result m].
  destruct (mr_success result).
  - rewrite process_fill_withdrawable. reflexivity.
  - destruct (_ && _); [|reflexivity].
    rewrite process_reject_withdrawable. reflexivity.
Qed.

Lemma submit_order_withdrawable order id_ms now_ms ex :
  withdrawable_cash_ (account_ (Exchange.submit_order order id_ms now_ms ex).2)
  = withdrawable_cash_ (account_ ex).
Proof.
  unfold Exchange.submit_order, Exchange.generate_order_id.
  repeat case_match; simpl in *; subst; try reflexivity.
  - match goal with H : Account.freeze_cash ?x ?a = _ |- _ =>
      pose proof (proj1 (freeze_cash_frame x a)) as Hf; rewrite H in Hf end.
    exact Hf.
  - match goal with H : Account.freeze_position ?s ?v ?a = _ |- _ =>
      pose proof (freeze_position_withdrawable s v a) as Hf; rewrite H in Hf end.
    exact Hf.
Qed.

Lemma on_tick_withdrawable tick ex :
  withdrawable_cash_ (account_ (Exchange.on_tick tick ex))
  = withdrawable_cash_ (account_ ex).
Proof.
  unfold Exchange.on_tick.
  apply (foldl_preserves
           (fun ex' => withdrawable_cash_ (account_ ex')
                       = withdrawable_cash_ (account_ ex))).
  - intros ex' id' Hex'. rewrite on_tick_order_withdrawable. exact Hex'.
  - apply update_position_price_withdrawable.
Qed.

Lemma cancel_order_withdrawable order_id now_ms ex :
  withdrawable_cash_ (account_ (Exchange.cancel_order order_id now_ms ex).2)
  = withdrawable_cash_ (account_ ex).
Proof.
  unfold Exchange.cancel_order. repeat case_match; simpl; try reflexivity.
  - apply unfreeze_cash_frame.
  - apply unfreeze_position_withdrawable.
Qed.
End WithdrawableFrame.

(** C10.  [withdrawable_cash] is written by the account constructor,
    which sets it to [initial_capital], and by [daily_settlement], which
    sets it to [available_cash].  No other ledger operation changes it,
    and no operation of the exchange does. *)
Theorem withdrawable_cash_frame :
  (forall account_id initial_capital a,
     Account.new account_id initial_capital = Some a ->
     withdrawable_cash_ a = initial_capital)
  /\ (forall d a,
        withdrawable_cash_ (Account.daily_settlement d a) = available_cash_ a)
  /\ (forall a,
        (forall amount,
           withdrawable_cash_ (Account.freeze_cash amount a).2 = withdrawable_cash_ a)
        /\ (forall amount,
              withdrawable_cash_ (Account.unfreeze_cash amount a)
              = withdrawable_cash_ a)
        /\ (forall symbol volume price d,
              withdrawable_cash_ (Account.add_position symbol volume price d a).2
              = withdrawable_cash_ a)
        /\ (forall symbol volume price pnl,
              withdrawable_cash_ (Account.reduce_position symbol volume price pnl a).2
              = withdrawable_cash_ a)
        /\ (forall symbol volume,
              withdrawable_cash_ (Account.freeze_position symbol volume a).2
              = withdrawable_cash_ a)
        /\ (forall symbol volume,
              withdrawable_cash_ (Account.unfreeze_position symbol volume a)
              = withdrawable_cash_ a)
        /\ (forall symbol price,
              withdrawable_cash_ (Account.update_position_price symbol price a)
              = withdrawable_cash_ a)
        /\ (forall d,
              withdrawable_cash_ (Account.update_available_volume d a)
              = withdrawable_cash_ a))
  /\ (forall ex op,
        withdrawable_cash_ (account_ (step ex op)) = withdrawable_cash_ (account_ ex))
  /\ (forall ex ops,
        withdrawable_cash_ (account_ (run ex ops)) = withdrawable_cash_ (account_ ex)).
Proof.
  assert (Hstep : forall ex op,
            withdrawable_cash_ (account_ (step ex op))
            = withdrawable_cash_ (account_ ex)).
  { intros ex [order id_ms now_ms|tick|order_id now_ms|d]; simpl.
    - apply submit_order_withdrawable.
    - apply on_tick_withdrawable.
    - apply cancel_order_withdrawable.
    - reflexivity. }
  split; [|split; [|split; [|split]]].
  - intros account_id initial_capital a. unfold Account.new.
    destruct (Qle_bool initial_capital 0); [discriminate|].
    intros [= <-]. reflexivity.
  - reflexivity.
  - intros a.
    split; [intros; apply freeze_cash_frame|].
    split; [intros; apply unfreeze_cash_frame|].
    split; [intros; apply add_position_withdrawable|].
    split; [intros; apply reduce_position_withdrawable|].
    split; [intros; apply freeze_position_withdrawable|].
    split; [intros; apply unfreeze_position_withdrawable|].
    split; [intros; apply update_position_price_withdrawable|].
    intros; apply update_available_volume_withdrawable.
  - exact Hstep.
  - intros ex ops. revert ex. induction ops as [|op ops IH]; intros ex;
      [reflexivity|].
    simpl. unfold run in IH. rewrite IH. apply Hstep.
Qed.

(** Scenario S5 of the specification: the BUY of the worked run leaves
    [withdrawable_cash] at 100000. *)
Example withdrawable_cash_demo :
  Qeq (withdrawable_cash_ (account_ (run demo_exchange demo_sell_150_filled)))
      100000%Q.
Proof. vm_compute. reflexivity. Qed.

(** ** The order registry under the matching loop *)

Section RegistryFrame.
  Implicit Types (ex : SimulatedExchange) (id : string) (order : SimulatedOrder).

Lemma set_matcher_same ex : Exchange.set_matcher ex (matcher_ ex) = ex.
Proof. destruct ex. reflexivity. Qed.

Lemma process_reject_other id id' order reason ex :
  id <> id' ->
  orders_ (Exchange.process_reject id' order reason ex) !! id = orders_ ex !! id.
Proof.
  intros Hne. unfold Exchange.process_reject.
  cbn [Exchange.store_order orders_ Exchange.set_account].
  apply lookup_insert_ne. congruence.
Qed.

Lemma process_fill_other id id' order result d ex :
  id <> id' ->
  orders_ (Exchange.process_fill id' order result d ex) !! id = orders_ ex !! id.
Proof.
  intros Hne. unfold Exchange.process_fill.
  destruct (ord_side order).
  - destruct (Account.freeze_cash _ _) as [[] a]; cbn [negb].
    + destruct (Account.add_position _ _ _ _ _) as [? a'].
      cbn [Exchange.commit_fill orders_ Exchange.set_account].
      apply lookup_insert_ne. congruence.
    + rewrite process_reject_other by exact Hne. reflexivity.
  - destruct (Account.reduce_position _ _ _ _ _) as [[[] pnl] a]; cbn [negb].
    + destruct (Account.freeze_cash _ _) as [? a'].
      cbn [Exchange.commit_fill orders_ Exchange.set_account].
      apply lookup_insert_ne. congruence.
    + rewrite process_reject_other by exact Hne. reflexivity.
Qed.

(** A turn of the loop writes to the registry entry it visits and to no
    other. *)
Lemma on_tick_order_other tick d ex id id' :
  id <> id' ->
  orders_ (Exchange.on_tick_order tick d ex id') !! id = orders_ ex !! id.
Proof.
  intros Hne. unfold Exchange.on_tick_order.
  destruct (orders_ ex !! id') as [order|]; [|reflexivity].
  destruct (negb (bool_decide _)); [reflexivity|].
  destruct (negb (String.eqb _ _)); [reflexivity|].
  destruct (Matcher.try_match_order order tick true (matcher_ ex)) as [result m].
  destruct (mr_success result).
  - rewrite process_fill_other by exact Hne. reflexivity.
  - destruct (_ && _); [|reflexivity].
    rewrite process_reject_other by exact Hne. reflexivity.
Qed.

(** A turn of the loop on an order that is not PENDING is a no-op. *)
Lemma on_tick_order_not_pending tick d ex id order :
  orders_ ex !! id = Some order -> ord_status order <> PENDING ->
  Exchange.on_tick_order tick d ex id = ex.
Proof.
  intros Hid Hst. unfold Exchange.on_tick_order. rewrite Hid.
  rewrite bool_decide_eq_false_2 by exact Hst. reflexivity.
Qed.

(** An entry that every turn on it leaves alone survives the whole
    loop. *)
Lemma on_tick_keeps_entry tick ex id order :
  orders_ ex !! id = Some order ->
  (forall d ex', orders_ ex' !! id = Some order ->
     orders_ (Exchange.on_tick_order tick d ex' id) !! id = Some order) ->
  orders_ (Exchange.on_tick tick ex) !! id = Some order.
Proof.
  intros Hid Hturn. unfold Exchange.on_tick.
  apply (foldl_preserves (fun ex' => orders_ ex' !! id = Some order));
    [|exact Hid].
  intros ex' id' Hex'.
  destruct (decide (id = id')) as [<-|Hne].
  - apply Hturn, Hex'.
  - rewrite on_tick_order_other by exact Hne. exact Hex'.
Qed.
End RegistryFrame.

(** C9.  [cancel_order] on an id that is unknown, or whose order is not
    PENDING, returns false and hands back the exchange as it was: orders,
    cash, frozen amounts, positions and trade history.  So does a second
    [cancel_order] on the id of a cancellation that returned true.  An
    order that is not PENDING stays as it is under [on_tick],
    [update_daily], any [cancel_order], and any [submit_order] that
    generates another id. *)
Theorem cancel_order_idempotent (order_id : string) (now_ms : Z)
    (ex : SimulatedExchange) :
  (orders_ ex !! order_id = None -> Exchange.cancel_order order_id now_ms ex = (false, ex))
  /\ (forall order, orders_ ex !! order_id = Some order ->
        ord_status order <> PENDING ->
        Exchange.cancel_order order_id now_ms ex = (false, ex))
  /\ (forall ex' now_ms',
        Exchange.cancel_order order_id now_ms ex = (true, ex') ->
        Exchange.cancel_order order_id now_ms' ex' = (false, ex'))
  /\ (forall order op, orders_ ex !! order_id = Some order ->
        ord_status order <> PENDING ->
        (forall o id_ms now, op = OpSubmitOrder o id_ms now ->
           (Exchange.submit_order o id_ms now ex).1 <> order_id) ->
        orders_ (step ex op) !! order_id = Some order).
Proof.
  assert (Hnot : forall ex0 order now,
            orders_ ex0 !! order_id = Some order -> ord_status order <> PENDING ->
            Exchange.cancel_order order_id now ex0 = (false, ex0)).
  { intros ex0 order now Hid Hst. unfold Exchange.cancel_order. rewrite Hid.
    rewrite bool_decide_eq_false_2 by exact Hst. reflexivity. }
  split; [|split; [|split]].
  - intros Hid. unfold Exchange.cancel_order. rewrite Hid. reflexivity.
  - intros order. apply Hnot.
  - intros ex' now_ms'. unfold Exchange.cancel_order at 1.
    destruct (orders_ ex !! order_id) as [order|]; [|discriminate].
    destruct (negb (bool_decide _)); [discriminate|].
    intros [= <-].
    eapply Hnot.
    + cbn [Exchange.store_order orders_]. apply lookup_insert_eq.
    + discriminate.
  - intros order op Hid Hst Hfresh.
    destruct op as [o id_ms now|tick|order_id' now|d]; simpl.
    + specialize (Hfresh o id_ms now eq_refl). revert Hfresh.
      unfold Exchange.submit_order, Exchange.generate_order_id.
      repeat case_match; simpl; intros Hfresh;
        (rewrite lookup_insert_ne by congruence); exact Hid.
    + apply on_tick_keeps_entry; [exact Hid|].
      intros d ex' Hex'.
      rewrite (on_tick_order_not_pending tick d ex' order_id order Hex' Hst).
      exact Hex'.
    + destruct (decide (order_id' = order_id)) as [->|Hne].
      * rewrite (Hnot ex order now Hid Hst). exact Hid.
      * unfold Exchange.cancel_order. repeat case_match; simpl; try exact Hid.
        all: rewrite lookup_insert_ne by exact Hne; exact Hid.
    + exact Hid.
Qed.

Example cancel_twice_demo :
  let ex := run demo_exchange
              [OpSubmitOrder (sample_order "000001" BUY LIMIT 10%Q 1000) 5 5] in
  let r1 := Exchange.cancel_order "ORDER_5_000001_1" 7 ex in
  let r2 := Exchange.cancel_order "ORDER_5_000001_1" 8 r1.2 in
  r1.1 = true /\ r2 = (false, r1.2)
  /\ ord_status <$> orders_ r1.2 !! "ORDER_5_000001_1" = Some CANCELLED
  /\ Qeq (available_cash_ (account_ r1.2)) 100000%Q
  /\ Exchange.cancel_order "ORDER_0_none_9" 8 ex = (false, ex).
Proof.
  cbv zeta. repeat split; vm_compute; reflexivity.
Qed.

(** ** Orders at the price limit *)

Section PriceLimit.
  Implicit Types (ex : SimulatedExchange) (id : string) (order : SimulatedOrder).

(** A turn of the loop on an order that the matcher declines with a
    "Price at limit" reason changes nothing. *)
Lemma on_tick_order_price_limit tick d ex id order :
  orders_ ex !! id = Some order ->
  ord_status order = PENDING -> ord_symbol order = tick_symbol tick ->
  mr_success (Matcher.try_match_order order tick true (matcher_ ex)).1 = false ->
  String.prefix "Price at limit"
    (mr_reject_reason (Matcher.try_match_order order tick true (matcher_ ex)).1)
  = true ->
  Exchange.on_tick_order tick d ex id = ex.
Proof.
  intros Hid Hst Hsym Hfail Hreason. unfold Exchange.on_tick_order.
  rewrite Hid, bool_decide_eq_true_2 by exact Hst.
  rewrite Hsym, String.eqb_refl. cbn [negb].
  destruct (try_match_order_failure order tick true (matcher_ ex) Hfail)
    as [Hm Hin].
  destruct (Matcher.try_match_order order tick true (matcher_ ex)) as [result m].
  cbn [fst snd] in *. subst m. rewrite Hfail.
  rewrite set_matcher_same.
  assert (Hlimit : Matcher.contains "limit" (mr_reject_reason result) = true).
  { revert Hreason. generalize (mr_reject_reason result) Hin. intros reason.
    rewrite !elem_of_cons, elem_of_nil.
    intros [->|[->|[->|[->|[->|[->|[->|[->|[->|[]]]]]]]]]];
      vm_compute; congruence. }
  rewrite Hlimit. reflexivity.
Qed.
End PriceLimit.

(** What holds of every exchange: during [on_tick], a
    PENDING order for the tick's symbol that the matcher declines with a
    reason beginning "Price at limit" keeps its PENDING status and stays
    in the order registry exactly as it was. *)
Lemma price_limit_order_kept (ex : SimulatedExchange) (tick : Tick) (id : string)
    (order : SimulatedOrder) :
  orders_ ex !! id = Some order ->
  ord_status order = PENDING ->
  ord_symbol order = tick_symbol tick ->
  mr_success (Matcher.try_match_order order tick true (matcher_ ex)).1 = false ->
  String.prefix "Price at limit"
    (mr_reject_reason (Matcher.try_match_order order tick true (matcher_ ex)).1)
  = true ->
  orders_ (Exchange.on_tick tick ex) !! id = Some order.
Proof.
  intros Hid Hst Hsym Hfail Hreason.
  apply on_tick_keeps_entry; [exact Hid|].
  intros d ex' Hex'.
  rewrite (on_tick_order_price_limit tick d ex' id order Hex' Hst Hsym);
    [exact Hex'| |].
  - rewrite (try_match_order_failure_indep order tick true
               (matcher_ ex) (matcher_ ex') Hfail).
    exact Hfail.
  - rewrite (try_match_order_failure_indep order tick true
               (matcher_ ex) (matcher_ ex') Hfail).
    exact Hreason.
Qed.

(** C2, at a failing input.  An account of 100000 submits BUY LIMIT 11.50
    for 100 shares of "600000"; the next tick trades at 11.00 after a
    close of 10.00.  The order is PENDING and for the tick's symbol, and
    the matcher declines it with "Price at limit up - queuing".  [on_tick]
    then returns the exchange as it found it: the order keeps its PENDING
    status, and nothing else is recorded anywhere.  [SimulatedExchange]
    has the members [account_], [matcher_], [orders_], [trade_history_],
    [current_time_] and [order_counter_]; it holds no [LimitQueue], and no
    call of [add_to_limit_up_queue] is made, so the order is in no
    limit-up queue, where the claim has it, and no later drain can hand
    it out. *)
Theorem price_limit_order_left_unqueued :
  let id := "ORDER_5_600000_1" in
  let ex := run demo_exchange [OpSubmitOrder limit_up_order 5 5] in
  let ex' := Exchange.on_tick limit_up_tick ex in
  exists order,
    orders_ ex !! id = Some order
    /\ ord_status order = PENDING /\ ord_side order = BUY
    /\ ord_symbol order = tick_symbol limit_up_tick
    /\ (Matcher.try_match_order order limit_up_tick true (matcher_ ex)).1
       = MatchResult_fail "Price at limit up - queuing"
    /\ orders_ ex' !! id = Some order
    /\ orders_ ex' = orders_ ex
    /\ trade_history_ ex' = trade_history_ ex
    /\ account_ ex' = account_ ex
    /\ order_counter_ ex' = order_counter_ ex.
Proof.
  cbv zeta.
  destruct (orders_ (run demo_exchange [OpSubmitOrder limit_up_order 5 5])
              !! "ORDER_5_600000_1") as [order|] eqn:Hid;
    [|vm_compute in Hid; discriminate].
  exists order. split; [reflexivity|].
  vm_compute in Hid. injection Hid as <-.
  repeat split; vm_compute; reflexivity.
Qed.

(** ** Cash on a BUY fill *)

Section BuyFill.
  Implicit Types (ex : SimulatedExchange) (id : string) (order : SimulatedOrder)
    (a : SimulationAccount).

Lemma unfreeze_cash_frozen_nonneg amount a :
  (0 <= frozen_cash_ a)%Q -> (0 <= frozen_cash_ (Account.unfreeze_cash amount a))%Q.
Proof.
  intros Hf. unfold Account.unfreeze_cash.
  destruct (Qltb amount 0); [exact Hf|]. simpl.
  pose proof (std_min_le_r (round_to_cent amount) (frozen_cash_ a)). lra.
Qed.

Lemma add_position_available_cash symbol volume price d a :
  available_cash_ (Account.add_position symbol volume price d a).2
  = available_cash_ a.
Proof. unfold Account.add_position. repeat case_match; reflexivity. Qed.

(** Freezing an amount and releasing it at once gives the available cash
    back: the pair of calls with which [process_fill] means to deduct the
    cost of a BUY deducts nothing. *)
Lemma freeze_then_unfreeze_cash amount a a' :
  (0 <= frozen_cash_ a)%Q ->
  Account.freeze_cash amount a = (true, a') ->
  Qeq (available_cash_ (Account.unfreeze_cash amount a')) (available_cash_ a)
  /\ Qeq (frozen_cash_ (Account.unfreeze_cash amount a')) (frozen_cash_ a).
Proof.
  intros Hf. unfold Account.freeze_cash, Account.unfreeze_cash.
  destruct (Qltb amount 0); [discriminate|].
  destruct (Qltb (available_cash_ a) (round_to_cent amount)); [discriminate|].
  intros [= <-]. simpl. unfold std_min.
  destruct (Qltb _ _) eqn:Hmin.
  - apply Qltb_true in Hmin. lra.
  - split; ring.
Qed.

(** Whenever a BUY fill commits, [available_cash] ends where the release
    of the estimate left it. *)
Lemma process_fill_buy_available_cash id order result d ex :
  ord_side order = BUY ->
  (0 <= frozen_cash_ (account_ ex))%Q ->
  let released :=
    Account.unfreeze_cash (Exchange.freeze_amount order) (account_ ex) in
  let ex' := Exchange.process_fill id order result d ex in
  ord_status <$> orders_ ex' !! id = Some FILLED ->
  Qeq (available_cash_ (account_ ex')) (available_cash_ released).
Proof.
  intros Hside Hf. cbv zeta. unfold Exchange.process_fill. rewrite Hside.
  pose proof (unfreeze_cash_frozen_nonneg (Exchange.freeze_amount order) _ Hf)
    as Hreleased.
  match goal with |- context [Account.freeze_cash ?x ?a] =>
    pose proof (freeze_then_unfreeze_cash x a) as Hpair;
    destruct (Account.freeze_cash x a) as [[] a2] end; cbn [negb].
  - destruct (Hpair a2 Hreleased eq_refl) as [Hav _].
    match goal with |- context [Account.add_position ?s ?v ?p ?dd ?a] =>
      pose proof (add_position_available_cash s v p dd a) as Hadd;
      destruct (Account.add_position s v p dd a) as [? a4] end.
    cbn [snd Exchange.commit_fill account_ Exchange.set_account] in *.
    intros _. rewrite Hadd. exact Hav.
  - unfold Exchange.process_reject.
    cbn [Exchange.store_order orders_]. rewrite lookup_insert_eq.
    discriminate.
Qed.
End BuyFill.

(** C1 on the worked run.  The BUY of 1000 shares at the limit 10.00 has
    89970 available and 10030 frozen before the tick; releasing the
    estimate makes 100000 available.  The fill commits at 10.00 with a
    commission of 5.00, an actual cost of 10005, and [available_cash] is
    100000 afterwards, not 89995: the cost is frozen and released again,
    never deducted. *)
Theorem buy_fill_does_not_debit :
  let order := sample_order "000001" BUY LIMIT 10%Q 1000 in
  let submitted := run demo_exchange [OpSubmitOrder order 5 5] in
  let released :=
    Account.unfreeze_cash (Exchange.freeze_amount order) (account_ submitted) in
  let filled := step submitted (OpOnTick demo_tick) in
  Qeq (available_cash_ (account_ submitted)) 89970%Q
  /\ Qeq (frozen_cash_ (account_ submitted)) 10030%Q
  /\ Qeq (available_cash_ released) 100000%Q
  /\ (fun tr => (trade_side tr, trade_volume tr, Qred (trade_price tr),
                 Qred (trade_commission tr)))
       <$> Exchange.get_trade_history filled = [(BUY, 1000, 10%Q, 5%Q)]
  /\ ord_status <$> orders_ filled !! "ORDER_5_000001_1" = Some FILLED
  /\ Qeq (available_cash_ (account_ filled)) 100000%Q
  /\ Qeq (frozen_cash_ (account_ filled)) 0%Q
  /\ ~ Qeq (available_cash_ (account_ filled))
           (available_cash_ released - (10 * 1000 + 5))%Q.
Proof.
  cbv zeta. repeat split; try (vm_compute; reflexivity).
  vm_compute. discriminate.
Qed.

(** ** The commission of a fill *)

(** [process_fill] records what [SimulatedExchange::calculate_commission]
    returns: the order's rate and symbol do not enter. *)
Lemma commit_fill_commission id order result commission pnl ex :
  Exchange.get_trade_history
    (Exchange.commit_fill id order result commission pnl ex)
  = Exchange.get_trade_history ex
    ++ [ {| trade_trade_id :=
              "TRADE_" +:+ pretty (current_time_ ex) +:+ "_"
                +:+ pretty (Z.of_nat (length (trade_history_ ex)) + 1);
            trade_order_id := ord_order_id order;
            trade_symbol := ord_symbol order;
            trade_side := ord_side order;
            trade_price := mr_filled_price result;
            trade_volume := mr_filled_volume result;
            trade_commission := commission;
            trade_trade_time := current_time_ ex;
            trade_realized_pnl := pnl |} ].
Proof. reflexivity. Qed.

(** C3 on two fills of 1000 shares at 10.00.  For the Shanghai symbol
    "600000" at the default rate the formula of the specification,
    [calculate_total_commission], gives 5.02 (the floor 5.00 plus the
    transfer fee 0.02) and the trade record carries 5.00.  For "000001"
    with the order's own rate 0.001 the formula gives 10.00 and the
    trade record carries 5.00. *)
Theorem recorded_commission_differs :
  let shanghai := sample_order "600000" BUY LIMIT 10%Q 1000 in
  let shanghai_tick := sample_tick "600000" 0 10%Q 10%Q 10%Q 1000000 10%Q in
  let ex1 := run demo_exchange [OpSubmitOrder shanghai 5 5; OpOnTick shanghai_tick] in
  let ex2 := run demo_exchange [OpSubmitOrder high_rate_order 5 5; OpOnTick demo_tick] in
  ((fun tr => (trade_symbol tr, trade_side tr, trade_volume tr,
               Qred (trade_price tr), Qred (trade_commission tr)))
     <$> Exchange.get_trade_history ex1 = [("600000", BUY, 1000, 10%Q, 5%Q)]
   /\ Qeq (Matcher.calculate_total_commission BUY "600000" 10%Q 1000
             (ord_commission_rate shanghai) (matcher_ ex1)) 5.02%Q)
  /\ ((fun tr => (trade_symbol tr, trade_side tr, trade_volume tr,
                  Qred (trade_price tr), Qred (trade_commission tr)))
        <$> Exchange.get_trade_history ex2 = [("000001", BUY, 1000, 10%Q, 5%Q)]
      /\ Qeq (Matcher.calculate_total_commission BUY "000001" 10%Q 1000
                (ord_commission_rate high_rate_order) (matcher_ ex2)) 10%Q).
Proof.
  cbv zeta. repeat split; vm_compute; reflexivity.
Qed.

(** * Further properties of the simulation core *)

(** ** Rounding to cents *)

Section Rounding.
  Implicit Types (x y : Q).

Lemma std_round_comp x y : x == y -> std_round x = std_round y.
Proof.
  intros Heq. unfold std_round.
  rewrite (Qleb_comp 0%Q 0%Q (Qeq_refl 0%Q) x y Heq).
  destruct (Qle_bool 0 y); [|f_equal]; apply Qfloor_comp; rewrite Heq; reflexivity.
Qed.

Lemma Qfloor_half_nonneg x : (0 <= x)%Q -> 0 <= Qfloor (x + (1 # 2)).
Proof.
  intros Hx. change 0 with (Qfloor (inject_Z 0)). apply Qfloor_resp_le.
  change (inject_Z 0) with 0%Q. lra.
Qed.

Lemma std_round_mono x y : (x <= y)%Q -> std_round x <= std_round y.
Proof.
  intros Hxy. unfold std_round.
  destruct (Qle_bool 0 x) eqn:Hx, (Qle_bool 0 y) eqn:Hy.
  - apply Qfloor_resp_le. lra.
  - apply Qle_bool_iff in Hx. apply Qle_bool_false in Hy. lra.
  - apply Qle_bool_false in Hx. apply Qle_bool_iff in Hy.
    assert (H1 : 0 <= Qfloor (- x + (1 # 2))) by (apply Qfloor_half_nonneg; lra).
    assert (H2 : 0 <= Qfloor (y + (1 # 2))) by (apply Qfloor_half_nonneg; lra).
    lia.
  - apply Qle_bool_false in Hx. apply Qle_bool_false in Hy.
    assert (Qfloor (- y + (1 # 2)) <= Qfloor (- x + (1 # 2)))
      by (apply Qfloor_resp_le; lra).
    lia.
Qed.

Lemma Qfloor_plus_half_Z z : Qfloor (inject_Z z + (1 # 2)) = z.
Proof.
  apply Z.le_antisymm.
  - assert (H : (inject_Z (Qfloor (inject_Z z + (1 # 2))) < inject_Z (z + 1))%Q).
    { eapply Qle_lt_trans; [apply Qfloor_le|].
      rewrite inject_Z_plus. change (inject_Z 1) with 1%Q. lra. }
    rewrite <- Zlt_Qlt in H. lia.
  - rewrite <- (Qfloor_Z z) at 1. apply Qfloor_resp_le. lra.
Qed.

Lemma std_round_Z z : std_round (inject_Z z) = z.
Proof.
  unfold std_round. destruct (Qle_bool 0 (inject_Z z)) eqn:Hz.
  - apply Qfloor_plus_half_Z.
  - rewrite <- inject_Z_opp, Qfloor_plus_half_Z. lia.
Qed.

Lemma std_round_opp x : std_round (- x) = - std_round x.
Proof.
  unfold std_round.
  destruct (Qle_bool 0 x) eqn:Hx, (Qle_bool 0 (- x)) eqn:Hnx.
  - apply Qle_bool_iff in Hx. apply Qle_bool_iff in Hnx.
    assert (Hz : x == inject_Z 0) by (change (inject_Z 0) with 0%Q; lra).
    assert (Hnz : - x == inject_Z 0) by (change (inject_Z 0) with 0%Q; lra).
    rewrite (Qfloor_comp _ _ (Qplus_comp _ _ Hz _ _ (Qeq_refl (1 # 2)))).
    rewrite (Qfloor_comp _ _ (Qplus_comp _ _ Hnz _ _ (Qeq_refl (1 # 2)))).
    rewrite Qfloor_plus_half_Z. reflexivity.
  - f_equal. apply Qfloor_comp. ring.
  - rewrite Z.opp_involutive. reflexivity.
  - apply Qle_bool_false in Hx. apply Qle_bool_false in Hnx. lra.
Qed.

Lemma std_round_near x : (Qabs (inject_Z (std_round x) - x) <= 1 # 2)%Q.
Proof.
  assert (Hfloor : forall t, (Qabs (inject_Z (Qfloor (t + (1 # 2))) - t) <= 1 # 2)%Q).
  { intros t. pose proof (Qfloor_le (t + (1 # 2))) as Hle.
    pose proof (Qlt_floor (t + (1 # 2))) as Hlt.
    rewrite inject_Z_plus in Hlt. change (inject_Z 1) with 1%Q in Hlt.
    apply Qabs_Qle_condition. split; lra. }
  unfold std_round. destruct (Qle_bool 0 x); [apply Hfloor|].
  rewrite inject_Z_opp. specialize (Hfloor (- x)%Q).
  apply Qabs_Qle_condition in Hfloor. apply Qabs_Qle_condition. split; lra.
Qed.

Lemma round_to_cent_mono x y : (x <= y)%Q -> (round_to_cent x <= round_to_cent y)%Q.
Proof.
  intros Hxy. unfold round_to_cent.
  assert (Hz : std_round (x * 100) <= std_round (y * 100))
    by (apply std_round_mono; lra).
  rewrite Zle_Qle in Hz.
  apply Qle_shift_div_l; [reflexivity|].
  eapply Qle_trans; [|exact Hz].
  apply Qle_lteq. right. field.
Qed.

Lemma round_to_cent_comp x y : x == y -> round_to_cent x == round_to_cent y.
Proof.
  intros Heq. unfold round_to_cent.
  rewrite (std_round_comp (x * 100)%Q (y * 100)%Q); [reflexivity|].
  rewrite Heq. reflexivity.
Qed.

(** An amount that is a whole number of cents is its own rounding. *)
Lemma round_to_cent_cents z : round_to_cent (inject_Z z / 100) == inject_Z z / 100.
Proof.
  unfold round_to_cent.
  rewrite (std_round_comp (inject_Z z / 100 * 100)%Q (inject_Z z)).
  - rewrite std_round_Z. reflexivity.
  - field.
Qed.

Lemma round_to_cent_nonneg x : (0 <= x)%Q -> (0 <= round_to_cent x)%Q.
Proof.
  intros Hx. apply round_to_cent_mono in Hx.
  eapply Qle_trans; [|exact Hx]. vm_compute. discriminate.
Qed.

Lemma round_to_cent_idem x : round_to_cent (round_to_cent x) == round_to_cent x.
Proof. unfold round_to_cent at 2 3. apply round_to_cent_cents. Qed.
End Rounding.

(** X1.  [round_to_cent] is monotone, leaves an amount of whole cents as
    it is (so rounding twice is rounding once), moves no amount by more
    than half a cent, and commutes with negation:
    [round_to_cent (- x) = - round_to_cent x].  Nothing is said of which
    way an amount on a half cent goes. *)
Theorem round_to_cent_properties (x y : Q) :
  ((x <= y)%Q -> (round_to_cent x <= round_to_cent y)%Q)
  /\ round_to_cent (round_to_cent x) == round_to_cent x
  /\ (Qabs (round_to_cent x - x) <= 1 # 200)%Q
  /\ round_to_cent (- x) == - round_to_cent x
  /\ (forall z, round_to_cent (inject_Z z / 100) == inject_Z z / 100).
Proof.
  split; [apply round_to_cent_mono|].
  split; [apply round_to_cent_idem|].
  split; [|split; [|apply round_to_cent_cents]].
  - pose proof (std_round_near (x * 100)%Q) as Hnear.
    apply Qabs_Qle_condition in Hnear. apply Qabs_Qle_condition.
    unfold round_to_cent.
    set (r := inject_Z (std_round (x * 100)%Q)) in *.
    assert (Hr : r / 100 == r * (1 # 100)) by (unfold Qdiv; reflexivity).
    rewrite Hr. split; lra.
  - unfold round_to_cent.
    rewrite (std_round_comp (- x * 100)%Q (- (x * 100))%Q) by ring.
    rewrite std_round_opp, inject_Z_opp. unfold Qdiv. ring.
Qed.

(** ** The exchange acts on the account through the ledger *)

Section LedgerClosure.
  Context (R : relation SimulationAccount) `{!PreOrder R}.
  Hypothesis R_freeze_cash : forall amount a, R a (Account.freeze_cash amount a).2.
  Hypothesis R_unfreeze_cash : forall amount a, R a (Account.unfreeze_cash amount a).
  Hypothesis R_add_position :
    forall symbol volume price d a,
      R a (Account.add_position symbol volume price d a).2.
  Hypothesis R_reduce_position :
    forall symbol volume price pnl a,
      R a (Account.reduce_position symbol volume price pnl a).2.
  Hypothesis R_freeze_position :
    forall symbol volume a, R a (Account.freeze_position symbol volume a).2.
  Hypothesis R_unfreeze_position :
    forall symbol volume a, R a (Account.unfreeze_position symbol volume a).
  Hypothesis R_update_position_price :
    forall symbol price a, R a (Account.update_position_price symbol price a).
  Hypothesis R_update_available_volume :
    forall d a, R a (Account.update_available_volume d a).

Lemma process_reject_closure id order reason ex :
  R (account_ ex) (account_ (Exchange.process_reject id order reason ex)).
Proof.
  unfold Exchange.process_reject.
  cbn [Exchange.store_order account_ Exchange.set_account].
  destruct (ord_side order); auto.
Qed.

Lemma process_fill_closure id order result d ex :
  R (account_ ex) (account_ (Exchange.process_fill id order result d ex)).
Proof.
  unfold Exchange.process_fill.
  destruct (ord_side order).
  - etrans; [apply (R_unfreeze_cash (Exchange.freeze_amount order))|].
    match goal with |- context [Account.freeze_cash ?x ?a] =>
      pose proof (R_freeze_cash x a) as Hfreeze;
      destruct (Account.freeze_cash x a) as [[] a2] end;
      cbn [negb snd] in *.
    + etrans; [exact Hfreeze|].
      match goal with |- context [Account.add_position ?s ?v ?p ?dd ?a] =>
        pose proof (R_add_position s v p dd a) as Hadd;
        destruct (Account.add_position s v p dd a) as [? a4] end.
      cbn [snd Exchange.commit_fill account_ Exchange.set_account] in *.
      etrans; [|exact Hadd]. apply R_unfreeze_cash.
    + etrans; [exact Hfreeze|].
      apply (process_reject_closure id order _ (Exchange.set_account ex a2)).
  - match goal with |- context [Account.reduce_position ?s ?v ?p ?r ?a] =>
      pose proof (R_reduce_position s v p r a) as Hreduce;
      destruct (Account.reduce_position s v p r a) as [[[] pnl] a1] end;
      cbn [negb snd] in *.
    + etrans; [exact Hreduce|].
      match goal with |- context [Account.freeze_cash ?x ?a] =>
        pose proof (R_freeze_cash x a) as Hfreeze;
        destruct (Account.freeze_cash x a) as [? a2] end.
      cbn [snd Exchange.commit_fill account_ Exchange.set_account] in *.
      etrans; [exact Hfreeze|].
      etrans; [apply R_unfreeze_cash|]. apply R_unfreeze_position.
    + etrans; [exact Hreduce|].
      apply (process_reject_closure id order _ (Exchange.set_account ex a1)).
Qed.

Lemma on_tick_order_closure tick d ex id :
  R (account_ ex) (account_ (Exchange.on_tick_order tick d ex id)).
Proof.
  unfold Exchange.on_tick_order.
  destruct (orders_ ex !! id) as [order|]; [|reflexivity].
  destruct (negb (bool_decide _)); [reflexivity|].
  destruct (negb (String.eqb _ _)); [reflexivity|].
  destruct (Matcher.try_match_order order tick true (matcher_ ex)) as [result m].
  destruct (mr_success result).
  - apply (process_fill_closure id order result d (Exchange.set_matcher ex m)).
  - destruct (_ && _); [|reflexivity].
    apply (process_reject_closure id order _ (Exchange.set_matcher ex m)).
Qed.

Lemma step_closure ex op : R (account_ ex) (account_ (step ex op)).
Proof.
  destruct op as [order id_ms now_ms|tick|order_id now_ms|d]; simpl.
  - unfold Exchange.submit_order, Exchange.generate_order_id.
    repeat case_match; simpl in *; subst; try reflexivity.
    + match goal with H : Account.freeze_cash ?x ?a = _ |- _ =>
        pose proof (R_freeze_cash x a) as Hf; rewrite H in Hf end.
      exact Hf.
    + match goal with H : Account.freeze_position ?s ?v ?a = _ |- _ =>
        pose proof (R_freeze_position s v a) as Hf; rewrite H in Hf end.
      exact Hf.
  - unfold Exchange.on_tick.
    apply (foldl_preserves (fun ex' => R (account_ ex) (account_ ex'))).
    + intros ex' id' Hex'. etrans; [exact Hex'|]. apply on_tick_order_closure.
    + apply R_update_position_price.
  - unfold Exchange.cancel_order. repeat case_match; simpl; try reflexivity; auto.
  - apply R_update_available_volume.
Qed.

Lemma run_closure ex ops : R (account_ ex) (account_ (run ex ops)).
Proof.
  revert ex. induction ops as [|op ops IH]; intros ex; [reflexivity|].
  simpl. etrans; [apply step_closure|]. apply IH.
Qed.
End LedgerClosure.

(** ** The two cash buckets *)

Lemma cash_grows_preorder : PreOrder cash_grows.
Proof.
  split.
  - intros a. split; [auto|lra].
  - intros a b c [Hab1 Hab2] [Hbc1 Hbc2]. split; [auto|lra].
Qed.
#[local] Existing Instance cash_grows_preorder.

Section CashBuckets.
  Implicit Types (a : SimulationAccount) (amount : Q).

Lemma freeze_cash_cash amount a :
  let r := Account.freeze_cash amount a in
  (r.1 = false -> r.2 = a)
  /\ (r.1 = true ->
      (0 <= round_to_cent amount <= available_cash_ a)%Q
      /\ available_cash_ r.2 == available_cash_ a - round_to_cent amount
      /\ frozen_cash_ r.2 == frozen_cash_ a + round_to_cent amount).
Proof.
  cbv zeta. unfold Account.freeze_cash.
  destruct (Qltb amount 0) eqn:Hneg; [split; [reflexivity|discriminate]|].
  destruct (Qltb (available_cash_ a) (round_to_cent amount)) eqn:Hlow;
    [split; [reflexivity|discriminate]|].
  apply Qltb_false in Hneg. apply Qltb_false in Hlow.
  split; [discriminate|]. intros _. simpl.
  pose proof (round_to_cent_nonneg amount Hneg).
  repeat split; try lra; reflexivity.
Qed.

Lemma unfreeze_cash_cash amount a :
  (0 <= frozen_cash_ a)%Q ->
  let a' := Account.unfreeze_cash amount a in
  exists released,
    (0 <= released <= frozen_cash_ a)%Q
    /\ (released <= Qabs (round_to_cent amount))%Q
    /\ available_cash_ a' == available_cash_ a + released
    /\ frozen_cash_ a' == frozen_cash_ a - released.
Proof.
  intros Hf. cbv zeta. unfold Account.unfreeze_cash.
  destruct (Qltb amount 0) eqn:Hneg.
  - exists 0%Q. pose proof (Qabs_nonneg (round_to_cent amount)).
    repeat split; try lra.
  - apply Qltb_false in Hneg.
    pose proof (round_to_cent_nonneg amount Hneg) as Hr.
    exists (std_min (round_to_cent amount) (frozen_cash_ a)). simpl.
    rewrite (Qabs_pos _ Hr).
    unfold std_min. destruct (Qltb _ _) eqn:Hmin.
    + apply Qltb_true in Hmin. repeat split; try lra; reflexivity.
    + apply Qltb_false in Hmin. repeat split; try lra; reflexivity.
Qed.

Lemma freeze_cash_grows amount a : cash_grows a (Account.freeze_cash amount a).2.
Proof.
  destruct (freeze_cash_cash amount a) as [Hfail Hok].
  destruct (Account.freeze_cash amount a) as [[] a']; cbn [fst snd] in *.
  - destruct (Hok eq_refl) as (Hr & Hav & Hfr).
    unfold cash_grows, cash_ok. split; [intros [? ?]; split; lra|lra].
  - rewrite (Hfail eq_refl). reflexivity.
Qed.

Lemma unfreeze_cash_grows amount a : cash_grows a (Account.unfreeze_cash amount a).
Proof.
  unfold cash_grows, cash_ok. split.
  - intros [Hav Hf].
    destruct (unfreeze_cash_cash amount a Hf) as (released & Hr & _ & Hav' & Hf').
    split; lra.
  - unfold Account.unfreeze_cash. destruct (Qltb amount 0); simpl; lra.
Qed.

Lemma reduce_position_grows symbol volume price pnl a :
  cash_grows a (Account.reduce_position symbol volume price pnl a).2.
Proof.
  unfold Account.reduce_position.
  destruct (Z.leb_spec volume 0); [reflexivity|].
  destruct (Qle_bool price 0) eqn:Hp; [reflexivity|]. apply Qle_bool_false in Hp.
  cbn [orb].
  destruct (positions_ a !! symbol) as [pos|]; [|reflexivity].
  destruct (pos_volume pos <? volume); [reflexivity|].
  cbn [snd].
  assert (Hrev : (0 <= round_to_cent (inject_Z volume * round_to_cent price))%Q).
  { apply round_to_cent_nonneg. apply Qmult_le_0_compat.
    - change 0%Q with (inject_Z 0). rewrite <- Zle_Qle. lia.
    - apply round_to_cent_nonneg. lra. }
  unfold cash_grows, cash_ok. simpl. split; [intros [? ?]; split; lra|lra].
Qed.

Lemma positions_only_grows a a' :
  available_cash_ a' = available_cash_ a -> frozen_cash_ a' = frozen_cash_ a ->
  cash_grows a a'.
Proof.
  intros Hav Hf. unfold cash_grows, cash_ok. rewrite Hav, Hf.
  split; [auto|lra].
Qed.

Lemma step_cash_grows ex op : cash_grows (account_ ex) (account_ (step ex op)).
Proof.
  apply (step_closure cash_grows).
  - apply freeze_cash_grows.
  - apply unfreeze_cash_grows.
  - intros. apply positions_only_grows;
      unfold Account.add_position; repeat case_match; reflexivity.
  - apply reduce_position_grows.
  - intros. apply positions_only_grows;
      unfold Account.freeze_position; repeat case_match; reflexivity.
  - intros. apply positions_only_grows;
      unfold Account.unfreeze_position; repeat case_match; reflexivity.
  - intros. apply positions_only_grows;
      unfold Account.update_position_price; repeat case_match; reflexivity.
  - intros. apply positions_only_grows; reflexivity.
Qed.
End CashBuckets.

(** X2.  On an account whose frozen cash is not negative,
    [freeze_cash] either fails and changes nothing, or moves exactly the
    rounded amount, which is then between zero and the available cash,
    from [available_cash] to [frozen_cash]; [unfreeze_cash] moves back an
    amount between zero and the frozen cash, never more than the rounded
    request.  Neither changes the sum of the two buckets. *)
Theorem cash_bucket_moves (amount : Q) (a : SimulationAccount) :
  (0 <= frozen_cash_ a)%Q ->
  (let r := Account.freeze_cash amount a in
   (r.1 = false -> r.2 = a)
   /\ (r.1 = true ->
       (0 <= round_to_cent amount <= available_cash_ a)%Q
       /\ available_cash_ r.2 == available_cash_ a - round_to_cent amount
       /\ frozen_cash_ r.2 == frozen_cash_ a + round_to_cent amount)
   /\ available_cash_ r.2 + frozen_cash_ r.2
      == available_cash_ a + frozen_cash_ a)
  /\ (let a' := Account.unfreeze_cash amount a in
      (exists released,
         (0 <= released <= frozen_cash_ a)%Q
         /\ (released <= Qabs (round_to_cent amount))%Q
         /\ available_cash_ a' == available_cash_ a + released
         /\ frozen_cash_ a' == frozen_cash_ a - released)
      /\ available_cash_ a' + frozen_cash_ a'
         == available_cash_ a + frozen_cash_ a).
Proof.
  intros Hf. cbv zeta. split.
  - destruct (freeze_cash_cash amount a) as [Hfail Hok].
    split; [exact Hfail|]. split; [exact Hok|].
    destruct (Account.freeze_cash amount a) as [[] a']; cbn [fst snd] in *.
    + destruct (Hok eq_refl) as (_ & Hav & Hfr). lra.
    + rewrite (Hfail eq_refl). reflexivity.
  - split; [apply unfreeze_cash_cash, Hf|].
    destruct (unfreeze_cash_cash amount a Hf) as (released & _ & _ & Hav & Hfr).
    lra.
Qed.

Lemma cash_bucket_moves_witness :
  let a := account_ (run demo_exchange [OpSubmitOrder limit_up_order 5 5]) in
  available_cash_ (Account.unfreeze_cash 2000%Q a)
  + frozen_cash_ (Account.unfreeze_cash 2000%Q a)
  == available_cash_ a + frozen_cash_ a.
Proof.
  cbv zeta.
  apply (cash_bucket_moves 2000%Q
           (account_ (run demo_exchange [OpSubmitOrder limit_up_order 5 5]))).
  vm_compute. discriminate.
Defined.

(** X3.  No public operation of the exchange lowers
    [available_cash + frozen_cash], and in every reachable state both
    buckets are non-negative. *)
Theorem cash_never_shrinks :
  (forall ex ops,
     (available_cash_ (account_ ex) + frozen_cash_ (account_ ex)
      <= available_cash_ (account_ (run ex ops))
         + frozen_cash_ (account_ (run ex ops)))%Q)
  /\ (forall ex, reachable ex ->
        (0 <= available_cash_ (account_ ex))%Q
        /\ (0 <= frozen_cash_ (account_ ex))%Q).
Proof.
  split.
  - intros ex ops. revert ex. induction ops as [|op ops IH]; intros ex; [simpl; lra|].
    change (run ex (op :: ops)) with (run (step ex op) ops).
    eapply Qle_trans; [apply (step_cash_grows ex op)|apply IH].
  - intros ex Hex. change (cash_ok (account_ ex)).
    induction Hex as [account_id initial_capital draws ex Hnew|ex op _ IH].
    + unfold Exchange.new, Account.new in Hnew.
      destruct (Qle_bool initial_capital 0) eqn:Hcap; [discriminate|].
      apply Qle_bool_false in Hcap. simpl in Hnew. injection Hnew as <-.
      unfold cash_ok. simpl. split; lra.
    + apply (step_cash_grows ex op), IH.
Qed.

(** ** Freezing and releasing a position *)

Section FreezePosition.
  Implicit Types (a : SimulationAccount) (symbol : string) (volume : Z).

Lemma set_positions_same a : Account.set_positions a (positions_ a) = a.
Proof. destruct a. reflexivity. Qed.

Lemma set_frozen_volume_same pos :
  Account.set_frozen_volume pos (pos_frozen_volume pos) = pos.
Proof. destruct pos. reflexivity. Qed.

Lemma freeze_position_true symbol volume a :
  (Account.freeze_position symbol volume a).1 = true
  <-> 0 < volume
      /\ exists pos, positions_ a !! symbol = Some pos
                     /\ volume <= pos_volume pos - pos_frozen_volume pos.
Proof.
  unfold Account.freeze_position.
  destruct (Z.leb_spec volume 0); [split; [discriminate|lia]|].
  destruct (positions_ a !! symbol) as [pos|].
  - destruct (Z.ltb_spec (pos_volume pos - pos_frozen_volume pos) volume); simpl.
    + split; [discriminate|]. intros (_ & pos' & [= <-] & ?). lia.
    + split; [|reflexivity]. intros _. split; [lia|]. exists pos. split; [reflexivity|lia].
  - split; [discriminate|]. intros (_ & pos' & ? & _). discriminate.
Qed.

Lemma freeze_position_false symbol volume a :
  (Account.freeze_position symbol volume a).1 = false ->
  (Account.freeze_position symbol volume a).2 = a.
Proof.
  unfold Account.freeze_position. repeat case_match; simpl; congruence.
Qed.

Lemma unfreeze_after_freeze symbol volume a :
  (forall pos, positions_ a !! symbol = Some pos -> 0 <= pos_frozen_volume pos) ->
  (Account.freeze_position symbol volume a).1 = true ->
  Account.unfreeze_position symbol volume (Account.freeze_position symbol volume a).2
  = a.
Proof.
  intros Hnonneg. unfold Account.freeze_position, Account.unfreeze_position.
  destruct (Z.leb_spec volume 0); [discriminate|].
  destruct (positions_ a !! symbol) as [pos|] eqn:Hpos; [|discriminate].
  destruct (Z.ltb_spec (pos_volume pos - pos_frozen_volume pos) volume);
    [discriminate|].
  intros _. cbn [snd Account.set_positions positions_].
  rewrite lookup_insert_eq, insert_insert_eq. specialize (Hnonneg pos eq_refl).
  assert (Hback :
    Account.set_frozen_volume
      (Account.set_frozen_volume pos (pos_frozen_volume pos + volume))
      (std_maxZ 0
         (pos_frozen_volume
            (Account.set_frozen_volume pos (pos_frozen_volume pos + volume))
          - volume))
    = pos).
  { destruct pos. unfold Account.set_frozen_volume. cbn in *.
    rewrite std_maxZ_spec. f_equal. lia. }
  rewrite Hback, (insert_id _ _ _ Hpos).
  destruct a. reflexivity.
Qed.
End FreezePosition.

(** X4.  [freeze_position] succeeds exactly when the volume is positive
    and the symbol has a position with at least that much volume not yet
    frozen; a failed call changes nothing; and on a position whose frozen
    volume is not negative, [unfreeze_position] of the same volume after
    a successful [freeze_position] gives the account back as it was. *)
Theorem freeze_position_round_trip (symbol : string) (volume : Z)
    (a : SimulationAccount) :
  (forall pos, positions_ a !! symbol = Some pos -> 0 <= pos_frozen_volume pos) ->
  let r := Account.freeze_position symbol volume a in
  (r.1 = true
   <-> 0 < volume
       /\ exists pos, positions_ a !! symbol = Some pos
                      /\ volume <= pos_volume pos - pos_frozen_volume pos)
  /\ (r.1 = false -> r.2 = a)
  /\ (r.1 = true -> Account.unfreeze_position symbol volume r.2 = a).
Proof.
  intros Hnonneg. cbv zeta.
  split; [apply freeze_position_true|].
  split; [apply freeze_position_false|].
  apply unfreeze_after_freeze, Hnonneg.
Qed.

Lemma freeze_position_round_trip_witness :
  let a := account_ (run demo_exchange demo_buy) in
  Account.unfreeze_position "000001" 400 (Account.freeze_position "000001" 400 a).2
  = a.
Proof.
  cbv zeta.
  apply (freeze_position_round_trip "000001" 400
           (account_ (run demo_exchange demo_buy))).
  - intros pos Hpos. vm_compute in Hpos. injection Hpos as <-. simpl. lia.
  - vm_compute. reflexivity.
Defined.

(** ** T+1 *)

(** X5.  A position opened by [add_position] on date [d] cannot be sold
    on [d]: [can_sell] is false for every positive volume.  On any other
    date, earlier ones included, [can_sell] allows every volume up to the
    whole position. *)
Theorem new_position_locked (symbol : string) (volume : Z) (price : Q) (d : Z)
    (a : SimulationAccount) :
  positions_ a !! symbol = None ->
  (Account.add_position symbol volume price d a).1 = true ->
  let a' := (Account.add_position symbol volume price d a).2 in
  (forall v, Account.can_sell symbol v d a' = true <-> v <= 0)
  /\ (forall v d', d' <> d -> (Account.can_sell symbol v d' a' = true <-> v <= volume))
  /\ 0 < volume <= 1000000000.
Proof.
  intros Hnone. unfold Account.add_position.
  destruct (String.eqb symbol ""); [discriminate|].
  destruct (Z.leb_spec volume 0); [discriminate|].
  destruct (Qle_bool price 0); [discriminate|]. cbn [orb].
  destruct (Z.ltb_spec 1000000000 volume); [discriminate|].
  destruct (Qltb 1000000 price); [discriminate|].
  rewrite Hnone. intros _. cbn [snd]. unfold Account.can_sell.
  cbn [Account.set_positions positions_]. rewrite lookup_insert_eq.
  cbn [Position_new pos_buy_date pos_available_volume pos_volume pos_frozen_volume].
  split; [|split; [|lia]].
  - intros v. rewrite Z.eqb_refl. apply Z.leb_le.
  - intros v d' Hd. destruct (Z.eqb_spec d d') as [->|_]; [contradiction|].
    rewrite Z.leb_le. lia.
Qed.

Lemma new_position_locked_witness :
  Account.can_sell "600000" 100 20260206
    (Account.add_position "600000" 1000 10%Q 20260206 (account_ demo_exchange)).2
  = false.
Proof.
  destruct (Account.can_sell "600000" 100 20260206
              (Account.add_position "600000" 1000 10%Q 20260206
                 (account_ demo_exchange)).2) eqn:Hsell; [|reflexivity].
  apply (proj1 (new_position_locked "600000" 1000 10%Q 20260206
                  (account_ demo_exchange) eq_refl eq_refl)) in Hsell.
  lia.
Defined.

(** ** Submitting and cancelling *)

Section Submit.
  Implicit Types (ex : SimulatedExchange) (order : SimulatedOrder).

(** The order as [submit_order] stamps it. *)
Lemma submit_order_cases order id_ms now_ms ex :
  let r := Exchange.submit_order order id_ms now_ms ex in
  let stamped :=
    {| ord_order_id := r.1; ord_symbol := ord_symbol order;
       ord_side := ord_side order; ord_type := ord_type order;
       ord_price := ord_price order; ord_volume := ord_volume order;
       ord_filled_volume := 0; ord_status := PENDING;
       ord_submit_time := now_ms;
       ord_cancel_time := ord_cancel_time order;
       ord_filled_time := ord_filled_time order;
       ord_commission_rate := ord_commission_rate order;
       ord_slippage_rate := ord_slippage_rate order |} in
  r.1 = (Exchange.generate_order_id (ord_symbol order) id_ms ex).1
  /\ order_counter_ r.2 = order_counter_ ex + 1
  /\ trade_history_ r.2 = trade_history_ ex
  /\ matcher_ r.2 = matcher_ ex
  /\ current_time_ r.2 = current_time_ ex
  /\ ((orders_ r.2 = <[r.1 := Exchange.with_status stamped REJECTED]> (orders_ ex)
       /\ account_ r.2 = account_ ex)
      \/ (orders_ r.2 = <[r.1 := stamped]> (orders_ ex)
          /\ 0 < ord_volume order
          /\ (ord_type order = LIMIT -> (0 < ord_price order)%Q)
          /\ match ord_side order with
             | BUY =>
                 Account.freeze_cash (Exchange.freeze_amount order) (account_ ex)
                 = (true, account_ r.2)
             | SELL =>
                 Account.can_sell (ord_symbol order) (ord_volume order)
                   (Z.quot (current_time_ ex) Exchange.ms_per_day) (account_ ex)
                 = true
                 /\ Account.freeze_position (ord_symbol order) (ord_volume order)
                      (account_ ex)
                    = (true, account_ r.2)
             end)).
Proof.
  cbv zeta.
  unfold Exchange.submit_order, Exchange.generate_order_id, Exchange.freeze_amount.
  cbn [fst snd ord_volume ord_type ord_price ord_side ord_symbol account_
       current_time_].
  assert (Hfields : forall (P : Prop) id o a c,
            P ->
            let ex' := Exchange.store_order
                         (Exchange.set_account
                            {| account_ := account_ ex; matcher_ := matcher_ ex;
                               orders_ := orders_ ex;
                               trade_history_ := trade_history_ ex;
                               current_time_ := current_time_ ex;
                               order_counter_ := c |} a) id o in
            order_counter_ ex' = c
            /\ trade_history_ ex' = trade_history_ ex
            /\ matcher_ ex' = matcher_ ex
            /\ current_time_ ex' = current_time_ ex /\ P)
    by (intros; repeat split; assumption).
  destruct (Z.leb_spec (ord_volume order) 0) as [Hvol|Hvol]; cbn [fst snd].
  { split; [reflexivity|].
    apply (Hfields _ _ _ (account_ ex)). left. split; reflexivity. }
  destruct (bool_decide_reflect (ord_type order = LIMIT)) as [Hty|Hty];
    destruct (Qle_bool (ord_price order) 0) eqn:Hprice; cbn [andb fst snd];
    try (split; [reflexivity|];
         apply (Hfields _ _ _ (account_ ex)); left; split; reflexivity).
  all: assert (Hlimit : ord_type order = LIMIT -> (0 < ord_price order)%Q)
         by (first [ intros _; apply Qle_bool_false; exact Hprice
                   | intros ?; contradiction ]).
  all: destruct (ord_side order) eqn:Hside.
  all: try (destruct (Account.freeze_cash _ (account_ ex)) as [[] a'] eqn:Hfreeze;
            cbn [negb fst snd]; (split; [reflexivity|]);
            [ apply (Hfields _ _ _ a'); right;
              split; [reflexivity|]; split; [assumption|];
              split; [assumption|]; first [exact Hfreeze|reflexivity]
            | apply (Hfields _ _ _ (account_ ex)); left; split; reflexivity ]).
  all: destruct (Account.can_sell _ _ _ (account_ ex)) eqn:Hsell;
       cbn [negb fst snd];
       [|split; [reflexivity|];
         apply (Hfields _ _ _ (account_ ex)); left; split; reflexivity].
  all: destruct (Account.freeze_position _ _ (account_ ex)) as [[] a'] eqn:Hfreeze;
       cbn [negb fst snd]; (split; [reflexivity|]);
       [ apply (Hfields _ _ _ a'); right;
         split; [reflexivity|]; split; [assumption|];
         split; [assumption|]; split; first [exact Hsell|exact Hfreeze|reflexivity]
       | apply (Hfields _ _ _ (account_ ex)); left; split; reflexivity ].
Qed.
End Submit.

Lemma reachable_cash_ok ex : reachable ex -> cash_ok (account_ ex).
Proof.
  intros Hex.
  induction Hex as [account_id initial_capital draws ex Hnew|ex op _ IH].
  - unfold Exchange.new, Account.new in Hnew.
    destruct (Qle_bool initial_capital 0) eqn:Hcap; [discriminate|].
    apply Qle_bool_false in Hcap. simpl in Hnew. injection Hnew as <-.
    unfold cash_ok. simpl. split; lra.
  - apply (step_cash_grows ex op), IH.
Qed.

Lemma reachable_positions_ok ex : reachable ex -> positions_ok (account_ ex).
Proof.
  intros Hex.
  induction Hex as [account_id initial_capital draws ex Hnew|ex op _ IH].
  - apply new_inv in Hnew as (_ & _ & Hpos & _).
    unfold positions_ok. rewrite Hpos. apply map_Forall_empty.
  - apply step_positions_ok, IH.
Qed.

(** X6.  [submit_order] stores the order under the id it returns, with
    that id, the submitted symbol, side, type, price and volume, no
    filled volume and status PENDING or REJECTED.  It is REJECTED
    whenever the volume is not positive or a LIMIT price is not positive,
    and a rejection leaves the account untouched.  Every other registry
    entry and the trade history stay as they were, and the order counter
    goes up by one. *)
Theorem submit_order_outcome (order : SimulatedOrder) (id_ms now_ms : Z)
    (ex : SimulatedExchange) :
  let r := Exchange.submit_order order id_ms now_ms ex in
  (exists stored,
     orders_ r.2 !! r.1 = Some stored
     /\ ord_order_id stored = r.1
     /\ (ord_symbol stored, ord_side stored, ord_type stored, ord_price stored,
         ord_volume stored)
        = (ord_symbol order, ord_side order, ord_type order, ord_price order,
           ord_volume order)
     /\ ord_filled_volume stored = 0
     /\ ord_submit_time stored = now_ms
     /\ (ord_status stored = PENDING \/ ord_status stored = REJECTED)
     /\ (ord_status stored = REJECTED -> account_ r.2 = account_ ex)
     /\ (ord_volume order <= 0
         \/ (ord_type order = LIMIT /\ (ord_price order <= 0)%Q) ->
         ord_status stored = REJECTED))
  /\ (forall id', id' <> r.1 -> orders_ r.2 !! id' = orders_ ex !! id')
  /\ Exchange.get_trade_history r.2 = Exchange.get_trade_history ex
  /\ order_counter_ r.2 = order_counter_ ex + 1.
Proof.
  cbv zeta.
  destruct (submit_order_cases order id_ms now_ms ex)
    as (_ & Hcount & Htrades & _ & _ & Hcases).
  cbv zeta in Hcases.
  split; [|split; [|split; [exact Htrades|exact Hcount]]].
  - destruct Hcases as [[Hord Hacc]|(Hord & Hvol & Hlimit & _)]; rewrite Hord.
    + eexists. split; [apply lookup_insert_eq|]. cbn.
      repeat split; auto.
    + eexists. split; [apply lookup_insert_eq|]. cbn.
      repeat split; auto; try discriminate.
      intros [Hbad|[Hty Hbad]]; [lia|]. specialize (Hlimit Hty). lra.
  - intros id' Hne.
    destruct Hcases as [[Hord _]|(Hord & _)]; rewrite Hord;
      apply lookup_insert_ne; congruence.
Qed.

(** X7.  In a reachable state, an order that [submit_order] accepts can
    be cancelled at once: [cancel_order] on its id returns true, marks it
    CANCELLED, and hands back the cash and the positions that the
    submission reserved. *)
Theorem cancel_undoes_submit (order : SimulatedOrder) (id_ms now_ms cancel_ms : Z)
    (ex : SimulatedExchange) :
  reachable ex ->
  let r := Exchange.submit_order order id_ms now_ms ex in
  ord_status <$> orders_ r.2 !! r.1 = Some PENDING ->
  let c := Exchange.cancel_order r.1 cancel_ms r.2 in
  c.1 = true
  /\ ord_status <$> orders_ c.2 !! r.1 = Some CANCELLED
  /\ available_cash_ (account_ c.2) == available_cash_ (account_ ex)
  /\ frozen_cash_ (account_ c.2) == frozen_cash_ (account_ ex)
  /\ positions_ (account_ c.2) = positions_ (account_ ex).
Proof.
  intros Hex. cbv zeta.
  destruct (submit_order_cases order id_ms now_ms ex)
    as (_ & _ & _ & _ & _ & Hcases).
  cbv zeta in Hcases.
  destruct Hcases as [[Hord _]|(Hord & Hvol & _ & Hside)]; rewrite Hord.
  { rewrite lookup_insert_eq. discriminate. }
  intros _. unfold Exchange.cancel_order.
  rewrite Hord, lookup_insert_eq. cbn [ord_status ord_side].
  rewrite bool_decide_eq_true_2 by reflexivity. cbn [negb fst snd].
  cbn [Exchange.store_order Exchange.set_account orders_ account_].
  rewrite lookup_insert_eq. cbn [fmap option_fmap option_map ord_status].
  split; [reflexivity|]. split; [reflexivity|].
  destruct (ord_side order).
  - destruct (reachable_cash_ok ex Hex) as [_ Hfrozen].
    change (Exchange.freeze_amount _) with (Exchange.freeze_amount order).
    destruct (freeze_then_unfreeze_cash _ _ _ Hfrozen Hside) as [Hav Hfr].
    split; [exact Hav|]. split; [exact Hfr|].
    rewrite (proj2 (unfreeze_cash_frame _ _)).
    pose proof (proj2 (freeze_cash_frame (Exchange.freeze_amount order)
                         (account_ ex))) as Hpos.
    rewrite Hside in Hpos. exact Hpos.
  - destruct Hside as [_ Hfreeze]. cbn [ord_symbol ord_volume].
    assert (Hback :
      Account.unfreeze_position (ord_symbol order) (ord_volume order)
        (account_ (Exchange.submit_order order id_ms now_ms ex).2)
      = account_ ex).
    { pose proof (unfreeze_after_freeze (ord_symbol order) (ord_volume order)
                    (account_ ex)) as Hround.
      rewrite Hfreeze in Hround. apply Hround; [|reflexivity].
      intros pos Hpos.
      apply (reachable_positions_ok ex Hex) in Hpos as [[? _] _]. assumption. }
    rewrite Hback. repeat split; reflexivity.
Qed.

Lemma cancel_undoes_submit_witness :
  let r := Exchange.submit_order limit_up_order 5 5 demo_exchange in
  positions_ (account_ (Exchange.cancel_order r.1 9 r.2).2)
  = positions_ (account_ demo_exchange).
Proof.
  cbv zeta.
  apply (cancel_undoes_submit limit_up_order 5 5 9 demo_exchange).
  - apply (demo_reachable []).
  - vm_compute. reflexivity.
Defined.

(** X8.  A MARKET BUY is accepted exactly when its volume is positive and
    the available cash covers [volume * 1003000], the reservation at the
    ceiling price of one million per share plus 0.3 percent. *)
Theorem market_buy_reservation (order : SimulatedOrder) (id_ms now_ms : Z)
    (ex : SimulatedExchange) :
  ord_side order = BUY -> ord_type order = MARKET ->
  let r := Exchange.submit_order order id_ms now_ms ex in
  ord_status <$> orders_ r.2 !! r.1 = Some PENDING
  <-> 0 < ord_volume order
      /\ (inject_Z (ord_volume order) * 1003000 <= available_cash_ (account_ ex))%Q.
Proof.
  intros Hside Hty. cbv zeta.
  unfold Exchange.submit_order, Exchange.generate_order_id.
  cbn [fst snd ord_volume ord_type ord_price ord_side ord_symbol account_].
  destruct (Z.leb_spec (ord_volume order) 0) as [Hvol|Hvol]; cbn [fst snd].
  { cbn [Exchange.store_order orders_]. rewrite lookup_insert_eq. cbn.
    split; [discriminate|]. intros [? _]. lia. }
  rewrite Hty, bool_decide_eq_false_2 by discriminate. cbn [andb]. rewrite Hside.
  unfold Account.freeze_cash, Exchange.freeze_amount.
  cbn [ord_volume ord_type].
  assert (Hamount : inject_Z (ord_volume order) * 1000000 * 1.003
                    == inject_Z (100 * (ord_volume order * 1003000)) / 100).
  { rewrite !inject_Z_mult. change (inject_Z 100) with 100%Q.
    change (inject_Z 1003000) with 1003000%Q. field. }
  assert (Hwhole : inject_Z (100 * (ord_volume order * 1003000)) / 100
                   == inject_Z (ord_volume order) * 1003000).
  { rewrite !inject_Z_mult. change (inject_Z 100) with 100%Q.
    change (inject_Z 1003000) with 1003000%Q. field. }
  assert (Hround : round_to_cent (inject_Z (ord_volume order) * 1000000 * 1.003)
                   == inject_Z (ord_volume order) * 1003000).
  { rewrite (round_to_cent_comp _ _ Hamount), round_to_cent_cents. exact Hwhole. }
  assert (Hpos : (0 < inject_Z (ord_volume order))%Q).
  { change 0%Q with (inject_Z 0). rewrite <- Zlt_Qlt. exact Hvol. }
  destruct (Qltb _ 0) eqn:Hneg.
  { apply Qltb_true in Hneg. exfalso.
    assert (0 < inject_Z (ord_volume order) * 1000000 * 1.003)%Q.
    { apply Qmult_lt_0_compat; [apply Qmult_lt_0_compat|]; [exact Hpos|reflexivity..]. }
    lra. }
  destruct (Qltb (available_cash_ (account_ ex)) _) eqn:Hlow; cbn [negb fst snd].
  - apply Qltb_true in Hlow. cbn [Exchange.store_order orders_].
    rewrite lookup_insert_eq. cbn. split; [discriminate|]. intros [_ ?]. lra.
  - apply Qltb_false in Hlow.
    cbn [Exchange.store_order Exchange.set_account orders_].
    rewrite lookup_insert_eq. cbn. split; [|reflexivity].
    intros _. split; [exact Hvol|]. lra.
Qed.

Lemma market_buy_reservation_witness :
  let order := sample_order "600000" BUY MARKET 0%Q 100 in
  let r := Exchange.submit_order order 5 5 demo_exchange in
  ord_status <$> orders_ r.2 !! r.1 <> Some PENDING.
Proof.
  cbv zeta. intros Hpending.
  apply (market_buy_reservation (sample_order "600000" BUY MARKET 0%Q 100) 5 5
           demo_exchange eq_refl eq_refl) in Hpending.
  destruct Hpending as [_ Hcash]. vm_compute in Hcash. apply Hcash. reflexivity.
Defined.

(** ** The matcher: slippage, fill conditions, fees *)

Section Slippage.
  Implicit Types (m : OrderMatcher) (side : OrderSide).

Lemma Qabs_scaled (rate u : Q) :
  (0 <= rate)%Q -> (-1 <= u <= 1)%Q ->
  (0 <= Qabs (rate * u) <= rate)%Q.
Proof.
  intros Hrate Hu. split; [apply Qabs_nonneg|].
  apply Qabs_Qle_condition. split; nra.
Qed.

Lemma calculate_slippage_state side base_price volume slippage_rate m :
  let r := Matcher.calculate_slippage side base_price volume slippage_rate m in
  rng_draws_ r.2 = rng_draws_ m
  /\ rng_pos_ r.2 = (rng_pos_ m + (if (10000 <? volume)%Z then 2 else 1))%nat
  /\ default_slippage_rate_ r.2 = default_slippage_rate_ m
  /\ default_commission_rate_ r.2 = default_commission_rate_ m
  /\ stamp_tax_rate_ r.2 = stamp_tax_rate_ m.
Proof.
  cbv zeta. unfold Matcher.calculate_slippage, Matcher.dist.
  destruct (10000 <? volume); cbn; repeat split; lia.
Qed.

Lemma calculate_slippage_bounds side base_price volume slippage_rate m :
  (forall n, (-1 <= rng_draws_ m n <= 1)%Q) ->
  (0 <= base_price)%Q -> (0 <= slippage_rate)%Q ->
  let r := Matcher.calculate_slippage side base_price volume slippage_rate m in
  let cap := if 10000 <? volume then (slippage_rate * 1.5)%Q else slippage_rate in
  match side with
  | BUY =>
      (round_to_cent base_price <= r.1
       <= round_to_cent (base_price * (1 + cap)))%Q
  | SELL =>
      (round_to_cent (base_price * (1 - cap)) <= r.1
       <= round_to_cent base_price)%Q
  end.
Proof.
  intros Hdraws Hbase Hrate. cbv zeta.
  unfold Matcher.calculate_slippage, Matcher.dist.
  cbn [rng_draws_ rng_pos_].
  destruct (10000 <? volume); cbn [fst snd rng_draws_ rng_pos_].
  - assert (Hcap : (0 <= slippage_rate * 1.5)%Q) by lra.
    pose proof (Qabs_scaled _ _ Hcap (Hdraws (S (rng_pos_ m)))) as Habs.
    generalize dependent (Qabs (slippage_rate * 1.5 * rng_draws_ m (S (rng_pos_ m)))).
    intros s Hs.
    destruct side; split; apply round_to_cent_mono; nra.
  - pose proof (Qabs_scaled _ _ Hrate (Hdraws (rng_pos_ m))) as Habs.
    generalize dependent (Qabs (slippage_rate * rng_draws_ m (rng_pos_ m))).
    intros s Hs.
    destruct side; split; apply round_to_cent_mono; nra.
Qed.
End Slippage.

(** X9.  With draws of the generator in [-1, 1], a base price and a
    slippage rate that are not negative, [calculate_slippage] moves the
    price against the order and by no more than the rate: a BUY gets a
    price between the base price and the base price raised by the rate, a
    SELL one between the base price lowered by the rate and the base
    price, all rounded to cents, where the rate counts 1.5 times for more
    than 10000 shares.  The call consumes one draw, or two above 10000
    shares. *)
Theorem slippage_adverse_and_bounded (side : OrderSide) (base_price : Q)
    (volume : Z) (slippage_rate : Q) (m : OrderMatcher) :
  (forall n, (-1 <= rng_draws_ m n <= 1)%Q) ->
  (0 <= base_price)%Q -> (0 <= slippage_rate)%Q ->
  let r := Matcher.calculate_slippage side base_price volume slippage_rate m in
  let cap := if 10000 <? volume then (slippage_rate * 1.5)%Q else slippage_rate in
  match side with
  | BUY =>
      (round_to_cent base_price <= r.1
       <= round_to_cent (base_price * (1 + cap)))%Q
  | SELL =>
      (round_to_cent (base_price * (1 - cap)) <= r.1
       <= round_to_cent base_price)%Q
  end
  /\ rng_pos_ r.2 = (rng_pos_ m + (if (10000 <? volume)%Z then 2 else 1))%nat.
Proof.
  intros Hdraws Hbase Hrate. cbv zeta. split.
  - apply (calculate_slippage_bounds side base_price volume slippage_rate m);
      assumption.
  - apply (calculate_slippage_state side base_price volume slippage_rate m).
Qed.

Lemma slippage_adverse_and_bounded_witness :
  let r :=
    Matcher.calculate_slippage SELL 10%Q 20000 0.01%Q
      (Matcher.new (fun n => if Nat.even n then 1%Q else (-1)%Q)) in
  (round_to_cent (10 * (1 - 0.01 * 1.5)) <= r.1 <= round_to_cent 10)%Q
  /\ rng_pos_ r.2 = 2%nat.
Proof.
  cbv zeta.
  apply (slippage_adverse_and_bounded SELL 10%Q 20000 0.01%Q
           (Matcher.new (fun n => if Nat.even n then 1%Q else (-1)%Q))).
  - intros n. cbn. destruct (Nat.even n); split; vm_compute; discriminate.
  - vm_compute. discriminate.
  - vm_compute. discriminate.
Defined.

Section MatchConditions.
  Implicit Types (order : SimulatedOrder) (tick : Tick) (m : OrderMatcher).

Lemma validate_order_volume_true volume side :
  (Matcher.validate_order_volume volume side 0).1 = true
  <-> 0 < volume <= 1000000 /\ (side = BUY -> Z.rem volume 100 = 0).
Proof.
  unfold Matcher.validate_order_volume.
  destruct (Z.leb_spec volume 0); [cbn; split; [discriminate|lia]|].
  destruct (Z.ltb_spec 1000000 volume); [cbn; split; [discriminate|lia]|].
  destruct side.
  - rewrite bool_decide_eq_true_2 by reflexivity. cbn [andb].
    destruct (Z.eqb_spec (Z.rem volume 100) 0); cbn [negb].
    + rewrite bool_decide_eq_false_2 by discriminate. cbn. split; auto with lia.
    + cbn. split; [discriminate|]. intros [_ Hrem]. specialize (Hrem eq_refl). lia.
  - rewrite bool_decide_eq_false_2 by discriminate. cbn [andb].
    rewrite bool_decide_eq_true_2 by reflexivity. cbn.
    split; [|reflexivity]. intros _. split; [lia|discriminate].
Qed.

Lemma check_limit_price_true symbol price last_close :
  Matcher.check_limit_price symbol price last_close = true
  <-> ((0 < last_close)%Q ->
       (last_close * (1 - Matcher.get_limit_pct symbol) <= price
        <= last_close * (1 + Matcher.get_limit_pct symbol))%Q).
Proof.
  unfold Matcher.check_limit_price.
  destruct (Qle_bool last_close 0) eqn:Hclose.
  - apply Qle_bool_iff in Hclose. split; [|reflexivity]. intros _ ?. lra.
  - apply Qle_bool_false in Hclose. cbv zeta.
    rewrite andb_true_iff, !Qle_bool_iff. tauto.
Qed.

Lemma get_limit_pct_range symbol : (0 < Matcher.get_limit_pct symbol < 1)%Q.
Proof.
  unfold Matcher.get_limit_pct. repeat case_match; split; reflexivity.
Qed.

Lemma check_liquidity_true volume tick side :
  Matcher.check_liquidity volume tick side = true
  <-> (0 < tick_volume tick -> volume <= Z.quot (tick_volume tick) 10).
Proof.
  unfold Matcher.check_liquidity.
  destruct (Z.leb_spec (tick_volume tick) 0).
  - split; [lia|reflexivity].
  - cbv zeta. rewrite Z.leb_le. tauto.
Qed.
End MatchConditions.

(** In the exact arithmetic of the model [try_match_order] fills an order
    exactly when its volume is between 1 and 1,000,000 and, for a BUY, a
    multiple of 100; a LIMIT BUY is priced at or above the ask and a
    LIMIT SELL at or below the bid; the base price (the ask or the bid
    for a MARKET order, the limit price otherwise) lies within the
    price-limit band around a positive previous close when the check is
    on; and the volume is at most a tenth of a positive tick volume.  The
    machine computes the two ends of the band in doubles, so at a base
    price on an end of the band its answer is that of the doubles; the
    statement that follows keeps a margin from the ends. *)
Lemma try_match_order_fills_exact (order : SimulatedOrder) (tick : Tick)
    (check_price_limit : bool) (m : OrderMatcher) :
  let base_price :=
    match ord_type order, ord_side order with
    | MARKET, BUY => tick_ask_price tick
    | MARKET, SELL => tick_bid_price tick
    | LIMIT, _ => ord_price order
    end in
  let limit_pct := Matcher.get_limit_pct (ord_symbol order) in
  let slippage_rate :=
    if Qltb 0 (ord_slippage_rate order) then ord_slippage_rate order
    else default_slippage_rate_ m in
  let filled :=
    Matcher.calculate_slippage (ord_side order) base_price (ord_volume order)
      slippage_rate m in
  let r := Matcher.try_match_order order tick check_price_limit m in
  (mr_success r.1 = true
   <-> 0 < ord_volume order <= 1000000
       /\ (ord_side order = BUY -> Z.rem (ord_volume order) 100 = 0)
       /\ (ord_type order = LIMIT ->
           match ord_side order with
           | BUY => (tick_ask_price tick <= ord_price order)%Q
           | SELL => (ord_price order <= tick_bid_price tick)%Q
           end)
       /\ (check_price_limit = true -> (0 < tick_last_close tick)%Q ->
           (tick_last_close tick * (1 - limit_pct) <= base_price
            <= tick_last_close tick * (1 + limit_pct))%Q)
       /\ (0 < tick_volume tick ->
           ord_volume order <= Z.quot (tick_volume tick) 10))
  /\ (mr_success r.1 = true ->
      r = (MatchResult_fill filled.1 (ord_volume order), filled.2)).
Proof.
  cbv zeta. unfold Matcher.try_match_order.
  pose proof (validate_order_volume_true (ord_volume order) (ord_side order))
    as Hvalid.
  destruct (Matcher.validate_order_volume _ _ _) as [is_valid msg].
  cbn [fst] in Hvalid.
  destruct is_valid; cbn [negb fst snd];
    [|split; [split; [discriminate|]|discriminate];
      intros (Hvol & Hlot & _); cbn; apply Hvalid; auto].
  assert (Hv : 0 < ord_volume order <= 1000000
               /\ (ord_side order = BUY -> Z.rem (ord_volume order) 100 = 0))
    by (apply Hvalid; reflexivity).
  clear Hvalid.
  assert (Htail : forall base_price,
    let r :=
      if check_price_limit && Qltb 0 (tick_last_close tick)
         && negb (Matcher.check_limit_price (ord_symbol order) base_price
                    (tick_last_close tick))
      then
        match ord_side order with
        | BUY => (MatchResult_fail "Price at limit up - queuing", m)
        | SELL => (MatchResult_fail "Price at limit down - queuing", m)
        end
      else if negb (Matcher.check_liquidity (ord_volume order) tick (ord_side order))
      then (MatchResult_fail "Insufficient liquidity", m)
      else
        let slippage_rate :=
          if Qltb 0 (ord_slippage_rate order) then ord_slippage_rate order
          else default_slippage_rate_ m in
        let '(filled_price, m) :=
          Matcher.calculate_slippage (ord_side order) base_price
            (ord_volume order) slippage_rate m in
        (MatchResult_fill filled_price (ord_volume order), m) in
    (mr_success r.1 = true
     <-> (check_price_limit = true -> (0 < tick_last_close tick)%Q ->
          (tick_last_close tick * (1 - Matcher.get_limit_pct (ord_symbol order))
           <= base_price
           <= tick_last_close tick * (1 + Matcher.get_limit_pct (ord_symbol order)))%Q)
         /\ (0 < tick_volume tick ->
             ord_volume order <= Z.quot (tick_volume tick) 10))
    /\ (mr_success r.1 = true ->
        r = (MatchResult_fill
               (Matcher.calculate_slippage (ord_side order) base_price
                  (ord_volume order)
                  (if Qltb 0 (ord_slippage_rate order) then ord_slippage_rate order
                   else default_slippage_rate_ m) m).1 (ord_volume order),
             (Matcher.calculate_slippage (ord_side order) base_price
                (ord_volume order)
                (if Qltb 0 (ord_slippage_rate order) then ord_slippage_rate order
                 else default_slippage_rate_ m) m).2))).
  { intros base_price. cbv zeta.
    pose proof (check_limit_price_true (ord_symbol order) base_price
                  (tick_last_close tick)) as Hband.
    pose proof (check_liquidity_true (ord_volume order) tick (ord_side order))
      as Hliq.
    destruct check_price_limit; cbn [andb].
    - destruct (Qltb 0 (tick_last_close tick)) eqn:Hclose; cbn [andb].
      + apply Qltb_true in Hclose.
        destruct (Matcher.check_limit_price _ _ _); cbn [negb].
        * destruct (Matcher.check_liquidity _ _ _); cbn [negb].
          -- destruct (Matcher.calculate_slippage _ _ _ _ m) as [price m'].
             cbn. split; [|reflexivity]. split; [|reflexivity].
             intros _. split; [intros _; apply Hband; reflexivity|].
             apply Hliq. reflexivity.
          -- cbn. split; [|discriminate]. split; [discriminate|].
             intros [_ Hl]. apply Hliq, Hl.
        * split; [|destruct (ord_side order); discriminate].
          split; [destruct (ord_side order); discriminate|].
          intros [Hb _]. exfalso. assert (false = true) as Habs; [|discriminate].
          apply Hband. intros _. apply Hb; auto.
      + apply Qltb_false in Hclose.
        destruct (Matcher.check_liquidity _ _ _); cbn [negb].
        * destruct (Matcher.calculate_slippage _ _ _ _ m) as [price m'].
          cbn. split; [|reflexivity]. split; [|reflexivity].
          intros _. split; [intros _ ?; lra|]. apply Hliq. reflexivity.
        * cbn. split; [|discriminate]. split; [discriminate|].
          intros [_ Hl]. apply Hliq, Hl.
    - destruct (Matcher.check_liquidity _ _ _); cbn [negb].
      + destruct (Matcher.calculate_slippage _ _ _ _ m) as [price m'].
        cbn. split; [|reflexivity]. split; [|reflexivity].
        intros _. split; [discriminate|]. apply Hliq. reflexivity.
      + cbn. split; [|discriminate]. split; [discriminate|].
        intros [_ Hl]. apply Hliq, Hl. }
  destruct (ord_type order) eqn:Hty, (ord_side order) eqn:Hside.
  - destruct (Htail (tick_ask_price tick)) as [Hiff Hres]. cbv zeta in Hiff, Hres.
    split; [|exact Hres]. rewrite Hiff. intuition discriminate.
  - destruct (Htail (tick_bid_price tick)) as [Hiff Hres]. cbv zeta in Hiff, Hres.
    split; [|exact Hres]. rewrite Hiff. intuition discriminate.
  - destruct (Qltb (ord_price order) (tick_ask_price tick)) eqn:Hpx.
    + apply Qltb_true in Hpx. cbn. split; [|discriminate].
      split; [discriminate|]. intros (_ & _ & Hl & _). specialize (Hl eq_refl). lra.
    + apply Qltb_false in Hpx.
      destruct (Htail (ord_price order)) as [Hiff Hres]. cbv zeta in Hiff, Hres.
      split; [|exact Hres]. rewrite Hiff. intuition.
  - destruct (Qltb (tick_bid_price tick) (ord_price order)) eqn:Hpx.
    + apply Qltb_true in Hpx. cbn. split; [|discriminate].
      split; [discriminate|]. intros (_ & _ & Hl & _). specialize (Hl eq_refl). lra.
    + apply Qltb_false in Hpx.
      destruct (Htail (ord_price order)) as [Hiff Hres]. cbv zeta in Hiff, Hres.
      split; [|exact Hres]. rewrite Hiff. intuition.
Qed.

(** X10.  When [try_match_order] fills.  If it fills, the volume is
    between 1 and 1,000,000 and, for a BUY, a multiple of 100; a LIMIT
    BUY is priced at or above the ask and a LIMIT SELL at or below the
    bid; the volume is at most a tenth of a positive tick volume; and,
    when the check is on and the previous close is positive, the base
    price (the ask or the bid for a MARKET order, the limit price
    otherwise) lies in the price-limit band from [close * (1 - pct)] to
    [close * (1 + pct)] widened by one part in a thousand million.
    Conversely an order that meets these conditions with the band
    narrowed by as much is filled.  The margin, far below a cent at any
    price under a million, keeps both statements clear of the two ends of
    the band, which the machine computes in doubles.  A fill is for the
    whole volume, at the price [calculate_slippage] gives from the base
    price. *)
Theorem try_match_order_fill_conditions (order : SimulatedOrder) (tick : Tick)
    (check_price_limit : bool) (m : OrderMatcher) :
  let base_price :=
    match ord_type order, ord_side order with
    | MARKET, BUY => tick_ask_price tick
    | MARKET, SELL => tick_bid_price tick
    | LIMIT, _ => ord_price order
    end in
  let limit_pct := Matcher.get_limit_pct (ord_symbol order) in
  let lower := (tick_last_close tick * (1 - limit_pct))%Q in
  let upper := (tick_last_close tick * (1 + limit_pct))%Q in
  let margin := (1 # 1000000000)%Q in
  let in_band (lo hi : Q) :=
    check_price_limit = true -> (0 < tick_last_close tick)%Q ->
    (lo <= base_price <= hi)%Q in
  let rules :=
    0 < ord_volume order <= 1000000
    /\ (ord_side order = BUY -> Z.rem (ord_volume order) 100 = 0)
    /\ (ord_type order = LIMIT ->
        match ord_side order with
        | BUY => (tick_ask_price tick <= ord_price order)%Q
        | SELL => (ord_price order <= tick_bid_price tick)%Q
        end)
    /\ (0 < tick_volume tick ->
        ord_volume order <= Z.quot (tick_volume tick) 10) in
  let slippage_rate :=
    if Qltb 0 (ord_slippage_rate order) then ord_slippage_rate order
    else default_slippage_rate_ m in
  let filled :=
    Matcher.calculate_slippage (ord_side order) base_price (ord_volume order)
      slippage_rate m in
  let r := Matcher.try_match_order order tick check_price_limit m in
  (mr_success r.1 = true ->
   rules /\ in_band (lower * (1 - margin))%Q (upper * (1 + margin))%Q)
  /\ (rules -> in_band (lower * (1 + margin))%Q (upper * (1 - margin))%Q ->
      mr_success r.1 = true)
  /\ (mr_success r.1 = true ->
      r = (MatchResult_fill filled.1 (ord_volume order), filled.2)).
Proof.
  cbv zeta.
  destruct (try_match_order_fills_exact order tick check_price_limit m)
    as [Hiff Hres].
  cbv zeta in Hiff, Hres.
  pose proof (get_limit_pct_range (ord_symbol order)) as Hpct.
  split; [|split; [|exact Hres]].
  - intros Hs. apply Hiff in Hs as (Hv & Hlot & Hq & Hb & Hliq).
    split; [auto|]. intros Hc Hpos. specialize (Hb Hc Hpos).
    split; nra.
  - intros (Hv & Hlot & Hq & Hliq) Hb. apply Hiff.
    split; [exact Hv|]. split; [exact Hlot|]. split; [exact Hq|].
    split; [|exact Hliq].
    intros Hc Hpos. specialize (Hb Hc Hpos). split; nra.
Qed.

(** A SELL at 11.70 after a close of 13.00, the lower end of the band:
    the exact product is 11.70, which the band of the model admits; the
    double product comes out just above the double 11.70.  The order is
    on neither side of the margin. *)
Example band_edge_outside_margin :
  let lower := (13 * (1 - Matcher.get_limit_pct "000001"))%Q in
  Matcher.check_limit_price "000001" 11.7%Q 13%Q = true
  /\ ~ (lower * (1 + (1 # 1000000000)) <= 11.7)%Q
  /\ (lower * (1 - (1 # 1000000000)) <= 11.7)%Q
  /\ Double.ltb (Double.of_Q 11.7%Q)
       (Double.mul (Double.of_Q 13%Q)
          (Double.sub (Double.of_Z 1) (Double.of_Q 0.1%Q))) = true.
Proof. vm_compute. repeat split; congruence. Qed.

Section Fees.
  Implicit Types (m : OrderMatcher) (side : OrderSide).

(** The fee before rounding, as [calculate_total_commission] adds it
    up. *)
Lemma calculate_total_commission_unfold side symbol price volume rate m :
  Matcher.calculate_total_commission side symbol price volume rate m
  = round_to_cent
      (let amount := (price * inject_Z volume)%Q in
       let total_fee := (0 + std_max (amount * rate) 5)%Q in
       let total_fee :=
         match side with
         | SELL => (total_fee + amount * stamp_tax_rate_ m)%Q
         | BUY => total_fee
         end in
       if Matcher.is_shanghai_stock symbol
       then (total_fee + inject_Z volume * 0.00002)%Q else total_fee).
Proof. reflexivity. Qed.

Lemma calculate_commission_unfold side price volume :
  Exchange.calculate_commission side price volume
  = round_to_cent
      (let turnover := (price * inject_Z volume)%Q in
       match side with
       | SELL => (std_max (turnover * 0.00025) 5 + turnover * 0.001)%Q
       | BUY => std_max (turnover * 0.00025) 5
       end).
Proof. unfold Exchange.calculate_commission. destruct side; reflexivity. Qed.

Lemma inject_Z_nonneg z : 0 <= z -> (0 <= inject_Z z)%Q.
Proof. intros Hz. change 0%Q with (inject_Z 0). rewrite <- Zle_Qle. exact Hz. Qed.
End Fees.

(** X11.  For a price, a volume and a stamp-tax rate that are not
    negative, [calculate_total_commission] is never below the minimum
    commission of 5.00, whatever the commission rate, and a SELL never
    costs less than a BUY of the same trade. *)
Theorem total_commission_floor (symbol : string) (price : Q) (volume : Z)
    (commission_rate : Q) (m : OrderMatcher) :
  (0 <= price)%Q -> 0 <= volume -> (0 <= stamp_tax_rate_ m)%Q ->
  (forall side,
     (5 <= Matcher.calculate_total_commission side symbol price volume
             commission_rate m)%Q)
  /\ (Matcher.calculate_total_commission BUY symbol price volume commission_rate m
      <= Matcher.calculate_total_commission SELL symbol price volume
           commission_rate m)%Q.
Proof.
  intros Hprice Hvolume Hstamp.
  pose proof (inject_Z_nonneg volume Hvolume) as Hv.
  pose proof (std_max_ge_r (price * inject_Z volume * commission_rate) 5) as Hmax.
  assert (Hamount : (0 <= price * inject_Z volume * stamp_tax_rate_ m)%Q).
  { apply Qmult_le_0_compat; [apply Qmult_le_0_compat|]; assumption. }
  split.
  - intros side. rewrite calculate_total_commission_unfold. cbv zeta.
    apply round_to_cent_ge_5.
    destruct side, (Matcher.is_shanghai_stock symbol); lra.
  - rewrite !calculate_total_commission_unfold. cbv zeta.
    apply round_to_cent_mono.
    destruct (Matcher.is_shanghai_stock symbol); lra.
Qed.

Lemma total_commission_floor_witness :
  (5 <= Matcher.calculate_total_commission SELL "600000" 10%Q 100 (-1)%Q
          (Matcher.new (fun _ => 0%Q)))%Q.
Proof.
  apply (total_commission_floor "600000" 10%Q 100 (-1)%Q
           (Matcher.new (fun _ => 0%Q))).
  - vm_compute. discriminate.
  - lia.
  - vm_compute. discriminate.
Defined.

(** X12.  With the default stamp-tax rate of 0.001 in the matcher, the
    fee that the exchange charges, [calculate_commission], is the fee
    [calculate_total_commission] of the matcher at the rate 0.00025 for
    every symbol outside the Shanghai market; for a Shanghai symbol and a
    volume that is not negative the exchange charges at most the
    matcher's fee, which adds the transfer fee. *)
Theorem exchange_fee_vs_matcher_fee (side : OrderSide) (symbol : string)
    (price : Q) (volume : Z) (m : OrderMatcher) :
  stamp_tax_rate_ m == 0.001 ->
  (Matcher.is_shanghai_stock symbol = false ->
   Exchange.calculate_commission side price volume
   == Matcher.calculate_total_commission side symbol price volume 0.00025 m)
  /\ (0 <= volume ->
      (Exchange.calculate_commission side price volume
       <= Matcher.calculate_total_commission side symbol price volume 0.00025 m)%Q).
Proof.
  intros Hstamp.
  rewrite calculate_commission_unfold, calculate_total_commission_unfold.
  cbv zeta. split.
  - intros ->. apply round_to_cent_comp.
    destruct side; [ring|]. rewrite Hstamp. ring.
  - intros Hvolume. pose proof (inject_Z_nonneg volume Hvolume) as Hv.
    apply round_to_cent_mono.
    destruct side, (Matcher.is_shanghai_stock symbol); rewrite ?Hstamp; lra.
Qed.

Lemma exchange_fee_vs_matcher_fee_witness :
  Exchange.calculate_commission SELL 10%Q 1000
  == Matcher.calculate_total_commission SELL "000001" 10%Q 1000 0.00025
       (Matcher.new (fun _ => 0%Q)).
Proof.
  apply (exchange_fee_vs_matcher_fee SELL "000001" 10%Q 1000
           (Matcher.new (fun _ => 0%Q))).
  - reflexivity.
  - reflexivity.
Defined.

(** ** The limit queue: repeated drains and removal *)

Section RepeatedDrain.
  Implicit Types (symbol : string) (q : LimitQueue)
    (queues : gmap string (list SimulatedOrder)).

Lemma try_fill_conserves symbol still queues :
  let r := Queue.try_fill symbol still queues in
  r.1 ++ default [] (r.2 !! symbol) = default [] (queues !! symbol)
  /\ (length (default [] (r.2 !! symbol))
      <= pred (length (default [] (queues !! symbol))))%nat.
Proof.
  cbv zeta. unfold Queue.try_fill.
  destruct (queues !! symbol) as [queue|] eqn:Hq; cbn -[Nat.div];
    [|rewrite Hq; cbn; split; [reflexivity|lia]].
  case_bool_decide as Hnil.
  { subst queue. cbn. rewrite Hq. cbn. split; [reflexivity|lia]. }
  destruct still; cbn -[Nat.div].
  - rewrite lookup_insert_eq. cbn -[Nat.div]. rewrite take_drop.
    split; [reflexivity|]. rewrite length_drop.
    pose proof (Nat.le_max_l 1 (length queue / 10)). lia.
  - rewrite lookup_delete_eq. cbn. rewrite app_nil_r. split; [reflexivity|lia].
Qed.

(** The drains of one side, started from orders [out] already
    collected. *)
Lemma drain_fold symbol (flag : Tick -> bool) ticks :
  forall out queues,
  let r :=
    foldl (fun acc tick =>
             let r := Queue.try_fill symbol (flag tick) acc.2 in
             (acc.1 ++ r.1, r.2))
      (out, queues) ticks in
  r.1 ++ default [] (r.2 !! symbol) = out ++ default [] (queues !! symbol)
  /\ (forall symbol', symbol' <> symbol -> r.2 !! symbol' = queues !! symbol')
  /\ (length (default [] (r.2 !! symbol))
      <= length (default [] (queues !! symbol)) - length ticks)%nat.
Proof.
  induction ticks as [|tick ticks IH]; intros out queues; cbn [foldl].
  - cbn. repeat split; auto with lia.
  - cbv zeta in IH |- *. cbn [fst snd].
    destruct (try_fill_conserves symbol (flag tick) queues) as [Hcons Hlen].
    cbv zeta in Hcons, Hlen.
    specialize (IH (out ++ (Queue.try_fill symbol (flag tick) queues).1)
                   (Queue.try_fill symbol (flag tick) queues).2).
    destruct IH as (IH1 & IH2 & IH3).
    split; [|split].
    + rewrite IH1, <- app_assoc, Hcons. reflexivity.
    + intros symbol' Hne. rewrite IH2 by exact Hne.
      apply try_fill_other. congruence.
    + cbn [length]. lia.
Qed.

Lemma try_fill_limit_up_orders_eq symbol tick q :
  Queue.try_fill_limit_up_orders symbol tick q
  = let r :=
      Queue.try_fill symbol
        (Queue.is_at_limit_up symbol (tick_last_price tick) (tick_last_close tick))
        (limit_up_queues_ q) in
    (r.1, {| limit_up_queues_ := r.2; limit_down_queues_ := limit_down_queues_ q |}).
Proof.
  unfold Queue.try_fill_limit_up_orders.
  destruct (Queue.try_fill _ _ _). reflexivity.
Qed.

Lemma try_fill_limit_down_orders_eq symbol tick q :
  Queue.try_fill_limit_down_orders symbol tick q
  = let r :=
      Queue.try_fill symbol
        (Queue.is_at_limit_down symbol (tick_last_price tick) (tick_last_close tick))
        (limit_down_queues_ q) in
    (r.1, {| limit_up_queues_ := limit_up_queues_ q; limit_down_queues_ := r.2 |}).
Proof.
  unfold Queue.try_fill_limit_down_orders.
  destruct (Queue.try_fill _ _ _). reflexivity.
Qed.

Lemma drain_limit_up_fold symbol ticks :
  forall out q,
  let flag tick :=
    Queue.is_at_limit_up symbol (tick_last_price tick) (tick_last_close tick) in
  let r :=
    foldl (fun acc tick =>
             let r := Queue.try_fill_limit_up_orders symbol tick acc.2 in
             (acc.1 ++ r.1, r.2))
      (out, q) ticks in
  let r' :=
    foldl (fun acc tick =>
             let r := Queue.try_fill symbol (flag tick) acc.2 in
             (acc.1 ++ r.1, r.2))
      (out, limit_up_queues_ q) ticks in
  r.1 = r'.1 /\ limit_up_queues_ r.2 = r'.2
  /\ limit_down_queues_ r.2 = limit_down_queues_ q.
Proof.
  induction ticks as [|tick ticks IH]; intros out q; cbn [foldl].
  - cbn. auto.
  - cbv zeta in IH |- *. cbn [fst snd].
    rewrite (try_fill_limit_up_orders_eq symbol tick q). cbn [fst snd].
    exact (IH _ _).
Qed.

Lemma drain_limit_down_fold symbol ticks :
  forall out q,
  let flag tick :=
    Queue.is_at_limit_down symbol (tick_last_price tick) (tick_last_close tick) in
  let r :=
    foldl (fun acc tick =>
             let r := Queue.try_fill_limit_down_orders symbol tick acc.2 in
             (acc.1 ++ r.1, r.2))
      (out, q) ticks in
  let r' :=
    foldl (fun acc tick =>
             let r := Queue.try_fill symbol (flag tick) acc.2 in
             (acc.1 ++ r.1, r.2))
      (out, limit_down_queues_ q) ticks in
  r.1 = r'.1 /\ limit_down_queues_ r.2 = r'.2
  /\ limit_up_queues_ r.2 = limit_up_queues_ q.
Proof.
  induction ticks as [|tick ticks IH]; intros out q; cbn [foldl].
  - cbn. auto.
  - cbv zeta in IH |- *. cbn [fst snd].
    rewrite (try_fill_limit_down_orders_eq symbol tick q). cbn [fst snd].
    exact (IH _ _).
Qed.
End RepeatedDrain.

(** X13.  Draining the limit-up queue of a symbol once per tick of any
    list of ticks loses, duplicates and reorders nothing: the orders
    returned, in call order, followed by the orders still queued are the
    queue as it was.  The queues of other symbols and every limit-down
    queue stay as they were.  After at least as many drains as the queue
    held orders the queue is empty, whatever the ticks say.  The same
    holds for the limit-down side. *)
Theorem repeated_drain_conserves (symbol : string) (ticks : list Tick)
    (q : LimitQueue) :
  let ru := drain_limit_up symbol ticks q in
  let rd := drain_limit_down symbol ticks q in
  (ru.1 ++ Queue.limit_up_queue symbol ru.2 = Queue.limit_up_queue symbol q
   /\ (forall symbol', symbol' <> symbol ->
       limit_up_queues_ ru.2 !! symbol' = limit_up_queues_ q !! symbol')
   /\ limit_down_queues_ ru.2 = limit_down_queues_ q
   /\ ((Queue.get_limit_up_queue_size symbol q <= length ticks)%nat ->
       ru.1 = Queue.limit_up_queue symbol q
       /\ Queue.get_limit_up_queue_size symbol ru.2 = 0%nat))
  /\ (rd.1 ++ Queue.limit_down_queue symbol rd.2 = Queue.limit_down_queue symbol q
      /\ (forall symbol', symbol' <> symbol ->
          limit_down_queues_ rd.2 !! symbol' = limit_down_queues_ q !! symbol')
      /\ limit_up_queues_ rd.2 = limit_up_queues_ q
      /\ ((Queue.get_limit_down_queue_size symbol q <= length ticks)%nat ->
          rd.1 = Queue.limit_down_queue symbol q
          /\ Queue.get_limit_down_queue_size symbol rd.2 = 0%nat)).
Proof.
  cbv zeta.
  unfold Queue.get_limit_up_queue_size, Queue.get_limit_down_queue_size,
    Queue.limit_up_queue, Queue.limit_down_queue, drain_limit_up, drain_limit_down.
  split.
  - destruct (drain_limit_up_fold symbol ticks [] q) as (H1 & H2 & H3).
    cbv zeta in H1, H2, H3. rewrite H1, H2, H3.
    destruct (drain_fold symbol
                (fun tick => Queue.is_at_limit_up symbol (tick_last_price tick)
                               (tick_last_close tick))
                ticks [] (limit_up_queues_ q)) as (C1 & C2 & C3).
    cbv zeta in C1, C2, C3. cbn [app] in C1.
    split; [exact C1|]. split; [exact C2|]. split; [reflexivity|].
    intros Hlen.
    assert (Hnil : length (default [] ((foldl
       (fun acc tick =>
          let r := Queue.try_fill symbol
                     (Queue.is_at_limit_up symbol (tick_last_price tick)
                        (tick_last_close tick)) acc.2 in
          (acc.1 ++ r.1, r.2)) ([], limit_up_queues_ q) ticks).2 !! symbol))
       = 0%nat) by (cbv zeta; lia).
    split; [|exact Hnil].
    apply nil_length_inv in Hnil. cbv zeta in Hnil.
    rewrite Hnil, app_nil_r in C1. exact C1.
  - destruct (drain_limit_down_fold symbol ticks [] q) as (H1 & H2 & H3).
    cbv zeta in H1, H2, H3. rewrite H1, H2, H3.
    destruct (drain_fold symbol
                (fun tick => Queue.is_at_limit_down symbol (tick_last_price tick)
                               (tick_last_close tick))
                ticks [] (limit_down_queues_ q)) as (C1 & C2 & C3).
    cbv zeta in C1, C2, C3. cbn [app] in C1.
    split; [exact C1|]. split; [exact C2|]. split; [reflexivity|].
    intros Hlen.
    assert (Hnil : length (default [] ((foldl
       (fun acc tick =>
          let r := Queue.try_fill symbol
                     (Queue.is_at_limit_down symbol (tick_last_price tick)
                        (tick_last_close tick)) acc.2 in
          (acc.1 ++ r.1, r.2)) ([], limit_down_queues_ q) ticks).2 !! symbol))
       = 0%nat) by (cbv zeta; lia).
    split; [|exact Hnil].
    apply nil_length_inv in Hnil. cbv zeta in Hnil.
    rewrite Hnil, app_nil_r in C1. exact C1.
Qed.

Section Removal.
  Implicit Types (order_id : string) (queue : list SimulatedOrder)
    (queues : gmap string (list SimulatedOrder)).

Lemma erase_first_some order_id queue queue' :
  Queue.erase_first order_id queue = Some queue'
  <-> exists pre order post,
        queue = pre ++ order :: post /\ queue' = pre ++ post
        /\ ord_order_id order = order_id
        /\ Forall (fun o => ord_order_id o <> order_id) pre.
Proof.
  revert queue'. induction queue as [|o queue IH]; intros queue'; cbn.
  - split; [discriminate|]. intros (pre & order & post & Hq & _).
    destruct pre; discriminate.
  - destruct (String.eqb_spec (ord_order_id o) order_id) as [Heq|Hne].
    + split.
      * intros [= <-]. exists [], o, queue. auto.
      * intros (pre & order & post & Hq & -> & Hid & Hpre).
        destruct pre as [|o' pre]; cbn in Hq; injection Hq as -> ->;
          [reflexivity|].
        apply Forall_cons in Hpre as [Hne _]. contradiction.
    + destruct (Queue.erase_first order_id queue) as [rest|]; cbn.
      * split.
        -- intros [= <-].
           destruct (proj1 (IH rest) eq_refl)
             as (pre & order & post & -> & -> & Hid & Hpre).
           exists (o :: pre), order, post. auto.
        -- intros (pre & order & post & Hq & -> & Hid & Hpre).
           destruct pre as [|o' pre]; cbn in Hq; injection Hq as -> Hq;
             [contradiction|].
           apply Forall_cons in Hpre as [_ Hpre]. cbn. f_equal. f_equal.
           assert (Some rest = Some (pre ++ post)) as [= ->]; [|reflexivity].
           apply IH. eauto 8.
      * split; [discriminate|].
        intros (pre & order & post & Hq & -> & Hid & Hpre).
        destruct pre as [|o' pre]; cbn in Hq; injection Hq as -> Hq;
          [contradiction|].
        apply Forall_cons in Hpre as [_ Hpre].
        assert (None = Some (pre ++ post)) by (apply IH; eauto 8).
        discriminate.
Qed.

Lemma erase_first_none order_id queue :
  Queue.erase_first order_id queue = None
  <-> Forall (fun o => ord_order_id o <> order_id) queue.
Proof.
  induction queue as [|o queue IH]; cbn.
  - split; auto.
  - destruct (String.eqb_spec (ord_order_id o) order_id) as [Heq|Hne].
    + split; [discriminate|]. intros H. apply Forall_cons in H as [? _].
      contradiction.
    + rewrite Forall_cons, <- IH.
      destruct (Queue.erase_first order_id queue); cbn; intuition discriminate.
Qed.

Lemma remove_from_some order_id entries queues queues' :
  Queue.remove_from order_id entries queues = Some queues'
  -> exists symbol queue queue',
       (symbol, queue) ∈ entries
       /\ Queue.erase_first order_id queue = Some queue'
       /\ queues' = <[symbol := queue']> queues.
Proof.
  induction entries as [|[symbol queue] entries IH]; cbn; [discriminate|].
  destruct (Queue.erase_first order_id queue) as [queue'|] eqn:Herase.
  - intros [= <-]. exists symbol, queue, queue'.
    split; [apply list_elem_of_here|auto].
  - intros H. destruct (IH H) as (s & qu & qu' & Hin & Her & ->).
    exists s, qu, qu'. split; [apply elem_of_cons; auto|auto].
Qed.

Lemma remove_from_none order_id entries queues :
  Queue.remove_from order_id entries queues = None
  <-> Forall (fun e => Forall (fun o => ord_order_id o <> order_id) e.2) entries.
Proof.
  induction entries as [|[symbol queue] entries IH]; cbn.
  - split; auto.
  - rewrite Forall_cons. cbn. rewrite <- IH, <- erase_first_none.
    destruct (Queue.erase_first order_id queue); intuition discriminate.
Qed.

(** No vector of the map holds an order of that id. *)
Lemma remove_from_none_map order_id queues :
  Queue.remove_from order_id (map_to_list queues) queues = None
  <-> (forall symbol queue order,
         queues !! symbol = Some queue -> order ∈ queue ->
         ord_order_id order <> order_id).
Proof.
  rewrite remove_from_none, Forall_forall. split.
  - intros H symbol queue order Hq Hin.
    apply elem_of_map_to_list in Hq. specialize (H _ Hq). cbn in H.
    rewrite Forall_forall in H. apply H, Hin.
  - intros H [symbol queue] Hin. cbn. apply Forall_forall. intros order Ho.
    apply elem_of_map_to_list in Hin. eapply H; eauto.
Qed.
End Removal.

(** X14.  [remove_from_queue] returns true exactly when some limit-up or
    limit-down vector holds an order of the given id.  It then takes one
    order out: the first of that id in one vector, of a limit-up queue if
    any holds the id and of a limit-down queue otherwise, with the other
    orders of that vector in their order and every other vector as it
    was; the symbol keeps its, possibly empty, vector.  When it returns
    false the queues are as they were. *)
Theorem remove_from_queue_spec (order_id : string) (q : LimitQueue) :
  let r := Queue.remove_from_queue order_id q in
  let held (queues : gmap string (list SimulatedOrder)) :=
    exists symbol queue order,
      queues !! symbol = Some queue /\ order ∈ queue
      /\ ord_order_id order = order_id in
  let removed (queues queues' : gmap string (list SimulatedOrder)) :=
    exists symbol pre order post,
      queues !! symbol = Some (pre ++ order :: post)
      /\ ord_order_id order = order_id
      /\ Forall (fun o => ord_order_id o <> order_id) pre
      /\ queues' = <[symbol := pre ++ post]> queues in
  (r.1 = true <-> held (limit_up_queues_ q) \/ held (limit_down_queues_ q))
  /\ (r.1 = false -> r.2 = q)
  /\ (held (limit_up_queues_ q) ->
      removed (limit_up_queues_ q) (limit_up_queues_ r.2)
      /\ limit_down_queues_ r.2 = limit_down_queues_ q)
  /\ (~ held (limit_up_queues_ q) -> held (limit_down_queues_ q) ->
      removed (limit_down_queues_ q) (limit_down_queues_ r.2)
      /\ limit_up_queues_ r.2 = limit_up_queues_ q).
Proof.
  cbv zeta.
  assert (Hnot : forall queues,
    Queue.remove_from order_id (map_to_list queues) queues = None
    <-> ~ exists symbol queue order,
            queues !! symbol = Some queue /\ order ∈ queue
            /\ ord_order_id order = order_id).
  { intros queues. rewrite remove_from_none_map. split.
    - intros H (symbol & queue & order & Hq & Hin & Hid).
      exact (H symbol queue order Hq Hin Hid).
    - intros H symbol queue order Hq Hin Hid. apply H. eauto 8. }
  assert (Hsome : forall queues queues',
    Queue.remove_from order_id (map_to_list queues) queues = Some queues' ->
    exists symbol pre order post,
      queues !! symbol = Some (pre ++ order :: post)
      /\ ord_order_id order = order_id
      /\ Forall (fun o => ord_order_id o <> order_id) pre
      /\ queues' = <[symbol := pre ++ post]> queues).
  { intros queues queues' H.
    apply remove_from_some in H as (symbol & queue & queue' & Hin & Her & ->).
    apply elem_of_map_to_list in Hin.
    apply erase_first_some in Her as (pre & order & post & -> & -> & Hid & Hpre).
    eauto 10. }
  unfold Queue.remove_from_queue.
  destruct (Queue.remove_from order_id (map_to_list (limit_up_queues_ q))
              (limit_up_queues_ q)) as [up|] eqn:Hup.
  - cbn [fst snd limit_up_queues_ limit_down_queues_].
    assert (Hheld : exists symbol queue order,
              limit_up_queues_ q !! symbol = Some queue /\ order ∈ queue
              /\ ord_order_id order = order_id).
    { destruct (Hsome _ _ Hup) as (symbol & pre & order & post & Hq & Hid & _).
      exists symbol, (pre ++ order :: post), order.
      split; [exact Hq|]. split; [|exact Hid].
      apply elem_of_app. right. apply list_elem_of_here. }
    split; [split; auto|]. split; [discriminate|].
    split; [intros _; split; [apply Hsome, Hup|reflexivity]|].
    intros Hno. contradiction.
  - apply Hnot in Hup.
    destruct (Queue.remove_from order_id (map_to_list (limit_down_queues_ q))
                (limit_down_queues_ q)) as [down|] eqn:Hdown.
    + cbn [fst snd limit_up_queues_ limit_down_queues_].
      assert (Hheld : exists symbol queue order,
                limit_down_queues_ q !! symbol = Some queue /\ order ∈ queue
                /\ ord_order_id order = order_id).
      { destruct (Hsome _ _ Hdown) as (symbol & pre & order & post & Hq & Hid & _).
        exists symbol, (pre ++ order :: post), order.
        split; [exact Hq|]. split; [|exact Hid].
        apply elem_of_app. right. apply list_elem_of_here. }
      split; [split; auto|]. split; [discriminate|].
      split; [intros Hheld'; contradiction|].
      intros _ _. split; [apply Hsome, Hdown|reflexivity].
    + apply Hnot in Hdown. cbn [fst snd].
      split; [split; [discriminate|intros [?|?]; contradiction]|].
      split; [reflexivity|]. split; intros; contradiction.
Qed.

(** ** The ledger: adding to a position, selling, total assets *)

Section TopUp.
  Implicit Types (a : SimulationAccount) (pos : Position).

(** [add_position] on a symbol that is held. *)
Lemma add_position_held symbol volume price d a pos :
  positions_ a !! symbol = Some pos ->
  (Account.add_position symbol volume price d a).1 = true ->
  0 < volume /\ (0 < price)%Q
  /\ positions_ (Account.add_position symbol volume price d a).2 !! symbol
     = Some
         (let price := round_to_cent price in
          let cost := round_to_cent (inject_Z volume * price) in
          let total_cost := (inject_Z (pos_volume pos) * pos_avg_cost pos + cost)%Q in
          let volume' := pos_volume pos + volume in
          let avg_cost' := round_to_cent (total_cost / inject_Z volume') in
          let market_value' :=
            round_to_cent (inject_Z volume' * pos_current_price pos) in
          {| pos_symbol := pos_symbol pos; pos_volume := volume';
             pos_available_volume := pos_available_volume pos;
             pos_frozen_volume := pos_frozen_volume pos;
             pos_avg_cost := avg_cost';
             pos_current_price := pos_current_price pos;
             pos_market_value := market_value';
             pos_unrealized_pnl :=
               round_to_cent (market_value' - inject_Z volume' * avg_cost');
             pos_buy_date := pos_buy_date pos |}).
Proof.
  intros Hpos. unfold Account.add_position. rewrite Hpos.
  destruct (String.eqb symbol ""); [discriminate|].
  destruct (Z.leb_spec volume 0); [discriminate|].
  destruct (Qle_bool price 0) eqn:Hprice; [discriminate|].
  apply Qle_bool_false in Hprice. cbn [orb].
  destruct (1000000000 <? volume); [discriminate|].
  destruct (Qltb 1000000 price); [discriminate|].
  intros _. cbn [snd Account.set_positions positions_].
  rewrite lookup_insert_eq. auto.
Qed.

(** A whole number of shares at a price in whole cents costs a whole
    number of cents. *)
Lemma round_to_cent_shares volume x :
  round_to_cent (inject_Z volume * round_to_cent x)
  == inject_Z volume * round_to_cent x.
Proof.
  unfold round_to_cent at 2 3.
  set (k := std_round (x * 100)).
  assert (Hk : inject_Z volume * (inject_Z k / 100) == inject_Z (volume * k) / 100).
  { rewrite inject_Z_mult. field. }
  rewrite (round_to_cent_comp _ _ Hk), round_to_cent_cents, Hk. reflexivity.
Qed.
End TopUp.

(** X15.  Adding shares to a position that is already held keeps the
    position's buy date, its sellable count and its frozen volume.  On
    any day other than that buy date [can_sell] then allows everything
    that is not frozen, the shares just added included; on the buy date
    itself it allows the sellable count as it was. *)
Theorem top_up_sellable_at_once (symbol : string) (volume : Z) (price : Q)
    (d : Z) (a : SimulationAccount) (pos : Position) :
  positions_ a !! symbol = Some pos ->
  (Account.add_position symbol volume price d a).1 = true ->
  let a' := (Account.add_position symbol volume price d a).2 in
  (exists pos',
     positions_ a' !! symbol = Some pos'
     /\ pos_volume pos' = pos_volume pos + volume
     /\ pos_available_volume pos' = pos_available_volume pos
     /\ pos_frozen_volume pos' = pos_frozen_volume pos
     /\ pos_buy_date pos' = pos_buy_date pos)
  /\ (forall v today, today <> pos_buy_date pos ->
      Account.can_sell symbol v today a' = true
      <-> v <= pos_volume pos + volume - pos_frozen_volume pos)
  /\ (forall v,
      Account.can_sell symbol v (pos_buy_date pos) a' = true
      <-> v <= pos_available_volume pos).
Proof.
  intros Hpos Hok. cbv zeta.
  destruct (add_position_held symbol volume price d a pos Hpos Hok)
    as (_ & _ & Hnew).
  cbv zeta in Hnew. unfold Account.can_sell. rewrite Hnew.
  cbn [pos_buy_date pos_volume pos_frozen_volume pos_available_volume].
  split; [eexists; split; [reflexivity|]; cbn; auto|]. split.
  - intros v today Hne.
    destruct (Z.eqb_spec (pos_buy_date pos) today); [congruence|].
    apply Z.leb_le.
  - intros v. rewrite Z.eqb_refl. apply Z.leb_le.
Qed.

Lemma top_up_sellable_at_once_witness :
  Account.can_sell "000001" 1500 1
    (Account.add_position "000001" 500 12%Q 1 demo_holder).2 = true.
Proof.
  destruct (top_up_sellable_at_once "000001" 500 12%Q 1 demo_holder demo_position)
    as (_ & Hsell & _).
  - reflexivity.
  - reflexivity.
  - apply Hsell; [discriminate|vm_compute; discriminate].
Defined.

(** X16.  After shares are added to a held position of a volume that is
    not negative, the new average cost lies between the old average cost
    and the purchase price, both rounded to cents. *)
Theorem top_up_average_cost (symbol : string) (volume : Z) (price : Q) (d : Z)
    (a : SimulationAccount) (pos : Position) :
  positions_ a !! symbol = Some pos -> 0 <= pos_volume pos ->
  (Account.add_position symbol volume price d a).1 = true ->
  exists pos',
    positions_ (Account.add_position symbol volume price d a).2 !! symbol
    = Some pos'
    /\ ((pos_avg_cost pos <= round_to_cent price)%Q ->
        (round_to_cent (pos_avg_cost pos) <= pos_avg_cost pos'
         <= round_to_cent price)%Q)
    /\ ((round_to_cent price <= pos_avg_cost pos)%Q ->
        (round_to_cent price <= pos_avg_cost pos'
         <= round_to_cent (pos_avg_cost pos))%Q).
Proof.
  intros Hpos Hheld Hok.
  destruct (add_position_held symbol volume price d a pos Hpos Hok)
    as (Hvolume & _ & Hnew).
  cbv zeta in Hnew. eexists. split; [exact Hnew|].
  cbn [pos_avg_cost].
  set (p := round_to_cent price).
  set (c := pos_avg_cost pos).
  assert (Hp : round_to_cent p == p) by apply round_to_cent_idem.
  assert (Hv : (0 < inject_Z volume)%Q).
  { change 0%Q with (inject_Z 0). rewrite <- Zlt_Qlt. exact Hvolume. }
  assert (Hh : (0 <= inject_Z (pos_volume pos))%Q) by (apply inject_Z_nonneg, Hheld).
  assert (Hsum : (0 < inject_Z (pos_volume pos + volume))%Q).
  { rewrite inject_Z_plus. lra. }
  assert (Htotal :
    (inject_Z (pos_volume pos) * c + round_to_cent (inject_Z volume * p))
      / inject_Z (pos_volume pos + volume)
    == (inject_Z (pos_volume pos) * c + inject_Z volume * p)
      / inject_Z (pos_volume pos + volume)).
  { unfold p. rewrite round_to_cent_shares. reflexivity. }
  rewrite (round_to_cent_comp _ _ Htotal).
  split; intros Hle.
  - split.
    + apply round_to_cent_mono, Qle_shift_div_l; [exact Hsum|].
      rewrite inject_Z_plus. nra.
    + eapply Qle_trans; [|apply Qle_lteq; right; exact Hp].
      apply round_to_cent_mono, Qle_shift_div_r; [exact Hsum|].
      rewrite inject_Z_plus. nra.
  - split.
    + eapply Qle_trans; [apply Qle_lteq; right; symmetry; exact Hp|].
      apply round_to_cent_mono, Qle_shift_div_l; [exact Hsum|].
      rewrite inject_Z_plus. nra.
    + apply round_to_cent_mono, Qle_shift_div_r; [exact Hsum|].
      rewrite inject_Z_plus. nra.
Qed.

Lemma top_up_average_cost_witness :
  exists pos',
    positions_ (Account.add_position "000001" 500 12%Q 1 demo_holder).2 !! "000001"
    = Some pos'
    /\ ((10 <= round_to_cent 12)%Q ->
        (round_to_cent 10 <= pos_avg_cost pos' <= round_to_cent 12)%Q)
    /\ ((round_to_cent 12 <= 10)%Q ->
        (round_to_cent 12 <= pos_avg_cost pos' <= round_to_cent 10)%Q).
Proof.
  apply (top_up_average_cost "000001" 500 12%Q 1 demo_holder demo_position).
  - reflexivity.
  - vm_compute. discriminate.
  - reflexivity.
Defined.

Section SellFill.
  Implicit Types (a : SimulationAccount) (ex : SimulatedExchange).

Lemma freeze_cash_total amount a :
  available_cash_ (Account.freeze_cash amount a).2
  + frozen_cash_ (Account.freeze_cash amount a).2
  == available_cash_ a + frozen_cash_ a.
Proof. unfold Account.freeze_cash. repeat case_match; simpl; ring. Qed.

Lemma unfreeze_cash_total amount a :
  available_cash_ (Account.unfreeze_cash amount a)
  + frozen_cash_ (Account.unfreeze_cash amount a)
  == available_cash_ a + frozen_cash_ a.
Proof. unfold Account.unfreeze_cash. repeat case_match; simpl; ring. Qed.

Lemma unfreeze_position_cash symbol volume a :
  available_cash_ (Account.unfreeze_position symbol volume a) = available_cash_ a
  /\ frozen_cash_ (Account.unfreeze_position symbol volume a) = frozen_cash_ a.
Proof. unfold Account.unfreeze_position. repeat case_match; simpl; auto. Qed.

Lemma freeze_position_cash symbol volume a :
  available_cash_ (Account.freeze_position symbol volume a).2 = available_cash_ a
  /\ frozen_cash_ (Account.freeze_position symbol volume a).2 = frozen_cash_ a.
Proof. unfold Account.freeze_position. repeat case_match; simpl; auto. Qed.

Lemma reduce_position_cash symbol volume price pnl a :
  (Account.reduce_position symbol volume price pnl a).1.1 = true ->
  available_cash_ (Account.reduce_position symbol volume price pnl a).2
  = (available_cash_ a
     + round_to_cent (inject_Z volume * round_to_cent price))%Q
  /\ frozen_cash_ (Account.reduce_position symbol volume price pnl a).2
     = frozen_cash_ a.
Proof.
  unfold Account.reduce_position. repeat case_match; simpl; try discriminate.
  all: auto.
Qed.
End SellFill.

(** X17.  When [process_fill] commits a SELL, the cash of the account,
    available and frozen together, grows by exactly the revenue, the
    filled volume times the fill price rounded to cents: the commission
    that the trade record carries is frozen and released again, never
    taken off. *)
Theorem sell_fill_credits_full_revenue (id : string) (order : SimulatedOrder)
    (result : MatchResult) (d : Z) (ex : SimulatedExchange) :
  ord_side order = SELL ->
  let ex' := Exchange.process_fill id order result d ex in
  ord_status <$> orders_ ex' !! id = Some FILLED ->
  available_cash_ (account_ ex') + frozen_cash_ (account_ ex')
  == available_cash_ (account_ ex) + frozen_cash_ (account_ ex)
     + round_to_cent
         (inject_Z (mr_filled_volume result)
          * round_to_cent (mr_filled_price result)).
Proof.
  intros Hside. cbv zeta. unfold Exchange.process_fill. rewrite Hside.
  pose proof (reduce_position_cash (ord_symbol order) (mr_filled_volume result)
                (mr_filled_price result) 0%Q (account_ ex)) as Hsold.
  destruct (Account.reduce_position _ _ _ _ _) as [[ok pnl] a1].
  cbn [fst snd] in Hsold. destruct ok; cbn [negb].
  - destruct (Hsold eq_refl) as [Hav Hfr].
    pose proof (freeze_cash_total
                  (Exchange.calculate_commission (ord_side order)
                     (mr_filled_price result) (mr_filled_volume result)) a1)
      as Hfreeze.
    rewrite Hside in Hfreeze.
    destruct (Account.freeze_cash _ a1) as [ok2 a2]. cbn [snd] in Hfreeze.
    intros _. cbn [Exchange.commit_fill Exchange.set_account account_].
    match goal with |- context [Account.unfreeze_position ?s ?v ?b] =>
      destruct (unfreeze_position_cash s v b) as [-> ->] end.
    rewrite unfreeze_cash_total, Hfreeze, Hav, Hfr. ring.
  - unfold Exchange.process_reject.
    cbn [Exchange.store_order orders_]. rewrite lookup_insert_eq. discriminate.
Qed.

Lemma sell_fill_credits_full_revenue_witness :
  let ex := run demo_exchange demo_sell_150_submitted in
  let order :=
    default (sample_order "000001" SELL LIMIT 10%Q 150)
      (orders_ ex !! "ORDER_6_000001_2") in
  let ex' :=
    Exchange.process_fill "ORDER_6_000001_2" order (MatchResult_fill 10%Q 150) 1 ex in
  available_cash_ (account_ ex') + frozen_cash_ (account_ ex')
  == available_cash_ (account_ ex) + frozen_cash_ (account_ ex)
     + round_to_cent (inject_Z 150 * round_to_cent 10).
Proof.
  cbv zeta.
  apply (sell_fill_credits_full_revenue "ORDER_6_000001_2"
           (default (sample_order "000001" SELL LIMIT 10%Q 150)
              (orders_ (run demo_exchange demo_sell_150_submitted)
                 !! "ORDER_6_000001_2"))
           (MatchResult_fill 10%Q 150) 1
           (run demo_exchange demo_sell_150_submitted)).
  - vm_compute. reflexivity.
  - vm_compute. reflexivity.
Defined.

Section TotalAssets.
  Implicit Types (a : SimulationAccount) (ex : SimulatedExchange)
    (ps : gmap string Position).

Lemma Qeq_preorder : PreOrder Qeq.
Proof. split; [exact Qeq_refl|exact Qeq_trans]. Qed.
#[local] Existing Instance Qeq_preorder.

Lemma market_value_insert ps symbol pos pos' :
  ps !! symbol = Some pos ->
  pos_market_value pos' == pos_market_value pos ->
  map_fold (fun _ p acc => (acc + pos_market_value p)%Q) 0%Q (<[symbol := pos']> ps)
  == map_fold (fun _ p acc => (acc + pos_market_value p)%Q) 0%Q ps.
Proof.
  intros Hpos Hvalue.
  assert (Hproper : forall (j : string) (z : Position),
            Proper (Qeq ==> Qeq) (fun acc => (acc + pos_market_value z)%Q)).
  { intros _ z x y Hxy. rewrite Hxy. reflexivity. }
  assert (Hcomm : forall (ps' : gmap string Position) (j1 j2 : string)
                    (z1 z2 : Position) (y : Q),
            j1 <> j2 -> ps' !! j1 = Some z1 -> ps' !! j2 = Some z2 ->
            y + pos_market_value z2 + pos_market_value z1
            == y + pos_market_value z1 + pos_market_value z2).
  { intros. ring. }
  rewrite (map_fold_delete Qeq _ 0%Q symbol pos' (<[symbol := pos']> ps) Hproper
             (Hcomm _) (lookup_insert_eq _ _ _)).
  rewrite (map_fold_delete Qeq _ 0%Q symbol pos ps Hproper (Hcomm _) Hpos).
  rewrite delete_insert_eq, Hvalue. reflexivity.
Qed.

Lemma market_value_unlock d ps :
  map_fold (fun _ p acc => (acc + pos_market_value p)%Q) 0%Q
    (Account.unlock d <$> ps)
  = map_fold (fun _ p acc => (acc + pos_market_value p)%Q) 0%Q ps.
Proof.
  rewrite map_fold_fmap, !map_fold_foldr.
  apply foldr_ext; [|reflexivity..].
  intros [symbol pos] acc. cbn. unfold Account.unlock.
  destruct (pos_buy_date pos <? d); reflexivity.
Qed.

Lemma total_assets_eq a a' :
  available_cash_ a' + frozen_cash_ a' == available_cash_ a + frozen_cash_ a ->
  map_fold (fun _ p acc => (acc + pos_market_value p)%Q) 0%Q (positions_ a')
  == map_fold (fun _ p acc => (acc + pos_market_value p)%Q) 0%Q (positions_ a) ->
  Account.get_total_assets a' == Account.get_total_assets a.
Proof. unfold Account.get_total_assets. cbv zeta. intros Hcash Hvalue. lra. Qed.

Lemma freeze_cash_total_assets amount a :
  Account.get_total_assets (Account.freeze_cash amount a).2
  == Account.get_total_assets a.
Proof.
  apply total_assets_eq; [apply freeze_cash_total|].
  rewrite (proj2 (freeze_cash_frame amount a)). reflexivity.
Qed.

Lemma unfreeze_cash_total_assets amount a :
  Account.get_total_assets (Account.unfreeze_cash amount a)
  == Account.get_total_assets a.
Proof.
  apply total_assets_eq; [apply unfreeze_cash_total|].
  rewrite (proj2 (unfreeze_cash_frame amount a)). reflexivity.
Qed.

Lemma freeze_position_total_assets symbol volume a :
  Account.get_total_assets (Account.freeze_position symbol volume a).2
  == Account.get_total_assets a.
Proof.
  apply total_assets_eq.
  - destruct (freeze_position_cash symbol volume a) as [-> ->]. reflexivity.
  - unfold Account.freeze_position.
    destruct (volume <=? 0); [reflexivity|].
    destruct (positions_ a !! symbol) as [pos|] eqn:Hpos; [|reflexivity].
    destruct (_ <? volume); [reflexivity|].
    cbn [snd Account.set_positions positions_].
    apply (market_value_insert _ _ pos); [exact Hpos|reflexivity].
Qed.

Lemma unfreeze_position_total_assets symbol volume a :
  Account.get_total_assets (Account.unfreeze_position symbol volume a)
  == Account.get_total_assets a.
Proof.
  apply total_assets_eq.
  - destruct (unfreeze_position_cash symbol volume a) as [-> ->]. reflexivity.
  - unfold Account.unfreeze_position.
    destruct (volume <=? 0); [reflexivity|].
    destruct (positions_ a !! symbol) as [pos|] eqn:Hpos; [|reflexivity].
    cbn [Account.set_positions positions_].
    apply (market_value_insert _ _ pos); [exact Hpos|reflexivity].
Qed.
End TotalAssets.

(** X18.  Submitting an order, cancelling an order and the daily update
    leave the total assets of the account, [get_total_assets], as they
    were: they only move cash between the available and the frozen
    bucket, or shares between free, frozen and sellable. *)
Theorem total_assets_frame (ex : SimulatedExchange) :
  (forall order id_ms now_ms,
     Account.get_total_assets
       (account_ (Exchange.submit_order order id_ms now_ms ex).2)
     == Account.get_total_assets (account_ ex))
  /\ (forall order_id now_ms,
      Account.get_total_assets
        (account_ (Exchange.cancel_order order_id now_ms ex).2)
      == Account.get_total_assets (account_ ex))
  /\ (forall current_date,
      Account.get_total_assets
        (account_ (Exchange.update_daily current_date ex))
      == Account.get_total_assets (account_ ex)).
Proof.
  split; [|split].
  - intros order id_ms now_ms.
    destruct (submit_order_cases order id_ms now_ms ex)
      as (_ & _ & _ & _ & _ & Hcases).
    cbv zeta in Hcases.
    destruct Hcases as [[_ ->]|(_ & _ & _ & Hside)]; [reflexivity|].
    destruct (ord_side order).
    + pose proof (freeze_cash_total_assets (Exchange.freeze_amount order)
                    (account_ ex)) as Htotal.
      rewrite Hside in Htotal. exact Htotal.
    + destruct Hside as [_ Hfreeze].
      pose proof (freeze_position_total_assets (ord_symbol order)
                    (ord_volume order) (account_ ex)) as Htotal.
      rewrite Hfreeze in Htotal. exact Htotal.
  - intros order_id now_ms. unfold Exchange.cancel_order.
    destruct (orders_ ex !! order_id) as [order|]; [|reflexivity].
    destruct (negb _); [reflexivity|].
    cbn [snd Exchange.store_order Exchange.set_account account_].
    destruct (ord_side order);
      [apply unfreeze_cash_total_assets|apply unfreeze_position_total_assets].
  - intros current_date. unfold Exchange.update_daily.
    cbn [Exchange.set_account account_].
    apply total_assets_eq; [reflexivity|].
    unfold Account.update_available_volume.
    cbn [Account.set_positions positions_].
    rewrite market_value_unlock. reflexivity.
Qed.

(** ** The order registry: ids, settled orders, trades *)

Section OrderIds.

Lemma append_cons c (s1 s2 : string) : String c s1 +:+ s2 = String c (s1 +:+ s2).
Proof. reflexivity. Qed.

Lemma append_assoc (s1 s2 s3 : string) : (s1 +:+ s2) +:+ s3 = s1 +:+ (s2 +:+ s3).
Proof.
  induction s1 as [|c s1 IH]; [reflexivity|].
  rewrite !append_cons, IH. reflexivity.
Qed.

Lemma pretty_N_go_underscore_free (x : N) (s : string) :
  underscore_free s -> underscore_free (pretty_N_go x s).
Proof.
  revert s. induction (N.lt_wf_0 x) as [x _ IH]; intros s Hs.
  assert (x = 0 \/ 0 < x)%N as [->|Hx] by lia.
  - rewrite pretty_N_go_0. exact Hs.
  - rewrite pretty_N_go_step by exact Hx. apply IH.
    + apply N.div_lt; [exact Hx|reflexivity].
    + split; [|exact Hs]. unfold pretty_N_char.
      repeat case_match; discriminate.
Qed.

Lemma pretty_Z_underscore_free (k : Z) : underscore_free (pretty k).
Proof.
  destruct k as [|p|p]; unfold pretty, pretty_Z.
  - cbn. split; [discriminate|exact I].
  - unfold pretty, pretty_positive, pretty, pretty_N.
    destruct (decide (N.pos p = 0%N)); [discriminate|].
    apply pretty_N_go_underscore_free. exact I.
  - rewrite append_cons. split; [discriminate|].
    change ("" +:+ pretty p) with (pretty p).
    unfold pretty, pretty_positive, pretty, pretty_N.
    destruct (decide (N.pos p = 0%N)); [discriminate|].
    apply pretty_N_go_underscore_free. exact I.
Qed.

(** What follows the last underscore of a string is determined by the
    string. *)
Lemma last_field_unique (a b p q : string) :
  underscore_free p -> underscore_free q ->
  a +:+ "_" +:+ p = b +:+ "_" +:+ q -> p = q.
Proof.
  intros Hp Hq. revert b.
  assert (Hfree : forall s t, underscore_free t -> t = s +:+ "_" +:+ q -> False).
  { intros s t. revert t. induction s as [|c s IH]; intros t Ht ->.
    - destruct Ht as [Hc _]. apply Hc. reflexivity.
    - destruct Ht as [_ Ht]. exact (IH _ Ht eq_refl). }
  assert (Hfree' : forall s t, underscore_free t -> t = s +:+ "_" +:+ p -> False).
  { intros s t. revert t. induction s as [|c s IH]; intros t Ht ->.
    - destruct Ht as [Hc _]. apply Hc. reflexivity.
    - destruct Ht as [_ Ht]. exact (IH _ Ht eq_refl). }
  induction a as [|c a IH]; intros [|c' b] Heq.
  - injection Heq as Heq. exact Heq.
  - injection Heq as _ Heq. destruct (Hfree b p Hp Heq).
  - injection Heq as _ Heq. destruct (Hfree' a q Hq (eq_sym Heq)).
  - injection Heq as _ Heq. exact (IH b Heq).
Qed.
End OrderIds.

Section Turn.
  Implicit Types (ex : SimulatedExchange) (id : string) (order : SimulatedOrder).

Lemma process_reject_registry id order reason ex :
  orders_ (Exchange.process_reject id order reason ex)
  = <[id := Exchange.with_status order REJECTED]> (orders_ ex)
  /\ trade_history_ (Exchange.process_reject id order reason ex) = trade_history_ ex
  /\ order_counter_ (Exchange.process_reject id order reason ex) = order_counter_ ex
  /\ current_time_ (Exchange.process_reject id order reason ex) = current_time_ ex.
Proof. unfold Exchange.process_reject. cbn. auto. Qed.

(** What [process_fill] writes: a rejection, or the filled order and one
    more trade record. *)
Lemma process_fill_registry id order result d ex :
  let ex' := Exchange.process_fill id order result d ex in
  order_counter_ ex' = order_counter_ ex
  /\ current_time_ ex' = current_time_ ex
  /\ ((orders_ ex' = <[id := Exchange.with_status order REJECTED]> (orders_ ex)
       /\ trade_history_ ex' = trade_history_ ex)
      \/ (orders_ ex' = <[id := filled_order order result (current_time_ ex)]> (orders_ ex)
          /\ exists trade,
               trade_history_ ex' = trade_history_ ex ++ [trade]
               /\ trade_order_id trade = ord_order_id order
               /\ trade_symbol trade = ord_symbol order
               /\ trade_side trade = ord_side order
               /\ trade_price trade = mr_filled_price result
               /\ trade_volume trade = mr_filled_volume result
               /\ trade_trade_time trade = current_time_ ex
               /\ trade_commission trade
                  = Exchange.calculate_commission (ord_side order)
                      (mr_filled_price result) (mr_filled_volume result))).
Proof.
  cbv zeta. unfold Exchange.process_fill.
  destruct (ord_side order) eqn:Hside.
  - destruct (Account.freeze_cash _ _) as [[] a]; cbn [negb].
    + destruct (Account.add_position _ _ _ _ _) as [? a'].
      cbn [Exchange.commit_fill Exchange.set_account orders_ trade_history_
           order_counter_ current_time_ account_].
      split; [reflexivity|]. split; [reflexivity|]. right.
      split; [reflexivity|]. eexists. split; [reflexivity|].
      cbn. rewrite Hside. auto 10.
    + destruct (process_reject_registry id order "Insufficient cash after fill"
                  (Exchange.set_account ex a)) as (H1 & H2 & H3 & H4).
      rewrite H1, H2, H3, H4. cbn.
      split; [reflexivity|]. split; [reflexivity|]. left. split; reflexivity.
  - destruct (Account.reduce_position _ _ _ _ _) as [[[] pnl] a]; cbn [negb].
    + destruct (Account.freeze_cash _ _) as [? a'].
      cbn [Exchange.commit_fill Exchange.set_account orders_ trade_history_
           order_counter_ current_time_ account_].
      split; [reflexivity|]. split; [reflexivity|]. right.
      split; [reflexivity|]. eexists. split; [reflexivity|].
      cbn. rewrite Hside. auto 10.
    + destruct (process_reject_registry id order "Failed to reduce position"
                  (Exchange.set_account ex a)) as (H1 & H2 & H3 & H4).
      rewrite H1, H2, H3, H4. cbn.
      split; [reflexivity|]. split; [reflexivity|]. left. split; reflexivity.
Qed.

(** One turn of the matching loop: nothing happens, or the visited order,
    PENDING and of the tick's symbol, is rejected, or it is filled and
    its trade recorded. *)
Lemma on_tick_order_outcome tick d ex id :
  let ex' := Exchange.on_tick_order tick d ex id in
  order_counter_ ex' = order_counter_ ex
  /\ current_time_ ex' = current_time_ ex
  /\ ((orders_ ex' = orders_ ex /\ trade_history_ ex' = trade_history_ ex)
      \/ exists order,
           orders_ ex !! id = Some order
           /\ ord_status order = PENDING
           /\ ord_symbol order = tick_symbol tick
           /\ ((orders_ ex' = <[id := Exchange.with_status order REJECTED]> (orders_ ex)
                /\ trade_history_ ex' = trade_history_ ex)
               \/ (let result :=
                     (Matcher.try_match_order order tick true (matcher_ ex)).1 in
                   mr_success result = true
                   /\ orders_ ex'
                      = <[id := filled_order order result (current_time_ ex)]>
                          (orders_ ex)
                   /\ exists trade,
                        trade_history_ ex' = trade_history_ ex ++ [trade]
                        /\ trade_order_id trade = ord_order_id order
                        /\ trade_symbol trade = ord_symbol order
                        /\ trade_side trade = ord_side order
                        /\ trade_price trade = mr_filled_price result
                        /\ trade_volume trade = mr_filled_volume result
                        /\ trade_trade_time trade = current_time_ ex
                        /\ trade_commission trade
                           = Exchange.calculate_commission (ord_side order)
                               (mr_filled_price result)
                               (mr_filled_volume result)))).
Proof.
  cbv zeta. unfold Exchange.on_tick_order.
  destruct (orders_ ex !! id) as [order|] eqn:Hid; [|auto].
  destruct (bool_decide_reflect (ord_status order = PENDING)) as [Hst|Hst];
    cbn [negb]; [|auto].
  destruct (String.eqb_spec (ord_symbol order) (tick_symbol tick)) as [Hsym|Hsym];
    cbn [negb]; [|auto].
  destruct (Matcher.try_match_order order tick true (matcher_ ex)) as [result m]
    eqn:Hmatch.
  cbn [fst]. destruct (mr_success result) eqn:Hok.
  - destruct (process_fill_registry id order result d (Exchange.set_matcher ex m))
      as (H1 & H2 & H3).
    cbv zeta in H1, H2, H3.
    cbn [Exchange.set_matcher order_counter_ current_time_ orders_ trade_history_]
      in H1, H2, H3.
    split; [exact H1|]. split; [exact H2|]. right. exists order.
    split; [reflexivity|]. split; [exact Hst|]. split; [exact Hsym|].
    destruct H3 as [H3|[H3 H4]];
      [left; exact H3|right; rewrite Hmatch; cbn [fst];
       split; [exact Hok|split; [exact H3|exact H4]]].
  - destruct (_ && _); [|auto].
    destruct (process_reject_registry id order (mr_reject_reason result)
                (Exchange.set_matcher ex m)) as (H1 & H2 & H3 & H4).
    cbn [Exchange.set_matcher order_counter_ current_time_ orders_ trade_history_]
      in H1, H2, H3, H4.
    split; [exact H3|]. split; [exact H4|]. right. exists order.
    split; [reflexivity|]. split; [exact Hst|]. split; [exact Hsym|].
    left. auto.
Qed.

Lemma cancel_order_registry order_id now_ms ex :
  let r := Exchange.cancel_order order_id now_ms ex in
  order_counter_ r.2 = order_counter_ ex
  /\ trade_history_ r.2 = trade_history_ ex
  /\ current_time_ r.2 = current_time_ ex
  /\ ((r.1 = false /\ r.2 = ex)
      \/ exists order,
           r.1 = true /\ orders_ ex !! order_id = Some order
           /\ ord_status order = PENDING
           /\ orders_ r.2 = <[order_id := cancelled_order order now_ms]> (orders_ ex)).
Proof.
  cbv zeta. unfold Exchange.cancel_order.
  destruct (orders_ ex !! order_id) as [order|] eqn:Hid; [|cbn; auto 10].
  destruct (bool_decide_reflect (ord_status order = PENDING)) as [Hst|Hst];
    cbn [negb]; [|cbn; auto 10].
  cbn [fst snd Exchange.store_order Exchange.set_account order_counter_
       trade_history_ current_time_ orders_].
  split; [reflexivity|]. split; [reflexivity|]. split; [reflexivity|].
  right. exists order. split; [reflexivity|]. split; [reflexivity|].
  split; [exact Hst|]. reflexivity.
Qed.
End Turn.

Section RegistryInvariant.
  Implicit Types (ex : SimulatedExchange) (id : string) (order : SimulatedOrder).

Lemma id_counter_unique id k k' :
  id_counter_is id k -> id_counter_is id k' -> k = k'.
Proof.
  intros [a Ha] [b Hb]. apply (inj pretty).
  apply (last_field_unique a b); [apply pretty_Z_underscore_free..|].
  congruence.
Qed.

Lemma generate_order_id_counter symbol ms ex :
  id_counter_is (Exchange.generate_order_id symbol ms ex).1 (order_counter_ ex + 1).
Proof.
  exists ("ORDER_" +:+ pretty ms +:+ "_" +:+ symbol).
  unfold Exchange.generate_order_id. cbn [fst].
  rewrite !append_assoc. reflexivity.
Qed.

(** The id that [generate_order_id] gives is not in the registry. *)
Lemma generate_order_id_fresh symbol ms ex :
  ids_ok ex -> orders_ ex !! (Exchange.generate_order_id symbol ms ex).1 = None.
Proof.
  intros [_ Hids].
  destruct (orders_ ex !! _) as [order|] eqn:Hid; [|reflexivity].
  apply Hids in Hid as (_ & k & Hk & Hrange).
  pose proof (id_counter_unique _ _ _ Hk (generate_order_id_counter symbol ms ex)).
  lia.
Qed.

Lemma registry_inv_unchanged ex ex' :
  orders_ ex' = orders_ ex -> trade_history_ ex' = trade_history_ ex ->
  order_counter_ ex' = order_counter_ ex ->
  registry_inv ex -> registry_inv ex'.
Proof.
  unfold registry_inv, ids_ok, trades_ok. intros -> -> ->. auto.
Qed.

(** A PENDING entry is settled by an order that is not FILLED. *)
Lemma registry_inv_settle ex ex' id order order' :
  registry_inv ex ->
  orders_ ex !! id = Some order -> ord_status order = PENDING ->
  orders_ ex' = <[id := order']> (orders_ ex) ->
  trade_history_ ex' = trade_history_ ex ->
  order_counter_ ex' = order_counter_ ex ->
  ord_order_id order' = ord_order_id order ->
  order_ok order' -> ord_status order' <> FILLED ->
  registry_inv ex'.
Proof.
  intros ([Hsize Hids] & Hok & Htr & Hdup & Hfilled) Hid Hst Hord Hhist Hcount
    Hsame Hok' Hnot.
  unfold registry_inv, ids_ok, trades_ok. rewrite Hord, Hhist, Hcount.
  split; [split|split; [|split; [|split]]].
  - rewrite map_size_insert_Some by eauto. exact Hsize.
  - apply map_Forall_insert_2; [|exact Hids].
    destruct (Hids _ _ Hid) as [Hkey Hk]. split; [congruence|exact Hk].
  - apply map_Forall_insert_2; assumption.
  - eapply Forall_impl; [exact Htr|]. intros tr (o & Ho & Hof).
    exists o. split; [|exact Hof].
    rewrite lookup_insert_ne; [exact Ho|].
    intros Heq. rewrite <- Heq in Ho. destruct Hof as [Hfill _]. congruence.
  - exact Hdup.
  - apply map_Forall_insert_2; [contradiction|exact Hfilled].
Qed.

(** A PENDING entry is filled and its trade recorded. *)
Lemma registry_inv_fill ex ex' id order result now trade :
  registry_inv ex ->
  orders_ ex !! id = Some order -> ord_status order = PENDING ->
  orders_ ex' = <[id := filled_order order result now]> (orders_ ex) ->
  trade_history_ ex' = trade_history_ ex ++ [trade] ->
  order_counter_ ex' = order_counter_ ex ->
  trade_order_id trade = ord_order_id order ->
  trade_symbol trade = ord_symbol order ->
  trade_side trade = ord_side order ->
  trade_volume trade = mr_filled_volume result ->
  trade_trade_time trade = now ->
  mr_filled_volume result = ord_volume order ->
  registry_inv ex'.
Proof.
  intros ([Hsize Hids] & Hok & Htr & Hdup & Hfilled) Hid Hst Hord Hhist Hcount
    Htid Hsym Hside Hvol Htime Hwhole.
  destruct (Hids _ _ Hid) as [Hkey Hk].
  assert (Hnew : id ∉ trade_order_id <$> trade_history_ ex).
  { intros Hin. apply list_elem_of_fmap in Hin as (tr & -> & Hin).
    rewrite Forall_forall in Htr. destruct (Htr _ Hin) as (o & Ho & Hfill & _).
    congruence. }
  unfold registry_inv, ids_ok, trades_ok. rewrite Hord, Hhist, Hcount.
  split; [split|split; [|split; [|split]]].
  - rewrite map_size_insert_Some by eauto. exact Hsize.
  - apply map_Forall_insert_2; [|exact Hids]. split; [exact Hkey|exact Hk].
  - apply map_Forall_insert_2; [|exact Hok].
    destruct (Hok _ _ Hid) as (_ & _ & _ & Hpos).
    unfold order_ok. cbn.
    split; [discriminate|]. split; [auto|]. split; [congruence|].
    intros _. apply Hpos. congruence.
  - apply Forall_app. split.
    + eapply Forall_impl; [exact Htr|]. intros tr (o & Ho & Hof).
      exists o. split; [|exact Hof].
      rewrite lookup_insert_ne; [exact Ho|].
      intros Heq. rewrite <- Heq in Ho. destruct Hof as [Hfill _]. congruence.
    + apply Forall_singleton. exists (filled_order order result now).
      split; [rewrite Htid, Hkey; apply lookup_insert_eq|].
      unfold trade_of. cbn. split; [reflexivity|]. split; [exact Hsym|].
      split; [exact Hside|]. split; [congruence|exact Htime].
  - rewrite fmap_app. cbn. rewrite Htid, Hkey.
    apply NoDup_app. split; [exact Hdup|]. split; [|apply NoDup_singleton].
    intros x Hx Hx'. apply list_elem_of_singleton in Hx'. subst x. contradiction.
  - rewrite fmap_app. cbn.
    apply map_Forall_insert_2.
    + intros _. apply elem_of_app. right. rewrite Htid, Hkey.
      apply list_elem_of_here.
    + eapply map_Forall_impl; [exact Hfilled|].
      intros id' o Hin Hfill. apply elem_of_app. left. auto.
Qed.

Lemma on_tick_order_registry_inv tick d ex id :
  registry_inv ex -> registry_inv (Exchange.on_tick_order tick d ex id).
Proof.
  intros Hinv.
  destruct (on_tick_order_outcome tick d ex id) as (Hcount & _ & Hout).
  cbv zeta in Hcount, Hout.
  destruct Hout as [[Hord Hhist]|(order & Hid & Hst & _ & Hout)].
  - exact (registry_inv_unchanged ex _ Hord Hhist Hcount Hinv).
  - destruct Hinv as (Hids & Hok & Htr).
    destruct (Hok _ _ Hid) as (_ & _ & Hzero & Hpos).
    destruct Hout as [[Hord Hhist]|(Hfill & Hord & trade & Hhist & Htid & Hsym
                                    & Hside & _ & Hvol & Htime & _)].
    + apply (registry_inv_settle ex _ id order (Exchange.with_status order REJECTED));
        try assumption; try reflexivity; try discriminate.
      * split; [exact Hids|]. split; assumption.
      * unfold order_ok. cbn. split; [discriminate|]. split; [discriminate|].
        split; [intros _; apply Hzero; congruence|]. contradiction.
    + apply (registry_inv_fill ex _ id order
               (Matcher.try_match_order order tick true (matcher_ ex)).1
               (current_time_ ex) trade); try assumption.
      * split; [exact Hids|]. split; assumption.
      * apply try_match_order_success. exact Hfill.
Qed.

Lemma submit_order_registry_inv order id_ms now_ms ex :
  registry_inv ex ->
  registry_inv (Exchange.submit_order order id_ms now_ms ex).2.
Proof.
  intros (Hids & Hok & Htr & Hdup & Hfilled).
  pose proof (generate_order_id_fresh (ord_symbol order) id_ms ex Hids) as Hfresh.
  pose proof (generate_order_id_counter (ord_symbol order) id_ms ex) as Hlast.
  destruct Hids as [Hsize Hids].
  destruct (submit_order_cases order id_ms now_ms ex)
    as (Hid & Hcount & Hhist & _ & _ & Hcases).
  cbv zeta in Hcases. rewrite <- Hid in Hfresh, Hlast.
  set (r := Exchange.submit_order order id_ms now_ms ex) in *.
  assert (Hgen : forall stored,
    orders_ r.2 = <[r.1 := stored]> (orders_ ex) ->
    ord_order_id stored = r.1 -> order_ok stored -> ord_status stored <> FILLED ->
    registry_inv r.2).
  { intros stored Hord Hkey Hok' Hnot.
    unfold registry_inv, ids_ok, trades_ok. rewrite Hord, Hhist, Hcount.
    split; [split|split; [|split; [|split]]].
    - rewrite map_size_insert_None by exact Hfresh. lia.
    - apply map_Forall_insert_2.
      + split; [exact Hkey|]. exists (order_counter_ ex + 1). split; [exact Hlast|].
        assert (0 <= Z.of_nat (size (orders_ ex))) by lia. lia.
      + eapply map_Forall_impl; [exact Hids|].
        intros id o (Hk & k & Hlastk & Hrange). split; [exact Hk|].
        exists k. split; [exact Hlastk|lia].
    - apply map_Forall_insert_2; assumption.
    - eapply Forall_impl; [exact Htr|]. intros tr (o & Ho & Hof).
      exists o. split; [|exact Hof].
      rewrite lookup_insert_ne; [exact Ho|]. intros Heq. congruence.
    - exact Hdup.
    - apply map_Forall_insert_2; [contradiction|exact Hfilled]. }
  destruct Hcases as [[Hord _]|(Hord & Hvol & Hlimit & _)].
  - apply (Hgen _ Hord); [reflexivity| |discriminate].
    unfold order_ok. cbn. split; [discriminate|]. split; [discriminate|].
    split; [reflexivity|contradiction].
  - apply (Hgen _ Hord); [reflexivity| |discriminate].
    unfold order_ok. cbn. split; [discriminate|]. split; [discriminate|].
    split; [reflexivity|]. intros _. split; assumption.
Qed.

Lemma cancel_order_registry_inv order_id now_ms ex :
  registry_inv ex -> registry_inv (Exchange.cancel_order order_id now_ms ex).2.
Proof.
  intros Hinv.
  destruct (cancel_order_registry order_id now_ms ex) as (Hcount & Hhist & _ & Hout).
  cbv zeta in Hcount, Hhist, Hout.
  destruct Hout as [[_ ->]|(order & _ & Hid & Hst & Hord)]; [exact Hinv|].
  apply (registry_inv_settle ex _ order_id order (cancelled_order order now_ms));
    try assumption; try reflexivity; try discriminate.
  destruct Hinv as (_ & Hok & _).
  destruct (Hok _ _ Hid) as (_ & _ & Hzero & Hpos).
  unfold order_ok. cbn. split; [discriminate|]. split; [discriminate|].
  split; [intros _; apply Hzero; congruence|].
  intros _. apply Hpos. congruence.
Qed.

Lemma step_registry_inv ex op : registry_inv ex -> registry_inv (step ex op).
Proof.
  intros Hinv. destruct op as [order id_ms now_ms|tick|order_id now_ms|d]; cbn [step].
  - apply submit_order_registry_inv, Hinv.
  - unfold Exchange.on_tick. apply foldl_preserves.
    + intros ex' id Hex'. apply on_tick_order_registry_inv, Hex'.
    + revert Hinv. apply registry_inv_unchanged; reflexivity.
  - apply cancel_order_registry_inv, Hinv.
  - revert Hinv. apply registry_inv_unchanged; reflexivity.
Qed.

Lemma reachable_registry_inv ex : reachable ex -> registry_inv ex.
Proof.
  intros Hex.
  induction Hex as [account_id initial_capital draws ex Hnew|ex op _ IH].
  - unfold Exchange.new in Hnew.
    destruct (Account.new account_id initial_capital); [|discriminate].
    injection Hnew as <-.
    unfold registry_inv, ids_ok, trades_ok.
    cbn [orders_ trade_history_ order_counter_ fmap list_fmap].
    rewrite map_size_empty.
    split; [split; [reflexivity|apply map_Forall_empty]|].
    split; [apply map_Forall_empty|].
    split; [constructor|]. split; [constructor|apply map_Forall_empty].
  - apply step_registry_inv, IH.
Qed.
End RegistryInvariant.

(** X19.  In every reachable state the registry holds exactly
    [order_counter_] orders, each stored under its own order id, and the
    id that the next [submit_order] returns is not yet in the registry:
    a submission never overwrites an order, and every order stored
    before is stored unchanged after it. *)
Theorem order_ids_fresh (ex : SimulatedExchange) (order : SimulatedOrder)
    (id_ms now_ms : Z) :
  reachable ex ->
  let r := Exchange.submit_order order id_ms now_ms ex in
  orders_ ex !! r.1 = None
  /\ (forall id o, orders_ ex !! id = Some o -> orders_ r.2 !! id = Some o)
  /\ Z.of_nat (size (orders_ ex)) = order_counter_ ex
  /\ (forall id o, orders_ ex !! id = Some o -> ord_order_id o = id).
Proof.
  intros Hex. cbv zeta.
  destruct (reachable_registry_inv ex Hex) as (Hids & _).
  destruct (submit_order_cases order id_ms now_ms ex)
    as (Hid & _ & _ & _ & _ & Hcases).
  cbv zeta in Hcases.
  assert (Hfresh : orders_ ex !! (Exchange.submit_order order id_ms now_ms ex).1
                   = None).
  { rewrite Hid. apply generate_order_id_fresh, Hids. }
  split; [exact Hfresh|]. split; [|split; [apply Hids|]].
  - intros id o Ho.
    assert (Hne : (Exchange.submit_order order id_ms now_ms ex).1 <> id)
      by congruence.
    destruct Hcases as [[-> _]|(-> & _)]; rewrite lookup_insert_ne; assumption.
  - intros id o Ho. destruct Hids as [_ Hids]. apply (Hids _ _ Ho).
Qed.

Lemma order_ids_fresh_witness :
  let ex := run demo_exchange demo_buy in
  let r := Exchange.submit_order (sample_order "000001" BUY LIMIT 10%Q 1000) 5 5 ex in
  orders_ ex !! r.1 = None.
Proof.
  destruct (order_ids_fresh (run demo_exchange demo_buy)
              (sample_order "000001" BUY LIMIT 10%Q 1000) 5 5
              (demo_reachable demo_buy)) as [Hfresh _].
  exact Hfresh.
Defined.

(** X20.  In every reachable state no stored order is PARTIAL_FILLED; a
    FILLED order is filled for its whole volume and any other order for
    nothing; an order that was not rejected has a positive volume and, if
    LIMIT, a positive price.  Trades and FILLED orders correspond one to
    one: every trade record names a FILLED order of the registry with its
    symbol, side, volume and fill time, no two trade records name the
    same order, and every FILLED order has its trade record. *)
Theorem trades_match_filled_orders (ex : SimulatedExchange) :
  reachable ex ->
  (forall id o, orders_ ex !! id = Some o -> order_ok o)
  /\ (forall tr, tr ∈ Exchange.get_trade_history ex ->
      exists o, orders_ ex !! trade_order_id tr = Some o /\ trade_of tr o)
  /\ NoDup (trade_order_id <$> Exchange.get_trade_history ex)
  /\ (forall id o, orders_ ex !! id = Some o -> ord_status o = FILLED ->
      exists tr, tr ∈ Exchange.get_trade_history ex /\ trade_order_id tr = id).
Proof.
  intros Hex. unfold Exchange.get_trade_history.
  destruct (reachable_registry_inv ex Hex) as (_ & Hok & Htr & Hdup & Hfilled).
  split; [exact Hok|]. split; [|split; [exact Hdup|]].
  - rewrite Forall_forall in Htr. exact Htr.
  - intros id o Ho Hfill.
    pose proof (Hfilled _ _ Ho Hfill) as Hin.
    apply list_elem_of_fmap in Hin as (tr & -> & Hin). eauto.
Qed.

Lemma trades_match_filled_orders_witness :
  NoDup (trade_order_id
           <$> Exchange.get_trade_history (run demo_exchange demo_sell_150_filled)).
Proof.
  destruct (trades_match_filled_orders (run demo_exchange demo_sell_150_filled)
              (demo_reachable demo_sell_150_filled)) as (_ & _ & Hdup & _).
  exact Hdup.
Defined.

(** ** What a tick does to every order *)

Section TickSettles.
  Implicit Types (ex : SimulatedExchange) (id : string) (order : SimulatedOrder)
    (m : OrderMatcher).

Lemma try_match_order_success_indep order tick check m m' :
  mr_success (Matcher.try_match_order order tick check m).1
  = mr_success (Matcher.try_match_order order tick check m').1.
Proof.
  destruct (mr_success (Matcher.try_match_order order tick check m).1) eqn:Hm.
  - destruct (mr_success (Matcher.try_match_order order tick check m').1) eqn:Hm';
      [reflexivity|].
    rewrite (try_match_order_failure_indep order tick check m' m Hm') in Hm.
    congruence.
  - rewrite (try_match_order_failure_indep order tick check m m' Hm). congruence.
Qed.

Lemma filled_order_indep order tick check m m' now :
  mr_success (Matcher.try_match_order order tick check m).1 = true ->
  filled_order order (Matcher.try_match_order order tick check m).1 now
  = filled_order order (Matcher.try_match_order order tick check m').1 now.
Proof.
  intros Hm.
  assert (Hm' : mr_success (Matcher.try_match_order order tick check m').1 = true).
  { rewrite <- Hm. apply try_match_order_success_indep. }
  destruct (try_match_order_success order tick check m Hm) as [Hv _].
  destruct (try_match_order_success order tick check m' Hm') as [Hv' _].
  unfold filled_order. rewrite Hv, Hv'. reflexivity.
Qed.

(** Of the reasons of the matcher, the waiting ones are those with
    "limit" or "price" in them. *)
Lemma waiting_reason_spec order tick check m :
  let verdict := (Matcher.try_match_order order tick check m).1 in
  mr_success verdict = false ->
  (negb (Matcher.contains "limit" (mr_reject_reason verdict))
   && negb (Matcher.contains "price" (mr_reject_reason verdict)) = false
   <-> mr_reject_reason verdict ∈ waiting_reasons).
Proof.
  cbv zeta. intros Hfail.
  destruct (try_match_order_failure order tick check m Hfail) as [_ Hin].
  revert Hin. generalize (mr_reject_reason (Matcher.try_match_order order tick check m).1).
  intros reason. unfold waiting_reasons.
  rewrite !elem_of_cons, !elem_of_nil.
  intros [->|[->|[->|[->|[->|[->|[->|[->|[->|[]]]]]]]]]];
    (split; [vm_compute; intros ?; first [discriminate|tauto]
            |intros [?|[?|[?|[?|[]]]]]; first [discriminate|reflexivity]]).
Qed.

(** The turn of the loop on a PENDING order of the tick's symbol. *)
Lemma on_tick_order_visit tick d ex id order :
  orders_ ex !! id = Some order ->
  ord_status order = PENDING -> ord_symbol order = tick_symbol tick ->
  let verdict := (Matcher.try_match_order order tick true (matcher_ ex)).1 in
  let after := orders_ (Exchange.on_tick_order tick d ex id) !! id in
  (mr_success verdict = true ->
   after = Some (filled_order order verdict (current_time_ ex))
   \/ after = Some (Exchange.with_status order REJECTED))
  /\ (mr_success verdict = false ->
      mr_reject_reason verdict ∈ waiting_reasons -> after = Some order)
  /\ (mr_success verdict = false ->
      mr_reject_reason verdict ∉ waiting_reasons ->
      after = Some (Exchange.with_status order REJECTED)).
Proof.
  intros Hid Hst Hsym. cbv zeta.
  pose proof (waiting_reason_spec order tick true (matcher_ ex)) as Hwait.
  cbv zeta in Hwait.
  unfold Exchange.on_tick_order. rewrite Hid.
  rewrite bool_decide_eq_true_2 by exact Hst.
  rewrite Hsym, String.eqb_refl. cbn [negb].
  destruct (Matcher.try_match_order order tick true (matcher_ ex)) as [result m].
  cbn [fst] in *.
  destruct (mr_success result) eqn:Hok.
  - split; [|split; discriminate]. intros _.
    destruct (process_fill_registry id order result d (Exchange.set_matcher ex m))
      as (_ & _ & [[-> _]|[-> _]]).
    + right. apply lookup_insert_eq.
    + left. cbn [Exchange.set_matcher current_time_ orders_].
      apply lookup_insert_eq.
  - split; [discriminate|]. specialize (Hwait eq_refl).
    destruct (negb _ && negb _) eqn:Hcond.
    + split; intros _ Hin.
      * apply Hwait in Hin. discriminate.
      * destruct (process_reject_registry id order (mr_reject_reason result)
                    (Exchange.set_matcher ex m)) as (-> & _).
        apply lookup_insert_eq.
    + split; intros _ Hin.
      * exact Hid.
      * exfalso. apply Hin, Hwait. reflexivity.
Qed.

Lemma on_tick_order_other_symbol tick d ex id order :
  orders_ ex !! id = Some order -> ord_symbol order <> tick_symbol tick ->
  Exchange.on_tick_order tick d ex id = ex.
Proof.
  intros Hid Hsym. unfold Exchange.on_tick_order. rewrite Hid.
  destruct (negb (bool_decide _)); [reflexivity|].
  destruct (String.eqb_spec (ord_symbol order) (tick_symbol tick));
    [contradiction|reflexivity].
Qed.

Lemma on_tick_loop_skip tick d ids ex id :
  id ∉ ids ->
  orders_ (foldl (Exchange.on_tick_order tick d) ex ids) !! id = orders_ ex !! id.
Proof.
  revert ex. induction ids as [|id' ids IH]; intros ex Hnot; [reflexivity|].
  cbn [foldl]. apply not_elem_of_cons in Hnot as [Hne Hnot].
  rewrite IH by exact Hnot. apply on_tick_order_other, Hne.
Qed.

Lemma on_tick_loop_time tick d ids ex :
  current_time_ (foldl (Exchange.on_tick_order tick d) ex ids) = current_time_ ex.
Proof.
  revert ex. induction ids as [|id' ids IH]; intros ex; [reflexivity|].
  cbn [foldl]. rewrite IH. apply on_tick_order_outcome.
Qed.
End TickSettles.

(** X21.  What [on_tick] leaves of an order of the registry.  An order
    that is not PENDING, or is for another symbol than the tick's, stays
    as it is.  A PENDING order of the tick's symbol that the matcher can
    fill is FILLED, with the tick's timestamp as fill time, or REJECTED
    when the ledger refuses the fill.  One that the matcher declines
    because the limit price is not reached or the price is outside the
    price-limit band stays PENDING, unchanged; one that it declines for
    any other reason (the volume rules, the liquidity check) is
    REJECTED.  Whether the order is visited early or late in the loop
    makes no difference. *)
Theorem on_tick_settles (tick : Tick) (ex : SimulatedExchange) (id : string)
    (order : SimulatedOrder) :
  orders_ ex !! id = Some order ->
  let verdict := (Matcher.try_match_order order tick true (matcher_ ex)).1 in
  let after := orders_ (Exchange.on_tick tick ex) !! id in
  (ord_status order <> PENDING \/ ord_symbol order <> tick_symbol tick ->
   after = Some order)
  /\ (ord_status order = PENDING -> ord_symbol order = tick_symbol tick ->
      (mr_success verdict = true ->
       after = Some (filled_order order verdict (tick_timestamp tick))
       \/ after = Some (Exchange.with_status order REJECTED))
      /\ (mr_success verdict = false ->
          mr_reject_reason verdict ∈ waiting_reasons -> after = Some order)
      /\ (mr_success verdict = false ->
          mr_reject_reason verdict ∉ waiting_reasons ->
          after = Some (Exchange.with_status order REJECTED))).
Proof.
  intros Hid. cbv zeta. split.
  - intros Hskip. apply on_tick_keeps_entry; [exact Hid|].
    intros d ex' Hex'. destruct Hskip as [Hst|Hsym].
    + rewrite (on_tick_order_not_pending tick d ex' id order Hex' Hst). exact Hex'.
    + rewrite (on_tick_order_other_symbol tick d ex' id order Hex' Hsym). exact Hex'.
  - intros Hst Hsym. unfold Exchange.on_tick.
    set (d := Z.quot (tick_timestamp tick) Exchange.ms_per_day).
    set (ex0 := {| account_ := _; matcher_ := matcher_ ex; orders_ := orders_ ex;
                   trade_history_ := trade_history_ ex;
                   current_time_ := tick_timestamp tick;
                   order_counter_ := order_counter_ ex |}).
    assert (Hin : id ∈ (map_to_list (orders_ ex0)).*1).
    { apply list_elem_of_fmap. exists (id, order).
      split; [reflexivity|]. apply elem_of_map_to_list. exact Hid. }
    pose proof (NoDup_fst_map_to_list (orders_ ex0)) as Hdup.
    apply list_elem_of_split in Hin as (l1 & l2 & Hsplit).
    rewrite Hsplit in Hdup |- *.
    apply NoDup_app in Hdup as (_ & Hl1 & Hdup).
    apply NoDup_cons in Hdup as [Hl2 _].
    assert (Hl1' : id ∉ l1).
    { intros Hin. apply (Hl1 _ Hin). apply list_elem_of_here. }
    rewrite foldl_app. cbn [foldl].
    rewrite (on_tick_loop_skip tick d l2 _ id Hl2).
    set (ex1 := foldl (Exchange.on_tick_order tick d) ex0 l1).
    assert (Hid1 : orders_ ex1 !! id = Some order).
    { unfold ex1. rewrite (on_tick_loop_skip tick d l1 ex0 id Hl1'). exact Hid. }
    assert (Htime : current_time_ ex1 = tick_timestamp tick).
    { unfold ex1. rewrite on_tick_loop_time. reflexivity. }
    destruct (on_tick_order_visit tick d ex1 id order Hid1 Hst Hsym)
      as (Hfill & Hwait & Hrej).
    cbv zeta in Hfill, Hwait, Hrej. rewrite Htime in Hfill.
    pose proof (try_match_order_success_indep order tick true (matcher_ ex)
                  (matcher_ ex1)) as Hsame.
    split; [|split].
    + intros Hok.
      rewrite (filled_order_indep order tick true (matcher_ ex) (matcher_ ex1) _ Hok).
      apply Hfill. congruence.
    + intros Hfail.
      rewrite <- (try_match_order_failure_indep order tick true (matcher_ ex)
                    (matcher_ ex1) Hfail).
      apply Hwait. congruence.
    + intros Hfail.
      rewrite <- (try_match_order_failure_indep order tick true (matcher_ ex)
                    (matcher_ ex1) Hfail).
      apply Hrej. congruence.
Qed.

Lemma on_tick_settles_witness :
  let ex := run demo_exchange [OpSubmitOrder limit_up_order 5 5] in
  let order :=
    default limit_up_order (orders_ ex !! "ORDER_5_600000_1") in
  orders_ (Exchange.on_tick limit_up_tick ex) !! "ORDER_5_600000_1" = Some order.
Proof.
  destruct (on_tick_settles limit_up_tick
              (run demo_exchange [OpSubmitOrder limit_up_order 5 5])
              "ORDER_5_600000_1"
              (default limit_up_order
                 (orders_ (run demo_exchange [OpSubmitOrder limit_up_order 5 5])
                    !! "ORDER_5_600000_1")))
    as [_ Hpending].
  - vm_compute. reflexivity.
  - destruct Hpending as (_ & Hwait & _).
    + vm_compute. reflexivity.
    + vm_compute. reflexivity.
    + apply Hwait.
      * vm_compute. reflexivity.
      * vm_compute. apply elem_of_cons. right. apply elem_of_cons. right.
        apply list_elem_of_here.
Defined.

(** ** Valuation of the positions *)

Lemma keeps_valued_preorder : PreOrder keeps_valued.
Proof. split; unfold keeps_valued; [intros a; auto|intros a b c; auto]. Qed.
#[local] Existing Instance keeps_valued_preorder.

Section Valuation.
  Implicit Types (a : SimulationAccount) (pos : Position).

Lemma keeps_valued_same a a' : positions_ a' = positions_ a -> keeps_valued a a'.
Proof. unfold keeps_valued, positions_valued. intros ->. auto. Qed.

Lemma set_frozen_volume_valued symbol pos frozen :
  position_valued symbol pos ->
  position_valued symbol (Account.set_frozen_volume pos frozen).
Proof. auto. Qed.

Lemma unlock_valued d symbol pos :
  position_valued symbol pos -> position_valued symbol (Account.unlock d pos).
Proof. unfold Account.unlock. destruct (_ <? _); auto. Qed.

Lemma add_position_valued symbol volume price d a :
  keeps_valued a (Account.add_position symbol volume price d a).2.
Proof.
  unfold Account.add_position.
  destruct (String.eqb symbol ""); [reflexivity|].
  destruct (Z.leb_spec volume 0); [reflexivity|].
  destruct (Qle_bool price 0); [reflexivity|]. cbn [orb].
  destruct (1000000000 <? volume); [reflexivity|].
  destruct (Qltb 1000000 price); [reflexivity|].
  intros Ha.
  destruct (positions_ a !! symbol) as [pos|] eqn:Hpos;
    cbn [snd]; unfold positions_valued; cbn [Account.set_positions positions_];
    (apply map_Forall_insert_2; [|exact Ha]).
  - destruct (Ha _ _ Hpos) as (Hsym & Hvol & Hcost & Hprice & _).
    unfold position_valued. cbn.
    split; [exact Hsym|]. split; [lia|].
    split; [apply round_to_cent_idem|]. split; [exact Hprice|].
    split; reflexivity.
  - unfold position_valued, Position_new. cbn.
    split; [reflexivity|]. split; [assumption|].
    split; [apply round_to_cent_idem|]. split; [apply round_to_cent_idem|].
    split.
    + symmetry. apply round_to_cent_shares.
    + assert (Hzero : inject_Z volume * round_to_cent price
                      - inject_Z volume * round_to_cent price
                      == inject_Z 0 / 100) by (cbn; field).
      rewrite (round_to_cent_comp _ _ Hzero), round_to_cent_cents. reflexivity.
Qed.

Lemma reduce_position_valued symbol volume price pnl a :
  keeps_valued a (Account.reduce_position symbol volume price pnl a).2.
Proof.
  unfold Account.reduce_position.
  destruct (_ || _); [reflexivity|].
  destruct (positions_ a !! symbol) as [pos|] eqn:Hpos; [|reflexivity].
  destruct (Z.ltb_spec (pos_volume pos) volume); [reflexivity|].
  intros Ha. cbn [snd]. unfold positions_valued. cbn [positions_].
  destruct (Z.eqb_spec (pos_volume pos - volume) 0).
  - apply map_Forall_delete, Ha.
  - apply map_Forall_insert_2; [|exact Ha].
    destruct (Ha _ _ Hpos) as (Hsym & Hvol & Hcost & Hprice & _).
    unfold position_valued. cbn.
    split; [exact Hsym|]. split; [lia|].
    split; [exact Hcost|]. split; [exact Hprice|]. split; reflexivity.
Qed.

Lemma freeze_position_valued symbol volume a :
  keeps_valued a (Account.freeze_position symbol volume a).2.
Proof.
  unfold Account.freeze_position.
  destruct (volume <=? 0); [reflexivity|].
  destruct (positions_ a !! symbol) as [pos|] eqn:Hpos; [|reflexivity].
  destruct (_ <? volume); [reflexivity|].
  intros Ha. cbn [snd]. unfold positions_valued.
  cbn [Account.set_positions positions_].
  apply map_Forall_insert_2; [|exact Ha].
  apply set_frozen_volume_valued, (Ha _ _ Hpos).
Qed.

Lemma unfreeze_position_valued symbol volume a :
  keeps_valued a (Account.unfreeze_position symbol volume a).
Proof.
  unfold Account.unfreeze_position.
  destruct (volume <=? 0); [reflexivity|].
  destruct (positions_ a !! symbol) as [pos|] eqn:Hpos; [|reflexivity].
  intros Ha. unfold positions_valued. cbn [Account.set_positions positions_].
  apply map_Forall_insert_2; [|exact Ha].
  apply set_frozen_volume_valued, (Ha _ _ Hpos).
Qed.

Lemma update_position_price_valued symbol price a :
  keeps_valued a (Account.update_position_price symbol price a).
Proof.
  unfold Account.update_position_price.
  destruct (positions_ a !! symbol) as [pos|] eqn:Hpos; [|reflexivity].
  intros Ha. unfold positions_valued. cbn [Account.set_positions positions_].
  apply map_Forall_insert_2; [|exact Ha].
  destruct (Ha _ _ Hpos) as (Hsym & Hvol & Hcost & _).
  unfold position_valued. cbn.
  split; [exact Hsym|]. split; [exact Hvol|]. split; [exact Hcost|].
  split; [apply round_to_cent_idem|]. split; reflexivity.
Qed.

Lemma update_available_volume_valued d a :
  keeps_valued a (Account.update_available_volume d a).
Proof.
  intros Ha. unfold positions_valued, Account.update_available_volume.
  cbn [Account.set_positions positions_].
  apply map_Forall_fmap. eapply map_Forall_impl; [exact Ha|].
  intros symbol pos. apply unlock_valued.
Qed.

Lemma step_keeps_valued ex op : keeps_valued (account_ ex) (account_ (step ex op)).
Proof.
  apply (step_closure keeps_valued).
  - intros. apply keeps_valued_same. apply (freeze_cash_frame amount a).
  - intros. apply keeps_valued_same. apply (unfreeze_cash_frame amount a).
  - apply add_position_valued.
  - apply reduce_position_valued.
  - apply freeze_position_valued.
  - apply unfreeze_position_valued.
  - apply update_position_price_valued.
  - apply update_available_volume_valued.
Qed.

Lemma reachable_positions_valued ex : reachable ex -> positions_valued (account_ ex).
Proof.
  intros Hex.
  induction Hex as [account_id initial_capital draws ex Hnew|ex op _ IH].
  - apply new_inv in Hnew as (_ & _ & Hpos & _).
    unfold positions_valued. rewrite Hpos. apply map_Forall_empty.
  - apply (step_keeps_valued ex op), IH.
Qed.
End Valuation.

(** X22.  In every reachable state each position of the account is
    stored under its own symbol and has a positive volume, so a position
    sold out is gone from the account; its average cost and current
    price are whole cents; its market value is the volume times the
    current price, rounded to cents, and its unrealized profit is the
    market value less the volume times the average cost, rounded to
    cents. *)
Theorem positions_valued_reachable (ex : SimulatedExchange) (symbol : string)
    (pos : Position) :
  reachable ex ->
  positions_ (account_ ex) !! symbol = Some pos ->
  pos_symbol pos = symbol
  /\ 0 < pos_volume pos
  /\ round_to_cent (pos_avg_cost pos) == pos_avg_cost pos
  /\ round_to_cent (pos_current_price pos) == pos_current_price pos
  /\ pos_market_value pos
     == round_to_cent (inject_Z (pos_volume pos) * pos_current_price pos)
  /\ pos_unrealized_pnl pos
     == round_to_cent
          (pos_market_value pos - inject_Z (pos_volume pos) * pos_avg_cost pos).
Proof.
  intros Hex Hpos. exact (reachable_positions_valued ex Hex symbol pos Hpos).
Qed.

Lemma positions_valued_reachable_witness :
  let pos :=
    default demo_position
      (positions_ (account_ (run demo_exchange demo_sell_150_filled)) !! "000001") in
  0 < pos_volume pos.
Proof.
  destruct (positions_valued_reachable (run demo_exchange demo_sell_150_filled)
              "000001"
              (default demo_position
                 (positions_ (account_ (run demo_exchange demo_sell_150_filled))
                    !! "000001")))
    as (_ & Hvol & _).
  - apply (demo_reachable demo_sell_150_filled).
  - vm_compute. reflexivity.
  - exact Hvol.
Defined.

(** ** The price-limit band and the two copies of the matcher *)

Section PriceBand.
  Implicit Types (symbol : string).

Lemma get_limit_pct_values symbol :
  Matcher.get_limit_pct symbol ∈ [0.05%Q; 0.20%Q; 0.30%Q; 0.10%Q].
Proof.
  unfold Matcher.get_limit_pct. repeat case_match; set_solver.
Qed.
End PriceBand.

(** X23.  The limit queue and the matcher use the same price-limit
    percentage, one of 5, 10, 20 and 30 percent.  For a positive previous
    close the limit-down price is at most, and the limit-up price at
    least, the previous close rounded to cents, and the matcher's
    [check_limit_price] accepts the previous close itself. *)
Theorem price_limits_bracket_close (symbol : string) (last_close : Q) :
  (0 < last_close)%Q ->
  Queue.get_limit_pct symbol = Matcher.get_limit_pct symbol
  /\ Matcher.get_limit_pct symbol ∈ [0.05%Q; 0.20%Q; 0.30%Q; 0.10%Q]
  /\ (Queue.calculate_limit_down_price symbol last_close
      <= round_to_cent last_close
      <= Queue.calculate_limit_up_price symbol last_close)%Q
  /\ Matcher.check_limit_price symbol last_close last_close = true.
Proof.
  intros Hclose.
  pose proof (get_limit_pct_range symbol) as Hpct.
  split; [reflexivity|]. split; [apply get_limit_pct_values|]. split.
  - change (Queue.calculate_limit_down_price symbol last_close)
      with (round_to_cent (last_close * (1 - Matcher.get_limit_pct symbol))).
    change (Queue.calculate_limit_up_price symbol last_close)
      with (round_to_cent (last_close * (1 + Matcher.get_limit_pct symbol))).
    split; apply round_to_cent_mono; nra.
  - unfold Matcher.check_limit_price.
    destruct (Qle_bool last_close 0) eqn:Hle; [reflexivity|]. cbv zeta.
    apply andb_true_iff. split; apply Qle_bool_iff; nra.
Qed.

Lemma price_limits_bracket_close_witness :
  (Queue.calculate_limit_down_price "688001" 10
   <= round_to_cent 10
   <= Queue.calculate_limit_up_price "688001" 10)%Q.
Proof.
  apply (price_limits_bracket_close "688001" 10%Q). reflexivity.
Defined.

(** X24.  The older copy of the matcher agrees with the current one on
    every order that the current one fills: same price, same volume,
    same generator state.  What the older copy fills and the current one
    declines are exactly the orders that break the volume rules added
    since: more than 1,000,000 shares, or a BUY that is not a multiple of
    100. *)
Theorem legacy_matcher_agrees (order : SimulatedOrder) (tick : Tick)
    (check_price_limit : bool) (m : OrderMatcher) :
  (mr_success (Matcher.try_match_order order tick check_price_limit m).1 = true ->
   LegacyMatcher.try_match_order order tick check_price_limit m
   = Matcher.try_match_order order tick check_price_limit m)
  /\ (mr_success (LegacyMatcher.try_match_order order tick check_price_limit m).1
      = true ->
      mr_success (Matcher.try_match_order order tick check_price_limit m).1 = false
      <-> 1000000 < ord_volume order
          \/ (ord_side order = BUY /\ Z.rem (ord_volume order) 100 <> 0)).
Proof.
  pose proof (validate_order_volume_true (ord_volume order) (ord_side order))
    as Hvalid.
  unfold Matcher.try_match_order, LegacyMatcher.try_match_order.
  destruct (Matcher.validate_order_volume _ _ _) as [is_valid msg].
  cbn [fst] in Hvalid. destruct is_valid; cbn [negb].
  - destruct (proj1 Hvalid eq_refl) as [Hvol Hlot].
    destruct (Z.leb_spec (ord_volume order) 0); [lia|].
    assert (Hrules : ~ (1000000 < ord_volume order
                        \/ (ord_side order = BUY
                            /\ Z.rem (ord_volume order) 100 <> 0))).
    { intros [Hbig|[Hside Hodd]]; [lia|]. specialize (Hlot Hside). contradiction. }
    destruct (match ord_type order with MARKET => _ | LIMIT => _ end)
      as [reason|base_price].
    { split; [reflexivity|]. cbn. discriminate. }
    destruct (check_price_limit && _ && negb _).
    { split; destruct (ord_side order); cbn; discriminate. }
    split; [reflexivity|]. intros Hok. rewrite Hok.
    split; [discriminate|]. intros Hbad. contradiction.
  - split; [discriminate|].
    destruct (Z.leb_spec (ord_volume order) 0); [discriminate|].
    intros _. cbn [fst mr_success MatchResult_fail]. split; [|reflexivity].
    intros _.
    destruct (Z.ltb_spec 1000000 (ord_volume order)); [left; assumption|].
    right. destruct (ord_side order) eqn:Hside.
    + split; [reflexivity|]. intros Hrem.
      assert (false = true) as Habs; [|discriminate].
      apply Hvalid. split; [lia|]. intros _. exact Hrem.
    + assert (false = true) as Habs; [|discriminate].
      apply Hvalid. split; [lia|discriminate].
Qed.
